(** * IDAES example notebooks: MatOpt material design and RIPE kinetics

    A shallow embedding of the code cells of the eight example notebooks
    (nanowire, perovskite, monometallic nanocluster, monometallic surface,
    bifunctional surface, bimetallic nanocluster, RIPE chemical looping
    combustion, RIPE isothermal CSTR) as programs of a small monad.

    The notebooks are glue code: every interesting computation happens inside
    MatOpt, RIPE, the MILP solver, the file system.  Those are not modelled;
    they are an environment the script talks to.  A run of a notebook is the
    script executed against an arbitrary environment, and it yields the list
    of events (library calls with their responses, printed lines) together
    with the way the run ended.  The cells of a notebook run in the order
    they stand in ("Run All"); an exception no cell catches ends the run. *)

From Stdlib Require Import List String Ascii ZArith Bool Arith Lia Sorted.
From Stdlib Require Import DecimalString.
Set Warnings "-register-all".
Import ListNotations.
Open Scope string_scope.
Open Scope list_scope.

(* ================================================================== *)
(** * Python values *)
(* ================================================================== *)

(** Values as the scripts handle them.  Floating point arithmetic is kept
    symbolic ([VOp]): the scripts never inspect a float except through a
    comparison, and comparisons are answered by the environment. *)
Inductive val : Type :=
| VNone
| VBool (b : bool)
| VInt (z : Z)
| VFloat (lit : string)              (* a float literal, as written *)
| VStr (s : string)
| VList (l : list val)
| VTuple (l : list val)
| VDict (kv : list (val * val))
| VObj (id : nat)                    (* an object owned by a library *)
| VAttr (o : val) (name : string)    (* o.name, handed to the library unresolved *)
| VOp (op : string) (args : list val).

Definition is_None (v : val) : bool :=
  match v with VNone => true | _ => false end.

Definition mul (a b : val) : val := VOp "*" [a; b].
Definition div (a b : val) : val := VOp "/" [a; b].
Definition add (a b : val) : val := VOp "+" [a; b].
Definition sub (a b : val) : val := VOp "-" [a; b].
Definition pow (a b : val) : val := VOp "**" [a; b].
Definition neg (a : val) : val := VOp "neg" [a].
Definition sqrt (a : val) : val := VOp "sqrt" [a].
Definition np_pi : val := VAttr (VStr "numpy") "pi".
Definition DBL_TOL : val := VAttr (VStr "idaes.apps.matopt") "DBL_TOL".

Definition VNat (n : nat) : val := VInt (Z.of_nat n).
Definition VNats (l : list nat) : val := VList (map VNat l).

(** [np.zeros(n, dtype=float)] and [np.array(l, dtype=float)]. *)
Definition np_zeros (n : nat) : val := VList (repeat (VFloat "0.0") n).

(** [str(i)] for a non-negative integer. *)
Definition str_nat (n : nat) : string := NilEmpty.string_of_uint (Nat.to_uint n).

(* ================================================================== *)
(** * Exceptions, calls, events *)
(* ================================================================== *)

(** Python's exception hierarchy, as far as the two guards of the notebooks
    tell classes apart: [except Exception] catches the subclasses of
    [Exception] only, a bare [except:] catches every [BaseException]. *)
Inductive exn : Type :=
| PyException (cls : string)         (* ApplicationError, ValueError, ... *)
| PyBaseException (cls : string).    (* KeyboardInterrupt, SystemExit *)

Definition is_Exception (e : exn) : bool :=
  match e with PyException _ => true | PyBaseException _ => false end.

Record call : Type := Call {
  callee : string;
  args : list val;
  kwargs : list (string * val)
}.

Inductive response : Type :=
| Returns (v : val)
| Raises (e : exn).

Inductive event : Type :=
| ECall (c : call) (r : response)
| EPrint (line : list val).

(** The world outside the notebook.  [lib] answers a library call given
    everything that happened before; [mem] is the current content of a data
    attribute or item of a library object; [flt_lt] is [<] on numbers. *)
Record env : Type := Env {
  lib : list event -> call -> response;
  mem : list event -> val -> val;
  flt_lt : val -> val -> bool
}.

(* ================================================================== *)
(** * The script monad *)
(* ================================================================== *)

Inductive outcome (A : Type) : Type :=
| Done (a : A)
| Uncaught (e : exn)
| Timeout.                           (* a [while] loop ran out of fuel *)
Arguments Done {A} a.
Arguments Uncaught {A} e.
Arguments Timeout {A}.

(** A computation reads the environment and the history, and answers with
    its outcome and the events it added, oldest first. *)
Definition M (A : Type) : Type := env -> list event -> outcome A * list event.

Definition ret {A} (a : A) : M A := fun _ _ => (Done a, []).

Definition bind {A B} (m : M A) (k : A -> M B) : M B :=
  fun E h =>
    match m E h with
    | (Done a, t1) => let (r, t2) := k a E (h ++ t1) in (r, t1 ++ t2)
    | (Uncaught e, t1) => (Uncaught e, t1)
    | (Timeout, t1) => (Timeout, t1)
    end.

Definition raise {A} (e : exn) : M A := fun _ _ => (Uncaught e, []).

Definition do_call (c : call) : M val :=
  fun E h =>
    match lib E h c with
    | Returns v => (Done v, [ECall c (Returns v)])
    | Raises e => (Uncaught e, [ECall c (Raises e)])
    end.

Definition print (line : list val) : M unit := fun _ _ => (Done tt, [EPrint line]).

Definition read (ref : val) : M val := fun E h => (Done (mem E h ref), []).

Definition float_lt : M (val -> val -> bool) := fun E _ => (Done (flt_lt E), []).

(** [try: body except <catches>: handler]. *)
Definition try_except {A} (catches : exn -> bool) (body : M A) (handler : exn -> M A) : M A :=
  fun E h =>
    match body E h with
    | (Uncaught e, t1) =>
        if catches e
        then let (r, t2) := handler e E (h ++ t1) in (r, t1 ++ t2)
        else (Uncaught e, t1)
    | other => other
    end.

Definition bare {A} : M A -> (exn -> M A) -> M A := try_except (fun _ => true).
Definition except_Exception {A} : M A -> (exn -> M A) -> M A := try_except is_Exception.

(** [try: body finally: cleanup]: the cleanup always runs; an exception of
    the cleanup replaces the outcome of the body. *)
Definition finally {A} (body : M A) (cleanup : M unit) : M A :=
  fun E h =>
    let (r, t1) := body E h in
    match r with
    | Timeout => (Timeout, t1)
    | _ =>
        match cleanup E (h ++ t1) with
        | (Done _, t2) => (r, t1 ++ t2)
        | (Uncaught e, t2) => (Uncaught e, t1 ++ t2)
        | (Timeout, t2) => (Timeout, t1 ++ t2)
        end
    end.

(** A [for] loop that carries the variables it updates. *)
Fixpoint fold_m {X S} (l : list X) (body : X -> S -> M S) (s : S) : M S :=
  match l with
  | [] => ret s
  | x :: l' => bind (body x s) (fold_m l' body)
  end.

Definition for_ {X} (l : list X) (body : X -> M unit) : M unit :=
  fold_m l (fun x _ => body x) tt.

(** [while cond: body], with the variables the loop updates as [S]. *)
Fixpoint while_ {S} (fuel : nat) (cond : S -> M bool) (body : S -> M S) (s : S) : M S :=
  match fuel with
  | O => fun _ _ => (Timeout, [])
  | Datatypes.S fuel' =>
      bind (cond s) (fun b =>
        if b then bind (body s) (while_ fuel' cond body) else ret s)
  end.

Declare Scope py_scope.
Delimit Scope py_scope with py.
Notation "x <- m ;; k" := (bind m (fun x => k))
  (at level 100, m at next level, right associativity) : py_scope.
Notation "m ;; k" := (bind m (fun _ => k))
  (at level 100, right associativity) : py_scope.
Notation "' pat <- m ;; k" := (bind m (fun x => match x with pat => k end))
  (at level 100, pat pattern, m at next level, right associativity) : py_scope.
Open Scope py_scope.

(** A positional call, a call with keyword arguments, an import. *)
Definition call_ (f : string) (a : list val) : M val := do_call (Call f a []).
Definition call_kw (f : string) (a : list val) (kw : list (string * val)) : M val :=
  do_call (Call f a kw).
Definition import_ (module : string) : M unit := call_ "import" [VStr module] ;; ret tt.

(** [with ctor as x: body]. *)
Definition with_ {A} (ctor : M val) (body : val -> M A) : M A :=
  cm <- ctor ;;
  x <- call_ "__enter__" [cm] ;;
  finally (body x) (call_ "__exit__" [cm] ;; ret tt).

(* ------------------------------------------------------------------ *)
(** ** Reading library data *)
(* ------------------------------------------------------------------ *)

Definition TypeError : exn := PyException "TypeError".
Definition IndexError : exn := PyException "IndexError".
Definition ValueError : exn := PyException "ValueError".

Definition of_option {A} (e : exn) (o : option A) : M A :=
  match o with Some a => ret a | None => raise e end.

Definition as_list (v : val) : option (list val) :=
  match v with VList l => Some l | VTuple l => Some l | _ => None end.

Definition as_nat (v : val) : option nat :=
  match v with VInt z => if (0 <=? z)%Z then Some (Z.to_nat z) else None | _ => None end.

Fixpoint all_some {A} (l : list (option A)) : option (list A) :=
  match l with
  | [] => Some []
  | Some a :: l' => match all_some l' with Some r => Some (a :: r) | None => None end
  | None :: _ => None
  end.

(** A site of a canvas: a vector of three floats. *)
Definition point : Type := (val * val * val)%type.
Definition pt0 (p : point) : val := fst (fst p).          (* p[0] *)
Definition pt1 (p : point) : val := snd (fst p).          (* p[1] *)
Definition pt2 (p : point) : val := snd p.                (* p[2] *)
Definition point_val (p : point) : val := VList [pt0 p; pt1 p; pt2 p].

Definition as_point (v : val) : option point :=
  match v with VList [x; y; z] => Some (x, y, z) | _ => None end.

Definition as_points (v : val) : option (list point) :=
  match as_list v with Some l => all_some (map as_point l) | None => None end.

(** An entry of [NeighborhoodIndexes[i]]: a site index or [None]. *)
Definition as_index (v : val) : option (option nat) :=
  match v with
  | VNone => Some None
  | VInt z => if (0 <=? z)%Z then Some (Some (Z.to_nat z)) else None
  | _ => None
  end.

Definition as_neighbors (v : val) : option (list (list (option nat))) :=
  match as_list v with
  | Some rows =>
      all_some (map (fun row =>
        match as_list row with
        | Some js => all_some (map as_index js)
        | None => None
        end) rows)
  | None => None
  end.

Definition read_list (ref : val) : M (list val) :=
  v <- read ref ;; of_option TypeError (as_list v).
Definition read_points (ref : val) : M (list point) :=
  v <- read ref ;; of_option TypeError (as_points v).
Definition read_neighbors (ref : val) : M (list (list (option nat))) :=
  v <- read ref ;; of_option TypeError (as_neighbors v).
(** [len(o)]. *)
Definition read_len (o : val) : M nat :=
  v <- read (VOp "len" [o]) ;; of_option TypeError (as_nat v).

(** Truth value of a condition: [None], numbers and sequences as Python
    defines them; for a library object its [__bool__]/[__len__] decides. *)
Definition truth (v : val) : M bool :=
  match v with
  | VNone => ret false
  | VBool b => ret b
  | VInt z => ret (negb (z =? 0)%Z)
  | VStr s => ret (negb (String.eqb s ""))
  | VList l | VTuple l => ret (negb (Nat.eqb (List.length l) 0))
  | VDict kv => ret (negb (Nat.eqb (List.length kv) 0))
  | _ => b <- read (VOp "bool" [v]) ;;
         ret (match b with VBool false | VInt 0 | VNone => false | _ => true end)
  end.

Definition enumerate {A} (l : list A) : list (nat * A) :=
  combine (seq 0 (List.length l)) l.

Definition range (n : nat) : list nat := seq 0 n.

(** Comprehensions whose element expression or test calls the library. *)
Definition map_m {X Y} (f : X -> M Y) (l : list X) : M (list Y) :=
  fold_m l (fun x acc => y <- f x ;; ret (acc ++ [y])) [].

Definition filter_m {X} (f : X -> M bool) (l : list X) : M (list X) :=
  fold_m l (fun x acc => b <- f x ;; ret (if b then acc ++ [x] else acc)) [].

Definition run {A} (m : M A) (E : env) : outcome A * list event := m E [].
Definition trace {A} (m : M A) (E : env) : list event := snd (run m E).
Definition result {A} (m : M A) (E : env) : outcome A := fst (run m E).

(** [o[k]] and [o.a], as references into library data. *)
Definition item (o k : val) : val := VOp "[]" [o; k].
Notation "o @. a" := (VAttr o a) (at level 8, left associativity, format "o @. a").

(** Comprehension with a test that may fail: [f x = None] is an
    [IndexError], [Some false] drops [x], [Some true] keeps it. *)
Fixpoint select {A} (f : A -> option bool) (l : list A) : option (list A) :=
  match l with
  | [] => Some []
  | x :: l' =>
      match f x with
      | None => None
      | Some b =>
          match select f l' with
          | None => None
          | Some r => Some (if b then x :: r else r)
          end
      end
  end.

Fixpoint somes {A} (l : list (option A)) : list A :=
  match l with
  | [] => []
  | Some a :: l' => a :: somes l'
  | None :: l' => somes l'
  end.

Definition mem_nat (i : nat) (l : list nat) : bool := existsb (Nat.eqb i) l.

(* ================================================================== *)
(** * Site selections of the MatOpt notebooks *)
(* ================================================================== *)

Module Sites.

(** [p[0] ** 2 + p[1] ** 2] *)
Definition radial2 (p : point) : val :=
  add (pow (pt0 p) (VInt 2)) (pow (pt1 p) (VInt 2)).

(** Nanowire:
    [CoreLayers = [i for i, p in enumerate(canvas.Points)
                   if p[0] ** 2 + p[1] ** 2 < (coreRatio * radius) ** 2]] *)
Definition CoreLayers (lt : val -> val -> bool) (Points : list point)
    (coreRatio radius : val) : list nat :=
  map fst
    (filter (fun ip => lt (radial2 (snd ip)) (pow (mul coreRatio radius) (VInt 2)))
            (enumerate Points)).

(** [CanvasMinusCoreLayers =
       [i for i, p in enumerate(canvas.Points) if i not in CoreLayers]] *)
Definition CanvasMinusCoreLayers (Points : list point) (CoreLayers : list nat) : list nat :=
  map fst (filter (fun ip => negb (mem_nat (fst ip) CoreLayers)) (enumerate Points)).

(** [[i for i in range(len(Canv)) if Canv.Points[i][2] < bound]]; indexing
    [Canv.Points] past its end is an [IndexError] ([None]). *)
Definition layers_below (lt : val -> val -> bool) (len_Canv : nat)
    (Points : list point) (bound : val) : option (list nat) :=
  select (fun i => match nth_error Points i with
                   | Some p => Some (lt (pt2 p) bound)
                   | None => None
                   end)
         (range len_Canv).

(** [[i for i in range(len(Canv)) if Canv.Points[i][2] > bound]] *)
Definition layers_above (lt : val -> val -> bool) (len_Canv : nat)
    (Points : list point) (bound : val) : option (list nat) :=
  select (fun i => match nth_error Points i with
                   | Some p => Some (lt bound (pt2 p))
                   | None => None
                   end)
         (range len_Canv).

(** [[i for i in range(len(Canv)) if i not in L]] *)
Definition range_minus (len_Canv : nat) (L : list nat) : list nat :=
  filter (fun i => negb (mem_nat i L)) (range len_Canv).

(** Surface notebooks:
    [CanvTwoBotLayers = [i for i in range(len(Canv))
                         if Canv.Points[i][2] < 1.5 * Lat.FCC111LayerSpacing]]
    (the bifunctional notebook writes the product the other way round). *)
Definition CanvTwoBotLayers (lt : val -> val -> bool) (len_Canv : nat)
    (Points : list point) (FCC111LayerSpacing : val) : option (list nat) :=
  layers_below lt len_Canv Points (mul (VFloat "1.5") FCC111LayerSpacing).

Definition CanvTwoBotLayers_bf (lt : val -> val -> bool) (len_Canv : nat)
    (Points : list point) (FCC111LayerSpacing : val) : option (list nat) :=
  layers_below lt len_Canv Points (mul FCC111LayerSpacing (VFloat "1.5")).

(** [CanvMinusTwoBotLayers =
       [i for i in range(len(Canv)) if i not in CanvTwoBotLayers]] *)
Definition CanvMinusTwoBotLayers (len_Canv : nat) (CanvTwoBotLayers : list nat) : list nat :=
  range_minus len_Canv CanvTwoBotLayers.

(** Nanowire:
    [NeighborsInside = [[j for j in canvas.NeighborhoodIndexes[i]
        if (j is not None
            and canvas.Points[j][0] ** 2 + canvas.Points[j][1] ** 2
                < p[0] ** 2 + p[1] ** 2 - DBL_TOL)]
       for i, p in enumerate(canvas.Points)]]
    A row or a point that does not exist is an [IndexError] ([None]). *)
Definition NeighborsInside (lt : val -> val -> bool) (Points : list point)
    (Nbrs : list (list (option nat))) : option (list (list nat)) :=
  all_some
    (map (fun ip =>
            match nth_error Nbrs (fst ip) with
            | None => None
            | Some row =>
                select (fun j => match nth_error Points j with
                                 | Some q => Some (lt (radial2 q) (sub (radial2 (snd ip)) DBL_TOL))
                                 | None => None
                                 end)
                       (somes row)
            end)
         (enumerate Points)).

(** Surface:
    [NeighborsBelow = [[j for j in Canv.NeighborhoodIndexes[i]
        if (j is not None and Canv.Points[j][2] < Canv.Points[i][2] - DBL_TOL)]
       for i in range(len(Canv))]] *)
Definition NeighborsBelow (lt : val -> val -> bool) (len_Canv : nat) (Points : list point)
    (Nbrs : list (list (option nat))) : option (list (list nat)) :=
  all_some
    (map (fun i =>
            match nth_error Nbrs i with
            | None => None
            | Some row =>
                select (fun j => match nth_error Points j, nth_error Points i with
                                 | Some q, Some p => Some (lt (pt2 q) (sub (pt2 p) DBL_TOL))
                                 | _, _ => None
                                 end)
                       (somes row)
            end)
         (range len_Canv)).

End Sites.

(** The message every bare guard prints. *)
Definition no_solver_msg : string :=
  "MaOpt can not find usable solver (CPLEX or NEOS-CPLEX)".

(** [target.rules.append(rule)] *)
Definition append_rule (target rule : val) : M unit :=
  call_ "list.append" [target@."rules"; rule] ;; ret tt.

(* ------------------------------------------------------------------ *)
(** ** Small pieces of Python the notebooks share *)
(* ------------------------------------------------------------------ *)

Definition ZeroDivisionError : exn := PyException "ZeroDivisionError".

Definition Atom (symbol : string) : M val := call_ "Atom" [VStr symbol].

(** [min(l)]: a [ValueError] on the empty list. *)
Definition py_min (l : list nat) : M nat :=
  match l with
  | [] => raise ValueError
  | x :: r => ret (fold_left Nat.min r x)
  end.

(** [1 / n] for an integer [n]. *)
Definition one_over (n : nat) : M val :=
  if Nat.eqb n 0 then raise ZeroDivisionError else ret (div (VInt 1) (VNat n)).

(** [a, b = v] *)
Definition unpack2 (v : val) : M (val * val) :=
  match as_list v with
  | Some [a; b] => ret (a, b)
  | Some _ => raise ValueError
  | None => raise TypeError
  end.

(** [o.seq[i]]: the sequence is read where the expression is evaluated. *)
Definition index_of (ref : val) (i : nat) : M val :=
  l <- read_list ref ;; of_option IndexError (nth_error l i).

(** [l[i] = x] on a Python list. *)
Fixpoint list_set {A} (l : list A) (i : nat) (x : A) : option (list A) :=
  match l, i with
  | [], _ => None
  | _ :: r, O => Some (x :: r)
  | y :: r, S i' => match list_set r i' x with Some r' => Some (y :: r') | None => None end
  end.

(** The common solve cell:
    [D = None; try: D = m.maximize(func, **options)
     except: print("MaOpt can not find usable solver (CPLEX or NEOS-CPLEX)")] *)
Definition guarded_maximize (m func : val) (options : list (string * val)) : M val :=
  let D := VNone in
  bare (call_kw "MatOptModel.maximize" [m; func] options)
       (fun _ => print [VStr no_solver_msg] ;; ret D).

(* ================================================================== *)
(** * Nanowire design (src/unnamed/part_000) *)
(* ================================================================== *)

Module Nanowire.

Definition IAD : val := VFloat "3.7265".
Definition orientation : val := VStr "0001".
Definition nAtomRadius : Z := 6.
Definition nAtomUnitLength : Z := 2.
Definition coreRatio : val := VFloat "0.2".
Definition size : Z := 216.

Definition cell_imports : M unit :=
  import_ "numpy" ;;
  import_ "copy" ;;
  import_ "idaes.apps.matopt".

Definition cell_lattice : M val :=
  call_ "WurtziteLattice.alignedWith" [IAD; orientation].

(** Returns [(radius, shape, tiling)]. *)
Definition cell_shape (lattice : val) : M (val * val * val) :=
  let origin := np_zeros 3 in
  let axisDirection := VList [VFloat "0.0"; VFloat "0.0"; VFloat "1.0"] in
  s <- call_ "WurtziteLattice.getShellSpacing" [lattice; orientation] ;;
  let radius := mul s (VInt (nAtomRadius - 1)) in
  l <- call_ "WurtziteLattice.getLayerSpacing" [lattice; orientation] ;;
  u <- call_ "WurtziteLattice.getUniqueLayerCount" [lattice; orientation] ;;
  let height := mul (mul l u) (VInt nAtomUnitLength) in
  shape <- call_ "Cylinder" [origin; radius; height; axisDirection] ;;
  call_ "Cylinder.shift" [shape; mul (VFloat "-0.001") shape@."Vh"] ;;
  tiling <- call_ "LinearTiling.fromCylindricalShape" [shape] ;;
  ret (radius, shape, tiling).

Definition cell_canvas (lattice shape tiling : val) : M val :=
  canvas <- call_ "Canvas.fromLatticeAndShape" [lattice; shape] ;;
  call_ "Canvas.makePeriodic" [canvas; tiling; lattice@."getNeighbors"] ;;
  ret canvas.

Definition cell_design (lattice canvas : val) : M unit :=
  design <- call_ "Design" [canvas] ;;
  a_In <- call_ "Atom" [VStr "In"] ;;
  a_As <- call_ "Atom" [VStr "As"] ;;
  call_ "WurtziteLattice.setDesign" [lattice; design; a_In; a_As] ;;
  call_ "Design.toPDB" [design; VStr "canvas.pdb"] ;;
  ret tt.

Definition cell_model (canvas : val) : M val :=
  a <- call_ "Atom" [VStr ""] ;;
  call_ "MatOptModel" [canvas; VList [a]].

(** Returns [CoreLayers]. *)
Definition cell_core (canvas radius m : val) : M (list nat) :=
  lt <- float_lt ;;
  Points <- read_points canvas@."Points" ;;
  let CoreLayers := Sites.CoreLayers lt Points coreRatio radius in
  r <- call_kw "FixedTo" [VInt 1] [("sites", VNats CoreLayers)] ;;
  append_rule m@."Yi" r ;;
  ret CoreLayers.

Definition cell_neighbors (canvas m : val) (CoreLayers : list nat) : M unit :=
  lt <- float_lt ;;
  Points <- read_points canvas@."Points" ;;
  let CanvasMinusCoreLayers := Sites.CanvasMinusCoreLayers Points CoreLayers in
  Nbrs <- read_neighbors canvas@."NeighborhoodIndexes" ;;
  NeighborsInside <- of_option IndexError (Sites.NeighborsInside lt Points Nbrs) ;;
  g <- call_ "GreaterThan" [VInt 1] ;;
  r <- call_kw "ImpliesNeighbors" []
         [("concs", VTuple [m@."Yi"; g]);
          ("sites", VNats CanvasMinusCoreLayers);
          ("neighborhoods", VList (map VNats NeighborsInside))] ;;
  append_rule m@."Yi" r.

Definition cell_Vi (m : val) : M unit :=
  let CNBounds := (0, 4)%nat in
  let p := VFloat "-0.22479870084561238" in
  let q := VFloat "-0.9092660150083058" in
  let alpha := VFloat "-0.3684513" in
  let BPs := seq (fst CNBounds) (snd CNBounds + 1 - fst CNBounds) in
  let Vals :=
    map (fun cn => sub (mul p (pow (VNat cn) (sub (VInt 1) alpha))) (mul q (VNat cn))) BPs in
  r <- call_kw "PiecewiseLinear" []
         [("values", VList Vals); ("breakpoints", VNats BPs);
          ("input_desc", m@."Ci"); ("con_type", VStr "UB")] ;;
  call_kw "MatOptModel.addSitesDescriptor" [m; VStr "Vi"]
    [("bounds", VTuple [VOp "min" [VList Vals]; VOp "max" [VList Vals]]); ("rules", r)] ;;
  ret tt.

Definition cell_Ecoh (m : val) : M unit :=
  s <- call_kw "SumSites" [] [("desc", m@."Vi"); ("coefs", div (VFloat "1.0") (VInt size))] ;;
  r <- call_ "EqualTo" [s] ;;
  call_kw "MatOptModel.addGlobalDescriptor" [m; VStr "Ecoh"] [("rules", r)] ;;
  ret tt.

Definition cell_Size (m : val) : M unit :=
  s <- call_kw "SumSites" [] [("desc", m@."Yi")] ;;
  r <- call_ "EqualTo" [s] ;;
  call_kw "MatOptModel.addGlobalDescriptor" [m; VStr "Size"]
    [("bounds", VTuple [VInt size; VInt size]); ("rules", r)] ;;
  ret tt.

(** Returns [optimalDesign]. *)
Definition cell_solve (m : val) : M val :=
  guarded_maximize m m@."Ecoh" [("tilim", VInt 360); ("solver", VStr "cplex")].

(** One of the two replication loops; [shift p k] is [p + (k+1)*shape.Vh]
    or [p - (k+1)*shape.Vh]. *)
Definition replicate (optimalDesign periodicDesign : val) (shift : val -> nat -> val) : M unit :=
  for_ (range 4) (fun k =>
    Points <- read_list optimalDesign@."Canvas"@."Points" ;;
    for_ (enumerate Points) (fun ip =>
      c <- read (item optimalDesign@."Contents" (VNat (fst ip))) ;;
      call_ "Design.add" [periodicDesign; shift (snd ip) k; c] ;;
      ret tt)).

Definition cell_process (lattice shape optimalDesign : val) : M unit :=
  if negb (is_None optimalDesign) then
    Points <- read_list optimalDesign@."Canvas"@."Points" ;;
    for_ (enumerate Points) (fun ip =>
      c <- read (item optimalDesign@."Contents" (VNat (fst ip))) ;;
      if negb (is_None c) then
        isA <- call_ "WurtziteLattice.isASite" [lattice; snd ip] ;;
        a <- truth isA ;;
        if a then
          atom <- call_ "Atom" [VStr "In"] ;;
          call_ "Design.setContent" [optimalDesign; VNat (fst ip); atom] ;;
          ret tt
        else
          isB <- call_ "WurtziteLattice.isBSite" [lattice; snd ip] ;;
          b <- truth isB ;;
          if b then
            atom <- call_ "Atom" [VStr "As"] ;;
            call_ "Design.setContent" [optimalDesign; VNat (fst ip); atom] ;;
            ret tt
          else ret tt
      else ret tt) ;;
    call_ "Design.toPDB" [optimalDesign; VStr "result.pdb"] ;;
    periodicDesign <- call_ "deepcopy" [optimalDesign] ;;
    replicate optimalDesign periodicDesign
      (fun p k => add p (mul (VNat (k + 1)) shape@."Vh")) ;;
    replicate optimalDesign periodicDesign
      (fun p k => sub p (mul (VNat (k + 1)) shape@."Vh")) ;;
    call_ "Design.toPDB" [periodicDesign; VStr "periodic_result.pdb"] ;;
    ret tt
  else ret tt.

Definition notebook : M unit :=
  cell_imports ;;
  lattice <- cell_lattice ;;
  rst <- cell_shape lattice ;;
  let radius := fst (fst rst) in
  let shape := snd (fst rst) in
  let tiling := snd rst in
  canvas <- cell_canvas lattice shape tiling ;;
  cell_design lattice canvas ;;
  m <- cell_model canvas ;;
  CoreLayers <- cell_core canvas radius m ;;
  cell_neighbors canvas m CoreLayers ;;
  cell_Vi m ;;
  cell_Ecoh m ;;
  cell_Size m ;;
  optimalDesign <- cell_solve m ;;
  cell_process lattice shape optimalDesign.

End Nanowire.

(* ================================================================== *)
(** * Perovskite design (metal_oxide_bulk_design_src.ipynb) *)
(* ================================================================== *)

Module Perovskite.

Definition A : val := VFloat "4.0".
Definition B : val := VFloat "4.0".
Definition C : val := VFloat "4.0".
Definition nUnitCellsOnEdge : val := VInt 2.
Definition iDesiredConfs : list nat :=
  [394; 395; 396; 397; 398; 399; 400; 401; 68; 69; 70; 71;
   162; 163; 164; 165; 166; 167; 168; 169]%nat.

Definition cell_imports : M unit :=
  import_ "numpy" ;;
  import_ "idaes.apps.matopt".

Definition cell_lattice : M val :=
  call_ "PerovskiteLattice" [A; B; C].

(** Returns [(S, T)]. *)
Definition cell_shape : M (val * val) :=
  S <- call_ "RectPrism"
         [mul nUnitCellsOnEdge A; mul nUnitCellsOnEdge B; mul nUnitCellsOnEdge C] ;;
  call_ "RectPrism.shift" [S; VList [VFloat "-0.01"; VFloat "-0.01"; VFloat "-0.01"]] ;;
  T <- call_ "CubicTiling" [S] ;;
  ret (S, T).

(** Returns [(Canv, Atoms)]. *)
Definition cell_canvas (Lat T : val) : M (val * val) :=
  Canv <- call_ "Canvas.fromLatticeAndTilingScan" [Lat; T] ;;
  Ba <- Atom "Ba" ;; Fe <- Atom "Fe" ;; In_ <- Atom "In" ;; O <- Atom "O" ;;
  ret (Canv, VList [Ba; Fe; In_; O]).

(** Returns [Confs]. *)
Definition cell_confs : M val :=
  import_ "tempfile" ;;
  import_ "zipfile" ;;
  ConfDesigns <-
    with_ (call_ "TemporaryDirectory" []) (fun ConfDir =>
      z <- call_ "ZipFile" [VStr "./confs.zip"] ;;
      call_ "ZipFile.extractall" [z; ConfDir] ;;
      call_kw "loadFromPDBs"
        [VList (map (fun i => VStr (str_nat i ++ ".pdb")) iDesiredConfs)]
        [("folder", add ConfDir (VStr "/confs/"))]) ;;
  designs <- of_option TypeError (as_list ConfDesigns) ;;
  Confs <- map_m (fun Conf => read Conf@."Contents") designs ;;
  ret (VList Confs).

(** [[i for i in Sites if Lat.<test>(Canv.Points[i])]] *)
Definition sites_where (test : string) (Lat Canv : val) (Sites : list nat) : M (list nat) :=
  filter_m (fun i =>
    p <- index_of Canv@."Points" i ;;
    r <- call_ test [Lat; p] ;;
    truth r) Sites.

Record site_data : Type := SiteData {
  ASites : list nat;
  BSites : list nat;
  OSites : list nat;
  LocalBounds : val;
  GlobalLB : val;
  GlobalUB : val
}.

Definition cell_sites (Lat Canv : val) : M site_data :=
  n <- read_len Canv ;;
  let Sites := range n in
  ASites <- sites_where "PerovskiteLattice.isASite" Lat Canv Sites ;;
  BSites <- sites_where "PerovskiteLattice.isBSite" Lat Canv Sites ;;
  OSites <- sites_where "PerovskiteLattice.isOSite" Lat Canv Sites ;;
  let pctLocalLB := 0%Z in
  let pctLocalUB := 1%Z in
  let pctGlobalLB := VFloat "0.0" in
  let pctGlobalUB := VFloat "0.3" in
  LocalBounds <-
    map_m (fun i =>
      atom <- Atom "In" ;;
      row <- index_of Canv@."NeighborhoodIndexes" i ;;
      nbrs <- of_option TypeError (as_list row) ;;
      let len := Z.of_nat (List.length nbrs) in
      ret (VTuple [VNat i; atom],
           VTuple [VInt (pctLocalLB * len); VInt (pctLocalUB * len)])) OSites ;;
  ret (SiteData ASites BSites OSites (VDict LocalBounds)
         (VOp "round" [mul pctGlobalLB (VNat (List.length BSites))])
         (VOp "round" [mul pctGlobalUB (VNat (List.length BSites))])).

Definition cell_model (Canv Atoms Confs : val) : M val :=
  call_ "MatOptModel" [Canv; Atoms; Confs].

Definition cell_rules (m : val) (d : site_data) : M unit :=
  Ba <- Atom "Ba" ;;
  r <- call_kw "FixedTo" [VInt 1] [("sites", VNats (ASites d)); ("site_types", VList [Ba])] ;;
  append_rule m@."Yik" r ;;
  O <- Atom "O" ;;
  r <- call_kw "FixedTo" [VInt 1] [("sites", VNats (OSites d)); ("site_types", VList [O])] ;;
  append_rule m@."Yik" r ;;
  Ba <- Atom "Ba" ;;
  O <- Atom "O" ;;
  r <- call_kw "FixedTo" [VInt 0] [("sites", VNats (BSites d)); ("site_types", VList [Ba; O])] ;;
  append_rule m@."Yik" r ;;
  r <- call_kw "FixedTo" [VInt 1] [("sites", VNats (BSites d))] ;;
  append_rule m@."Yi" r.

Definition cell_descriptors (m : val) (d : site_data) : M unit :=
  coefs <- one_over (List.length (OSites d)) ;;
  s <- call_kw "SumSitesAndConfs" [m@."Zic"]
         [("coefs", coefs); ("sites_to_sum", VNats (OSites d))] ;;
  r <- call_ "EqualTo" [s] ;;
  call_kw "MatOptModel.addGlobalDescriptor" [m; VStr "Activity"] [("rules", r)] ;;
  In_ <- Atom "In" ;;
  s <- call_kw "SumSites" [m@."Yik"]
         [("site_types", VList [In_]); ("sites_to_sum", VNats (BSites d))] ;;
  r <- call_ "EqualTo" [s] ;;
  call_kw "MatOptModel.addGlobalTypesDescriptor" [m; VStr "GlobalIndiumConc"]
    [("bounds", VTuple [GlobalLB d; GlobalUB d]); ("rules", r)] ;;
  In_ <- Atom "In" ;;
  s <- call_kw "SumNeighborSites" [m@."Yik"]
         [("sites", VNats (OSites d)); ("site_types", VList [In_])] ;;
  r <- call_ "EqualTo" [s] ;;
  call_kw "MatOptModel.addSitesTypesDescriptor" [m; VStr "LocalIndiumConc"]
    [("bounds", LocalBounds d); ("rules", r)] ;;
  ret tt.

(** Returns [D]. *)
Definition cell_solve (m : val) : M val :=
  guarded_maximize m m@."Activity" [("tilim", VInt 360)].

Definition cell_process (m S D : val) : M unit :=
  if negb (is_None D) then
    ks <- call_ "MaterialDescriptor.keys" [m@."Zic"] ;;
    keys <- of_option TypeError (as_list ks) ;;
    for_ keys (fun key =>
      ic <- unpack2 key ;;
      lt <- float_lt ;;
      z <- read (item m@."Zic"@."values" (VTuple [fst ic; snd ic])) ;;
      if lt (VFloat "0.5") z then
        atom <- Atom "S" ;;
        call_ "Design.setContent" [D; fst ic; atom] ;;
        ret tt
      else ret tt) ;;
    call_kw "Design.toCFG" [D; VStr "result.cfg"] [("BBox", S)] ;;
    ret tt
  else ret tt.

Definition notebook : M unit :=
  cell_imports ;;
  Lat <- cell_lattice ;;
  ST <- cell_shape ;;
  CA <- cell_canvas Lat (snd ST) ;;
  Confs <- cell_confs ;;
  d <- cell_sites Lat (fst CA) ;;
  m <- cell_model (fst CA) (snd CA) Confs ;;
  cell_rules m d ;;
  cell_descriptors m d ;;
  D <- cell_solve m ;;
  cell_process m (fst ST) D.

End Perovskite.

(* ================================================================== *)
(** * Monometallic nanocluster design *)
(* ================================================================== *)

(** [Vals = [sqrt(CN) for CN in range(0, 13)]],
    [BPs = [CN for CN in range(0, 13)]] and the three descriptors both
    nanocluster notebooks add. *)
Definition cluster_descriptors (m : val) (N : Z) : M unit :=
  let Vals := map (fun CN => sqrt (VNat CN)) (seq 0 13) in
  let BPs := seq 0 13 in
  r <- call_kw "PiecewiseLinear" []
         [("values", VList Vals); ("breakpoints", VNats BPs); ("input_desc", m@."Ci")] ;;
  call_kw "MatOptModel.addSitesDescriptor" [m; VStr "CNRi"]
    [("bounds", VTuple [VInt 0; sqrt (VInt 12)]); ("integer", VBool false); ("rules", r)] ;;
  s <- call_kw "SumSites" []
         [("desc", m@."CNRi"); ("coefs", div (VInt 1) (mul (VInt N) (sqrt (VInt 12))))] ;;
  r <- call_ "EqualTo" [s] ;;
  call_kw "MatOptModel.addGlobalDescriptor" [m; VStr "Ecoh"] [("rules", r)] ;;
  s <- call_kw "SumSites" [] [("desc", m@."Yi")] ;;
  r <- call_ "EqualTo" [s] ;;
  call_kw "MatOptModel.addGlobalDescriptor" [m; VStr "Size"]
    [("bounds", VTuple [VInt N; VInt N]); ("rules", r)] ;;
  ret tt.

Module Monometallic.

Definition N : Z := 22.

Definition cell_imports : M unit :=
  import_ "numpy" ;;
  import_ "math" ;;
  import_ "idaes.apps.matopt".

Definition cell_lattice : M val :=
  call_kw "FCCLattice" [] [("IAD", VFloat "2.770")].

Definition cell_canvas (Lat : val) : M val :=
  Canv <- call_ "Canvas" [] ;;
  call_ "Canvas.addLocation" [Canv; np_zeros 3] ;;
  call_ "Canvas.addShells" [Canv; VInt 2; Lat@."getNeighbors"] ;;
  ret Canv.

(** Returns [Atoms]. *)
Definition cell_design (Canv : val) : M val :=
  Pt <- Atom "Pt" ;;
  let Atoms := VList [Pt] in
  Pt' <- Atom "Pt" ;;
  D <- call_ "Design" [Canv; Pt'] ;;
  call_ "Design.toPDB" [D; VStr "canvas_sites.pdb"] ;;
  ret Atoms.

Definition cell_model (Canv Atoms : val) : M val :=
  call_ "MatOptModel" [Canv; Atoms].

Definition cell_help : M unit :=
  call_ "help" [(VStr "MatOptModel")@."maximize"] ;;
  call_ "help" [(VStr "MatOptModel")@."optimize"] ;;
  ret tt.

(** Returns [D]. *)
Definition cell_solve (m : val) : M val :=
  guarded_maximize m m@."Ecoh" [("tilim", VInt 100)].

Definition cell_process (D : val) : M unit :=
  if negb (is_None D) then
    call_ "Design.toPDB" [D; VStr "result.pdb"] ;; ret tt
  else ret tt.

Definition notebook : M unit :=
  cell_imports ;;
  Lat <- cell_lattice ;;
  Canv <- cell_canvas Lat ;;
  Atoms <- cell_design Canv ;;
  m <- cell_model Canv Atoms ;;
  cluster_descriptors m N ;;
  cell_help ;;
  D <- cell_solve m ;;
  cell_process D.

End Monometallic.

(* ================================================================== *)
(** * Monometallic surface design *)
(* ================================================================== *)

(** The slab both surface notebooks build; returns [(S, T)]. *)
Definition surface_shape (Lat IAD : val) (nUnitCellsOnEdge nLayers : Z) : M (val * val) :=
  let a := mul (VInt nUnitCellsOnEdge) IAD in
  let b := a in
  spacing <- read Lat@."FCC111LayerSpacing" ;;
  let c := mul (VInt nLayers) spacing in
  let alpha := div np_pi (VInt 2) in
  let beta := div np_pi (VInt 2) in
  let gamma := div np_pi (VInt 3) in
  S <- call_ "Parallelepiped.fromEdgesAndAngles" [a; b; c; alpha; beta; gamma] ;;
  call_ "Parallelepiped.shift"
    [S; VList [mul (VFloat "-0.01") a; mul (VFloat "-0.01") b; mul (VFloat "-0.01") c]] ;;
  T <- call_ "PlanarTiling" [S] ;;
  ret (S, T).

Definition EiVals : list val :=
  [VInt 0;
   add (mul (VFloat "-0.04293") (VInt 3)) (VFloat "0.41492");
   add (mul (VFloat "-0.04293") (VInt 10)) (VFloat "0.41492");
   sub (mul (VFloat "0.05179") (VInt 11)) (VFloat "0.62148");
   VInt 0].
Definition EiBPs : list nat := [0; 3; 10; 11; 12]%nat.
Definition UndefectedSurfE : val := VFloat "0.129758".
Definition maxSurfE : val := VInt 999.
Definition CatWeight : val := VFloat "1.0".

(** The [Stability] and [ActAndStab] descriptors of both surface notebooks. *)
Definition stability_descriptors (m : val) : M unit :=
  l <- call_ "LinearExpr" [m@."Esurf"; div (VInt 1) UndefectedSurfE] ;;
  r <- call_ "EqualTo" [l] ;;
  call_kw "MatOptModel.addGlobalDescriptor" [m; VStr "Stability"] [("rules", r)] ;;
  l <- call_kw "LinearExpr" []
         [("descs", VList [m@."Stability"; m@."Activity"]);
          ("coefs", VList [neg (sub (VInt 1) CatWeight); CatWeight])] ;;
  r <- call_ "EqualTo" [l] ;;
  call_kw "MatOptModel.addGlobalDescriptor" [m; VStr "ActAndStab"] [("rules", r)] ;;
  ret tt.

(** [PeriodicD = T.replicateDesign(D, 4); PeriodicS = deepcopy(S);
     PeriodicS.scale(np.array([4, 4, 1]));
     PeriodicD.toCFG("periodic_result.cfg", BBox=PeriodicS)] *)
Definition write_periodic (S T D : val) : M unit :=
  PeriodicD <- call_ "PlanarTiling.replicateDesign" [T; D; VInt 4] ;;
  PeriodicS <- call_ "deepcopy" [S] ;;
  call_ "Parallelepiped.scale" [PeriodicS; VList [VInt 4; VInt 4; VInt 1]] ;;
  call_kw "Design.toCFG" [PeriodicD; VStr "periodic_result.cfg"] [("BBox", PeriodicS)] ;;
  ret tt.

Module Surface.

Definition IAD : val := VFloat "2.828427".
Definition nUnitCellsOnEdge : Z := 4.
Definition nLayers : Z := 6.
Definition TargetGCN : val := VFloat "8.0".
Definition TileSizeSquared : Z := nUnitCellsOnEdge ^ 2.

Definition cell_imports : M unit :=
  import_ "numpy" ;;
  import_ "copy" ;;
  import_ "idaes.apps.matopt".

Definition cell_lattice : M val :=
  call_ "FCCLattice.alignedWith111" [IAD].

Definition cell_canvas (Lat T : val) : M val :=
  call_ "Canvas.fromLatticeAndTilingScan" [Lat; T].

Definition cell_design (Canv S : val) : M unit :=
  Pt <- Atom "Pt" ;;
  D <- call_ "Design" [Canv; Pt] ;;
  call_ "Design.toPDB" [D; VStr "undefected.pdb"] ;;
  call_kw "Design.toCFG" [D; VStr "undefected.cfg"] [("GS", VFloat "1.0"); ("BBox", S)] ;;
  ret tt.

Definition cell_model (Canv : val) : M val :=
  Pt <- Atom "Pt" ;;
  let Atoms := VList [Pt] in
  call_ "MatOptModel" [Canv; Atoms].

(** Returns [CanvMinusTwoBotLayers]. *)
Definition cell_fix (Lat Canv m : val) : M (list nat) :=
  lt <- float_lt ;;
  len_Canv <- read_len Canv ;;
  Points <- read_points Canv@."Points" ;;
  spacing <- read Lat@."FCC111LayerSpacing" ;;
  CanvTwoBotLayers <- of_option IndexError (Sites.CanvTwoBotLayers lt len_Canv Points spacing) ;;
  let CanvMinusTwoBotLayers := Sites.CanvMinusTwoBotLayers len_Canv CanvTwoBotLayers in
  top <- of_option IndexError
           (Sites.layers_above lt len_Canv Points
              (mul (sub (VInt nLayers) (VFloat "1.5")) spacing)) ;;
  least <- py_min top ;;
  let OneSiteInTopLayer := [least] in
  r <- call_kw "FixedTo" [VInt 1] [("sites", VNats OneSiteInTopLayer)] ;;
  append_rule m@."Yi" r ;;
  r <- call_kw "FixedTo" [VInt 1] [("sites", VNats CanvTwoBotLayers)] ;;
  append_rule m@."Yi" r ;;
  ret CanvMinusTwoBotLayers.

Definition cell_neighbors (Canv m : val) (CanvMinusTwoBotLayers : list nat) : M unit :=
  lt <- float_lt ;;
  len_Canv <- read_len Canv ;;
  Points <- read_points Canv@."Points" ;;
  Nbrs <- read_neighbors Canv@."NeighborhoodIndexes" ;;
  NeighborsBelow <- of_option IndexError (Sites.NeighborsBelow lt len_Canv Points Nbrs) ;;
  g <- call_ "GreaterThan" [VInt 1] ;;
  r <- call_kw "ImpliesNeighbors" []
         [("concs", VTuple [m@."Yi"; g]);
          ("sites", VNats CanvMinusTwoBotLayers);
          ("neighborhoods", VList (map VNats NeighborsBelow))] ;;
  append_rule m@."Yi" r.

Definition cell_activity (m : val) (CanvMinusTwoBotLayers : list nat) : M unit :=
  s <- call_kw "SumNeighborSites" [] [("desc", m@."Ci"); ("coefs", div (VInt 1) (VInt 12))] ;;
  r <- call_ "EqualTo" [s] ;;
  call_kw "MatOptModel.addSitesDescriptor" [m; VStr "GCNi"]
    [("bounds", VTuple [VInt 0; VInt 12]); ("integer", VBool false); ("rules", r);
     ("sites", VNats CanvMinusTwoBotLayers)] ;;
  g <- call_ "GreaterThan" [VInt 3] ;;
  i1 <- call_kw "Implies" [] [("concs", VTuple [m@."Ci"; g])] ;;
  l <- call_ "LessThan" [VInt 9] ;;
  i2 <- call_kw "Implies" [] [("concs", VTuple [m@."Ci"; l])] ;;
  e <- call_ "EqualTo" [TargetGCN] ;;
  i3 <- call_kw "Implies" [] [("concs", VTuple [m@."GCNi"; e])] ;;
  call_kw "MatOptModel.addSitesDescriptor" [m; VStr "IdealSitei"]
    [("binary", VBool true); ("rules", VList [i1; i2; i3]);
     ("sites", VNats CanvMinusTwoBotLayers)] ;;
  s <- call_kw "SumSites" [m@."IdealSitei"] [("coefs", div (VInt 1) (VInt TileSizeSquared))] ;;
  r <- call_ "EqualTo" [s] ;;
  call_kw "MatOptModel.addGlobalDescriptor" [m; VStr "Activity"]
    [("bounds", VTuple [VInt 0; VInt 1]); ("rules", r)] ;;
  ret tt.

Definition cell_energy (m : val) (CanvMinusTwoBotLayers : list nat) : M unit :=
  p <- call_kw "PiecewiseLinear" []
         [("values", VList EiVals); ("breakpoints", VNats EiBPs); ("input_desc", m@."Ci")] ;;
  call_kw "MatOptModel.addSitesDescriptor" [m; VStr "Ei"]
    [("rules", p); ("sites", VNats CanvMinusTwoBotLayers)] ;;
  s <- call_kw "SumSites" [m@."Ei"]
         [("coefs", div (VInt 1) (VInt TileSizeSquared)); ("offset", VFloat "0.101208")] ;;
  r <- call_ "EqualTo" [s] ;;
  call_kw "MatOptModel.addGlobalDescriptor" [m; VStr "Esurf"]
    [("bounds", VTuple [VNone; maxSurfE]); ("rules", r)] ;;
  stability_descriptors m.

(** Returns [D]. *)
Definition cell_solve (m : val) : M val :=
  guarded_maximize m m@."ActAndStab" [("tilim", VInt 360)].

Definition cell_process (m S T D : val) : M unit :=
  if negb (is_None D) then
    ks <- call_ "MaterialDescriptor.keys" [m@."IdealSitei"] ;;
    keys <- of_option TypeError (as_list ks) ;;
    for_ keys (fun i =>
      lt <- float_lt ;;
      y <- read (item m@."IdealSitei"@."values" i) ;;
      if lt (VFloat "0.5") y then
        atom <- Atom "S" ;;
        call_ "Design.setContent" [D; i; atom] ;;
        ret tt
      else ret tt) ;;
    call_ "Design.toPDB" [D; VStr "result.pdb"] ;;
    write_periodic S T D
  else ret tt.

Definition notebook : M unit :=
  cell_imports ;;
  Lat <- cell_lattice ;;
  ST <- surface_shape Lat IAD nUnitCellsOnEdge nLayers ;;
  Canv <- cell_canvas Lat (snd ST) ;;
  cell_design Canv (fst ST) ;;
  m <- cell_model Canv ;;
  CanvMinusTwoBotLayers <- cell_fix Lat Canv m ;;
  cell_neighbors Canv m CanvMinusTwoBotLayers ;;
  cell_activity m CanvMinusTwoBotLayers ;;
  cell_energy m CanvMinusTwoBotLayers ;;
  D <- cell_solve m ;;
  cell_process m (fst ST) (snd ST) D.

End Surface.

(* ================================================================== *)
(** * Bifunctional surface design *)
(* ================================================================== *)

Module Bifunctional.

Definition IAD : val := VFloat "2.828".
Definition nUnitCellsOnEdge : Z := 8.
Definition nLayers : Z := 4.
Definition TileSizeSquared : Z := nUnitCellsOnEdge ^ 2.
Definition CatNorm : val := mul (VInt TileSizeSquared) (VFloat "6.0").
Definition TypeAConfs : list nat := [0]%nat.
Definition TypeBConfs : list nat := [1; 2; 3; 4; 5; 6]%nat.
Definition iToSetNi : list (list nat) :=
  [[3; 4; 5; 6; 7; 8]; [3; 4; 5; 6]; [4; 5; 6; 7]; [5; 6; 7; 8];
   [6; 7; 8; 3]; [7; 8; 3; 4]; [8; 3; 4; 5]]%nat.
Definition iToSetPt : list (list nat) :=
  [[9; 10; 11]; [9; 10; 11]; [9; 10; 11]; [9; 10; 11];
   [9; 10; 11]; [9; 10; 11]; [9; 10; 11]]%nat.

Definition cell_imports : M unit :=
  import_ "copy" ;;
  import_ "numpy" ;;
  import_ "idaes.apps.matopt".

Definition cell_lattice : M val :=
  call_ "FCCLattice.alignedWith111" [IAD].

Definition cell_canvas (Lat T : val) : M val :=
  call_ "Canvas.fromLatticeAndTilingScan" [Lat; T].

Definition cell_design (Canv S : val) : M unit :=
  Pt <- Atom "Pt" ;;
  D <- call_ "Design" [Canv; Pt] ;;
  call_ "Design.toPDB" [D; VStr "canvas.pdb"] ;;
  call_kw "Design.toCFG" [D; VStr "canvas.cfg"] [("BBox", S)] ;;
  ret tt.

(** [for i in indices: Conf[i] = Atom(symbol)] *)
Definition set_atoms (symbol : string) (indices : list nat) (Conf : list val) : M (list val) :=
  fold_m indices (fun i Conf =>
    atom <- Atom symbol ;;
    of_option IndexError (list_set Conf i atom)) Conf.

(** Returns [Confs]. *)
Definition cell_confs (Lat : val) : M (list (list val)) :=
  MotifCanvas <- call_ "Canvas" [] ;;
  call_kw "Canvas.addLocation" [MotifCanvas; np_zeros 3] [("NNeighbors", VInt 12)] ;;
  call_ "Canvas.addShell" [MotifCanvas; Lat@."getNeighbors"] ;;
  Confs <- map_m (fun _ : nat =>
             row <- index_of MotifCanvas@."NeighborhoodIndexes" 0 ;;
             nbrs <- of_option TypeError (as_list row) ;;
             ret (repeat VNone (List.length nbrs))) (range 7) ;;
  map_m (fun iC =>
    ni <- of_option IndexError (nth_error iToSetNi (fst iC)) ;;
    Conf <- set_atoms "Ni" ni (snd iC) ;;
    pt <- of_option IndexError (nth_error iToSetPt (fst iC)) ;;
    set_atoms "Pt" pt Conf) (enumerate Confs).

Record site_data : Type := SiteData {
  LocsToFixPt : list nat;
  LocsToExcludePt : list nat;
  CanvMinusTwoBotLayers : list nat;
  OneLocToFix : list nat;
  Atoms : val
}.

Definition cell_sites (Lat Canv : val) : M site_data :=
  lt <- float_lt ;;
  len_Canv <- read_len Canv ;;
  Points <- read_points Canv@."Points" ;;
  spacing <- read Lat@."FCC111LayerSpacing" ;;
  LocsToFixPt <- of_option IndexError
                   (Sites.layers_below lt len_Canv Points (mul spacing (VFloat "2.5"))) ;;
  let LocsToExcludePt := Sites.range_minus len_Canv LocsToFixPt in
  CanvTwoBotLayers <- of_option IndexError
                        (Sites.CanvTwoBotLayers_bf lt len_Canv Points spacing) ;;
  let CanvMinusTwoBotLayers := Sites.CanvMinusTwoBotLayers len_Canv CanvTwoBotLayers in
  least <- py_min LocsToExcludePt ;;
  let OneLocToFix := [least] in
  Ni <- Atom "Ni" ;;
  Pt <- Atom "Pt" ;;
  ret (SiteData LocsToFixPt LocsToExcludePt CanvMinusTwoBotLayers OneLocToFix (VList [Ni; Pt])).

Definition cell_model (Canv : val) (d : site_data) (Confs : list (list val)) : M val :=
  call_ "MatOptModel" [Canv; Atoms d; VList (map VList Confs)].

Definition cell_rules (m : val) (d : site_data) : M unit :=
  Pt <- Atom "Pt" ;;
  r <- call_kw "FixedTo" [VInt 1]
         [("sites", VNats (LocsToFixPt d)); ("site_types", VList [Pt])] ;;
  append_rule m@."Yik" r ;;
  Pt <- Atom "Pt" ;;
  r <- call_kw "FixedTo" [VInt 0]
         [("sites", VNats (LocsToExcludePt d)); ("site_types", VList [Pt])] ;;
  append_rule m@."Yik" r.

Definition cell_combinations (Canv m : val) (d : site_data) : M unit :=
  r <- call_kw "FixedTo" [VInt 1]
         [("sites", VNats (OneLocToFix d)); ("confs", VNats TypeAConfs)] ;;
  append_rule m@."Zic" r ;;
  Ni <- Atom "Ni" ;;
  e <- call_kw "EqualTo" [VInt 1] [("site_types", VList [Ni])] ;;
  r <- call_kw "Implies" [] [("concs", VTuple [m@."Yik"; e])] ;;
  append_rule m@."Zic" r ;;
  SumAConfsExpr <- call_kw "SumConfs" [m@."Zic"] [("confs_to_sum", VNats TypeAConfs)] ;;
  SumBConfsExpr <- call_kw "SumConfs" [m@."Zic"] [("confs_to_sum", VNats TypeBConfs)] ;;
  ga <- call_ "GreaterThan" [VInt 1] ;;
  gb <- call_ "GreaterThan" [VInt 1] ;;
  r <- call_ "ImpliesSiteCombination"
         [Canv; VTuple [SumAConfsExpr; ga]; VTuple [SumBConfsExpr; gb]] ;;
  call_kw "MatOptModel.addBondsDescriptor" [m; VStr "SiteCombinations"]
    [("binary", VBool true); ("rules", r)] ;;
  ret tt.

Definition cell_energy (m : val) (d : site_data) : M unit :=
  s <- call_kw "SumBonds" [m@."SiteCombinations"] [("coefs", div (VInt 1) CatNorm)] ;;
  r <- call_ "EqualTo" [s] ;;
  call_kw "MatOptModel.addGlobalDescriptor" [m; VStr "Activity"] [("rules", r)] ;;
  p <- call_kw "PiecewiseLinear" []
         [("values", VList EiVals); ("breakpoints", VNats EiBPs); ("input_desc", m@."Ci")] ;;
  call_kw "MatOptModel.addSitesDescriptor" [m; VStr "Ei"]
    [("rules", p); ("sites", VNats (CanvMinusTwoBotLayers d))] ;;
  s <- call_kw "SumSites" [m@."Ei"]
         [("coefs", div (VInt 1) (VInt TileSizeSquared)); ("offset", VFloat "0.101208")] ;;
  r <- call_ "EqualTo" [s] ;;
  call_kw "MatOptModel.addGlobalDescriptor" [m; VStr "Esurf"] [("rules", r)] ;;
  stability_descriptors m.

(** Returns [D]. *)
Definition cell_solve (m : val) : M val :=
  guarded_maximize m m@."ActAndStab" [("tilim", VInt 360)].

Definition cell_process (S T D : val) : M unit :=
  if negb (is_None D) then
    call_kw "Design.toCFG" [D; VStr "result.cfg"] [("BBox", S)] ;;
    write_periodic S T D
  else ret tt.

Definition notebook : M unit :=
  cell_imports ;;
  Lat <- cell_lattice ;;
  ST <- surface_shape Lat IAD nUnitCellsOnEdge nLayers ;;
  Canv <- cell_canvas Lat (snd ST) ;;
  cell_design Canv (fst ST) ;;
  Confs <- cell_confs Lat ;;
  d <- cell_sites Lat Canv ;;
  m <- cell_model Canv d Confs ;;
  cell_rules m d ;;
  cell_combinations Canv m d ;;
  cell_energy m d ;;
  D <- cell_solve m ;;
  cell_process (fst ST) (snd ST) D.

End Bifunctional.

(* ================================================================== *)
(** * Bimetallic nanocluster design *)
(* ================================================================== *)

Module Bimetallic.

Definition N : Z := 6.

Definition cell_imports : M unit :=
  import_ "numpy" ;;
  import_ "math" ;;
  import_ "idaes.apps.matopt".

(** The monometallic model of the first step; returns [(Lat, m)]. *)
Definition cell_first_model : M (val * val) :=
  Lat <- call_kw "FCCLattice" [] [("IAD", VFloat "1.0")] ;;
  Canv <- call_ "Canvas" [] ;;
  call_ "Canvas.addLocation" [Canv; np_zeros 3] ;;
  call_ "Canvas.addShells" [Canv; VInt 1; Lat@."getNeighbors"] ;;
  Cu <- Atom "Cu" ;;
  let Atoms := VList [Cu] in
  m <- call_ "MatOptModel" [Canv; Atoms] ;;
  cluster_descriptors m N ;;
  ret (Lat, m).

(** [try: D = m.maximize(m.Ecoh, tilim=100)
     except Exception as err: D = None]; returns [D]. *)
Definition cell_first_solve (m : val) : M val :=
  except_Exception
    (call_kw "MatOptModel.maximize" [m; m@."Ecoh"] [("tilim", VInt 100)])
    (fun err => ret VNone).

(** Returns the new [Canv]. *)
Definition cell_new_canvas (Lat D : val) : M val :=
  Canv <- call_ "Canvas" [] ;;
  d <- truth D ;;
  (if d then
     len_D <- read_len D ;;
     for_ (range len_D) (fun i =>
       c <- index_of D@."Contents" i ;;
       if negb (is_None c) then
         p <- index_of D@."Canvas"@."Points" i ;;
         call_ "Canvas.addLocation" [Canv; p] ;;
         ret tt
       else ret tt)
   else ret tt) ;;
  call_ "Canvas.setNeighborsFromFunc" [Canv; Lat@."getNeighbors"] ;;
  ret Canv.

(** Returns [(Atoms, CompBounds, m)], [Atoms] as the list the loops below
    run over. *)
Definition cell_second_model (Canv : val) : M (list val * val * val) :=
  Cu <- Atom "Cu" ;;
  Ag <- Atom "Ag" ;;
  let Atoms := [Cu; Ag] in
  Cu' <- Atom "Cu" ;;
  Ag' <- Atom "Ag" ;;
  let CompBounds :=
    VDict [(Cu', VTuple [VInt 3; VInt 3]); (Ag', VTuple [VInt 3; VInt 3])] in
  m <- call_ "MatOptModel" [Canv; VList Atoms] ;;
  r <- call_ "FixedTo" [VFloat "1.0"] ;;
  append_rule m@."Yi" r ;;
  ret (Atoms, CompBounds, m).

Definition count_neighbors (row : list val) : nat :=
  List.length (filter (fun x => negb (is_None x)) row).

(** The row [Canv.NeighborhoodIndexes[i]]. *)
Definition neighborhood (Canv : val) (i : nat) : M (list val) :=
  row <- index_of Canv@."NeighborhoodIndexes" i ;;
  of_option TypeError (as_list row).

(** Returns [BEijCoefs]. *)
Definition cell_coefs (Canv : val) (Atoms : list val) : M val :=
  a1 <- Atom "Cu" ;; a2 <- Atom "Cu" ;;
  b1 <- Atom "Cu" ;; b2 <- Atom "Ag" ;;
  c1 <- Atom "Ag" ;; c2 <- Atom "Ag" ;;
  d1 <- Atom "Ag" ;; d2 <- Atom "Cu" ;;
  let GklCoefs :=
    VDict [(VTuple [a1; a2], VFloat "3.520"); (VTuple [b1; b2], VFloat "2.112");
           (VTuple [c1; c2], VFloat "2.580"); (VTuple [d1; d2], VFloat "3.612")] in
  len_Canv <- read_len Canv ;;
  BEijCoefs <-
    fold_m (range len_Canv) (fun i BEijCoefs =>
      row_i <- neighborhood Canv i ;;
      let CNi := count_neighbors row_i in
      fold_m row_i (fun j BEijCoefs =>
        if negb (is_None j) then
          j' <- of_option TypeError (as_nat j) ;;
          row_j <- neighborhood Canv j' ;;
          let CNj := count_neighbors row_j in
          fold_m Atoms (fun k BEijCoefs =>
            fold_m Atoms (fun l BEijCoefs =>
              if Nat.eqb CNi 0 || Nat.eqb CNj 0 then raise ZeroDivisionError
              else
                ret (BEijCoefs ++
                     [(VTuple [VNat i; j; k; l],
                       add (div (mul (item GklCoefs (VTuple [k; l])) (VInt 1)) (sqrt (VNat CNi)))
                           (div (mul (item GklCoefs (VTuple [l; k])) (VInt 1)) (sqrt (VNat CNj))))]))
              BEijCoefs) BEijCoefs
        else ret BEijCoefs) BEijCoefs) [] ;;
  ret (VDict BEijCoefs).

Definition cell_descriptors (m BEijCoefs CompBounds : val) : M unit :=
  s <- call_kw "SumBondTypes" [m@."Xijkl"] [("coefs", BEijCoefs)] ;;
  r <- call_ "EqualTo" [s] ;;
  call_kw "MatOptModel.addBondsDescriptor" [m; VStr "BEij"]
    [("rules", r); ("symmetric_bonds", VBool true)] ;;
  s <- call_kw "SumBonds" []
         [("desc", m@."BEij"); ("coefs", div (VInt 1) (mul (VInt N) (sqrt (VInt 12))))] ;;
  r <- call_ "EqualTo" [s] ;;
  call_kw "MatOptModel.addGlobalDescriptor" [m; VStr "Ecoh"] [("rules", r)] ;;
  s <- call_kw "SumSites" [] [("desc", m@."Yik")] ;;
  r <- call_ "EqualTo" [s] ;;
  call_kw "MatOptModel.addGlobalTypesDescriptor" [m; VStr "Composition"]
    [("bounds", CompBounds); ("rules", r)] ;;
  ret tt.

(** Returns [D]. *)
Definition cell_solve (m : val) : M val :=
  guarded_maximize m m@."Ecoh" [("tilim", VInt 360); ("trelim", VInt 4096)].

Definition cell_process (D : val) : M unit :=
  if negb (is_None D) then
    call_ "Design.toPDB" [D; VStr "result.pdb"] ;; ret tt
  else ret tt.

Definition notebook : M unit :=
  cell_imports ;;
  Lm <- cell_first_model ;;
  D <- cell_first_solve (snd Lm) ;;
  Canv <- cell_new_canvas (fst Lm) D ;;
  ACm <- cell_second_model Canv ;;
  let Atoms := fst (fst ACm) in
  let CompBounds := snd (fst ACm) in
  let m := snd ACm in
  BEijCoefs <- cell_coefs Canv Atoms ;;
  cell_descriptors m BEijCoefs CompBounds ;;
  D <- cell_solve m ;;
  cell_process D.

End Bimetallic.

(* ================================================================== *)
(** * RIPE: chemical looping combustion (clc_nb_src.ipynb) *)
(* ================================================================== *)

Module CLC.

Definition clc_mechs (mechs : val) : val :=
  VList (map (fun name => mechs@.name)
    ["randomnuc"; "powerlawp5"; "powerlaw2"; "powerlaw3"; "powerlaw4";
     "avrami2"; "avrami3"; "avrami4"; "avrami5"; "ptompkins"; "jander";
     "antijander"; "valensi"; "parabolic"; "gb3d"; "zlt"; "grain"]).

(** Returns [(t, xdata, stoich)]. *)
Definition cell_data : M (val * val * val) :=
  import_ "idaes.apps.ripe" ;;
  import_ "numpy" ;;
  import_ "idaes.apps.ripe.mechs" ;;
  call_ "np.random.seed" [VInt 20] ;;
  data <- call_kw "np.genfromtxt" [VStr "clc.csv"] [("delimiter", VStr ",")] ;;
  let t := item data (VStr ":, 0") in
  let xdata := item data (VStr ":, 1") in
  let stoich := VList [VInt 1] in
  ret (t, xdata, stoich).

(** Returns [results]. *)
Definition cell_fit (t xdata stoich : val) : M val :=
  call_kw "ripe.ripemodel" [xdata]
    [("stoichiometry", stoich);
     ("mechanisms", clc_mechs (VStr "idaes.apps.ripe.mechs"));
     ("time", t)].

Definition notebook : M unit :=
  d <- cell_data ;;
  cell_fit (fst (fst d)) (snd (fst d)) (snd d) ;;
  ret tt.

End CLC.

(* ================================================================== *)
(** * numpy arrays of the CSTR notebook *)
(* ================================================================== *)

Module Np.

(** A two-dimensional array: its rows. *)
Definition array : Type := list (list val).

Definition array_val (a : array) : val := VList (map VList a).

Definition as_array (v : val) : option array :=
  match as_list v with
  | Some rows => all_some (map as_list rows)
  | None => None
  end.

(** A one-dimensional operand; a scalar stands for itself. *)
Definition as_vector (v : val) : list val :=
  match v with VList l => l | _ => [v] end.

(** [np.zeros([r, c])] *)
Definition zeros (r c : nat) : array := repeat (repeat (VFloat "0.0") c) r.

(** Width of a non-empty rectangular array. *)
Definition width (a : array) : option nat :=
  match a with
  | [] => None
  | row :: rest =>
      if forallb (fun x => Nat.eqb (List.length x) (List.length row)) rest
      then Some (List.length row) else None
  end.

(** Broadcasting [src] to the shape [(r, c)], as an assignment does. *)
Definition broadcast (r c : nat) (src : array) : option array :=
  match width src with
  | None => None
  | Some w =>
      if Nat.eqb w c || Nat.eqb w 1 then
        let rows := map (fun row => if Nat.eqb w c then row else repeat (hd VNone row) c) src in
        if Nat.eqb (List.length rows) r then Some rows
        else if Nat.eqb (List.length rows) 1 then Some (repeat (hd [] rows) r)
        else None
      else None
  end.

(** [target[:-1][:] = src[:][:]] for [target] of [c] columns. *)
Definition assign_head (c : nat) (target src : array) : option array :=
  let r := List.length target - 1 in
  match broadcast r c src with
  | Some block => Some (block ++ skipn r target)
  | None => None
  end.

(** The operand of [target[-1][:] = v[:]]: a vector, or a single row. *)
Definition as_row (v : val) : option (list val) :=
  match v with
  | VList [VList row] => Some row
  | VList l => if forallb (fun x => match x with VList _ => false | _ => true end) l
               then Some l else None
  | _ => None
  end.

(** [target[-1][:] = row] *)
Definition assign_last (c : nat) (target : array) (row : list val) : option array :=
  match target with
  | [] => None
  | _ =>
      if Nat.eqb (List.length row) c then Some (removelast target ++ [row])
      else match row with
           | [x] => Some (removelast target ++ [repeat x c])
           | _ => None
           end
  end.

(** [for j in range(len(res)): target[-1][j] = res[j]] *)
Definition assign_last_items (target : array) (res : list val) : option array :=
  match target with
  | [] => None
  | _ =>
      let old := last target [] in
      if Nat.leb (List.length res) (List.length old)
      then Some (removelast target ++ [res ++ skipn (List.length res) old])
      else None
  end.

(** [np.multiply(k, np.array(a))] *)
Definition multiply (k : val) (a : array) : array := map (map (mul k)) a.

(** [a > b] on vectors, with broadcasting. *)
Definition greater (lt : val -> val -> bool) (a b : list val) : option (list bool) :=
  if Nat.eqb (List.length a) (List.length b)
  then Some (map (fun xy => lt (snd xy) (fst xy)) (combine a b))
  else match a, b with
       | [x], _ => Some (map (fun y => lt y x) b)
       | _, [y] => Some (map (fun x => lt y x) a)
       | _, _ => None
       end.

End Np.

(* ================================================================== *)
(** * RIPE: isothermal CSTR *)
(* ================================================================== *)

Module CSTR.

Definition noise : val := VFloat "0.1".
Definition ns : nat := 5.
Definition lb_conc : val := VList [VInt 0; VInt 0; VInt 0; VInt 0; VInt 0].
Definition ub_conc : val := VList [VInt 10; VInt 10; VInt 0; VInt 0; VInt 0].
Definition cdata0_init : Np.array :=
  [[VInt 1; VInt 1; VInt 0; VInt 0; VInt 0]; [VInt 10; VInt 10; VInt 0; VInt 0; VInt 0]].
Definition nd : nat := List.length cdata0_init.

Definition stoich : val :=
  VList (map (fun r => VList (map VInt r))
    [[-1; -1; 1; 0; 0]; [0; -1; -1; 1; 0]; [-1; 0; 0; -1; 1]; [-1; -2; 0; 1; 0];
     [-2; -2; 0; 0; 1]; [-1; -1; -1; 0; 1]; [-2; -1; 1; -1; 1]; [1; 0; -1; -1; 1];
     [-3; -3; 1; 0; 1]; [-3; -4; 0; 1; 1]; [-2; -3; 1; 1; 0]; [-4; -5; 1; 1; 1]]%Z).

Definition rxn_mechs : val := VList [VList [VStr "all"; VStr "massact"]].

Definition isotsim_sim : val := (VStr "isotsim")@."sim".

(** The variables the cells share. *)
Record vars : Type := Vars {
  ite : nat;
  cdata0 : Np.array;
  cdata : Np.array;
  sigma : Np.array;
  results : val;
  new_points : val;
  err : val;
  new_res : list val
}.

(** [isotsim.sim(points)]: the simulator ships with the notebook but its
    code is not among the sources at hand; what it returns comes from the
    environment and is used as a list of rows. *)
Definition sim (points : val) : M Np.array :=
  v <- call_ "isotsim.sim" [points] ;;
  of_option TypeError (Np.as_array v).

(** [isotsim.sim(points)[0]] *)
Definition sim_first (points : val) : M (list val) :=
  a <- sim points ;;
  of_option IndexError (nth_error a 0).

(** [[new_points, err] = ripe.ems(results, isotsim.sim, lb_conc, ub_conc, 5,
                                    x=cdata, x0=cdata0)] *)
Definition ems (results : val) (cdata cdata0 : Np.array) : M (val * val) :=
  r <- call_kw "ripe.ems" [results; isotsim_sim; lb_conc; ub_conc; VInt 5]
         [("x", Np.array_val cdata); ("x0", Np.array_val cdata0)] ;;
  unpack2 r.

(** Returns [(cdata, sigma)]. *)
Definition cell_setup : M (Np.array * Np.array) :=
  import_ "pyomo.environ" ;;
  import_ "idaes.apps.ripe" ;;
  import_ "numpy" ;;
  import_ "random" ;;
  import_ "isotsim" ;;
  call_ "np.random.seed" [VInt 20] ;;
  cdata <- sim (Np.array_val cdata0_init) ;;
  let sigma := Np.multiply (pow noise (VInt 2)) cdata in
  ret (cdata, sigma).

Definition cell_first_fit (cdata sigma : Np.array) : M val :=
  call_kw "ripe.ripemodel" [Np.array_val cdata]
    [("stoich", stoich); ("mechanisms", rxn_mechs); ("x0", Np.array_val cdata0_init);
     ("hide_output", VBool false); ("sigma", Np.array_val sigma);
     ("deltaterm", VInt 0); ("expand_output", VBool true)].

Definition cell_first_ems (cdata sigma : Np.array) (results : val) : M vars :=
  pe <- ems results cdata cdata0_init ;;
  print [VStr "New Point"; fst pe] ;;
  print [VStr "Error"; snd pe] ;;
  new_res <- sim_first (fst pe) ;;
  print [VStr "New Result"; VList new_res] ;;
  ret (Vars 0 cdata0_init cdata sigma results (fst pe) (snd pe) new_res).

(** [err > [k * noise * s for s in new_res]] *)
Definition violations (k : val -> val) (v : vars) : M (list bool) :=
  lt <- float_lt ;;
  of_option ValueError
    (Np.greater lt (Np.as_vector (err v)) (map (fun s => mul (k noise) s) (new_res v))).

(** [any(err > [2 * noise * s for s in new_res])] *)
Definition loop_cond (v : vars) : M bool :=
  bs <- violations (fun n => mul (VInt 2) n) v ;;
  ret (existsb (fun b => b) bs).

Definition loop_body (v : vars) : M vars :=
  bs <- violations (fun n => n) v ;;
  print [VStr "Which concentrations violate error (True=violation) : ";
         VList (map VBool bs)] ;;
  let ite := ite v + 1 in
  let new_cdata0 := Np.zeros (nd + ite) ns in
  let new_cdata := Np.zeros (nd + ite) ns in
  new_cdata0 <- of_option ValueError (Np.assign_head ns new_cdata0 (cdata0 v)) ;;
  new_cdata <- of_option ValueError (Np.assign_head ns new_cdata (cdata v)) ;;
  point <- of_option ValueError (Np.as_row (new_points v)) ;;
  new_cdata0 <- of_option ValueError (Np.assign_last ns new_cdata0 point) ;;
  res <- sim_first (new_points v) ;;
  new_cdata <- of_option IndexError (Np.assign_last_items new_cdata res) ;;
  let sigma := Np.multiply (pow noise (VInt 2)) new_cdata in
  results <- call_kw "ripe.ripemodel" [Np.array_val new_cdata]
               [("stoich", stoich); ("mechanisms", rxn_mechs);
                ("x0", Np.array_val new_cdata0); ("sigma", Np.array_val sigma);
                ("expand_output", VBool true)] ;;
  pe <- ems results (cdata v) (cdata0 v) ;;
  new_res <- sim_first (fst pe) ;;
  ret (Vars ite new_cdata0 new_cdata sigma results (fst pe) (snd pe) new_res).

(** [ite = 0; while any(...): ...] *)
Definition cell_loop (fuel : nat) (v : vars) : M vars :=
  while_ fuel loop_cond loop_body v.

Definition cell_final_fit (v : vars) : M unit :=
  results <- call_kw "ripe.ripemodel" [Np.array_val (cdata v)]
               [("stoich", stoich); ("mechanisms", rxn_mechs);
                ("x0", Np.array_val (cdata0 v)); ("sigma", Np.array_val (sigma v));
                ("expand_output", VBool false)] ;;
  print [results].

(** The cells in front of the loop. *)
Definition cell_head : M vars :=
  cs <- cell_setup ;;
  results <- cell_first_fit (fst cs) (snd cs) ;;
  cell_first_ems (fst cs) (snd cs) results.

Definition notebook (fuel : nat) : M unit :=
  v <- cell_head ;;
  v <- cell_loop fuel v ;;
  cell_final_fit v.

End CSTR.

(* ================================================================== *)
(** * The notebooks of the repository *)
(* ================================================================== *)

Inductive notebook : Type :=
| nanowire | perovskite | monometallic | surface
| bifunctional | bimetallic | clc | cstr.

(** [fuel] bounds the iterations of the one [while] loop (CSTR). *)
Definition script (nb : notebook) (fuel : nat) : M unit :=
  match nb with
  | nanowire => Nanowire.notebook
  | perovskite => Perovskite.notebook
  | monometallic => Monometallic.notebook
  | surface => Surface.notebook
  | bifunctional => Bifunctional.notebook
  | bimetallic => Bimetallic.notebook
  | clc => CLC.notebook
  | cstr => CSTR.notebook fuel
  end.


Definition uses_matopt (nb : notebook) : bool :=
  match nb with clc | cstr => false | _ => true end.

Definition events (nb : notebook) (fuel : nat) (E : env) : list event :=
  trace (script nb fuel) E.

Definition ending (nb : notebook) (fuel : nat) (E : env) : outcome unit :=
  result (script nb fuel) E.

(* ================================================================== *)
(** * Observers *)
(* ================================================================== *)

(** A property of the runs of a script is stated through an observer, a
    machine that reads the events of a run one by one.  [triple step s m Q]
    says: whatever the environment and the history, when the observer is in
    state [s] before [m] runs, the outcome of [m] and the state of the
    observer afterwards satisfy [Q]. *)
Definition observe {St} (step : St -> event -> St) (s : St) (t : list event) : St :=
  fold_left step t s.

Definition triple {St A} (step : St -> event -> St) (s : St) (m : M A)
    (Q : outcome A -> St -> Prop) : Prop :=
  forall E h, Q (fst (m E h)) (observe step s (snd (m E h))).

(** [quiet m]: [m] adds no event and needs no fuel. *)
Definition quiet {A} (m : M A) : Prop :=
  forall E h, snd (m E h) = [] /\ fst (m E h) <> Timeout.

Definition is_Done {A} (r : outcome A) : bool :=
  match r with Done _ => true | _ => false end.

(* ------------------------------------------------------------------ *)
(** ** What the calls are *)
(* ------------------------------------------------------------------ *)

Definition one_of (names : list string) (f : string) : bool :=
  existsb (String.eqb f) names.

Definition is_maximize (c : call) : bool := String.eqb (callee c) "MatOptModel.maximize".
Definition is_ripemodel (c : call) : bool := String.eqb (callee c) "ripe.ripemodel".
Definition solve_or_fit (c : call) : bool := is_maximize c || is_ripemodel c.

Definition calls_of (t : list event) : list call :=
  flat_map (fun ev => match ev with ECall c _ => [c] | EPrint _ => [] end) t.

(** The library functions by name, in the order of the run. *)
Definition callees (t : list event) : list string := map callee (calls_of t).

Definition count_calls (f : string) (t : list event) : nat :=
  List.length (filter (String.eqb f) (callees t)).

(** How a library function touches the world outside the Python process. *)
Inductive effect : Type :=
| InMemory          (* builds or changes Python objects only *)
| ImportsModule
| Console           (* writes to the output of the cell *)
| TempDirectory     (* creates or removes the scratch directory *)
| ReadsFile
| Unpacks           (* extracts an archive into the scratch directory *)
| WritesFile
| RunsSolver.       (* blocks on the external optimizer *)

Definition matopt_objects : list string :=
  ["Atom"; "Canvas"; "Canvas.addLocation"; "Canvas.addShell"; "Canvas.addShells";
   "Canvas.fromLatticeAndShape"; "Canvas.fromLatticeAndTilingScan";
   "Canvas.makePeriodic"; "Canvas.setNeighborsFromFunc"; "CubicTiling"; "Cylinder";
   "Cylinder.shift"; "Design"; "Design.add"; "Design.setContent"; "EqualTo";
   "FCCLattice"; "FCCLattice.alignedWith111"; "FixedTo"; "GreaterThan"; "Implies";
   "ImpliesNeighbors"; "ImpliesSiteCombination"; "LessThan"; "LinearExpr";
   "LinearTiling.fromCylindricalShape"; "MatOptModel";
   "MatOptModel.addBondsDescriptor"; "MatOptModel.addGlobalDescriptor";
   "MatOptModel.addGlobalTypesDescriptor"; "MatOptModel.addSitesDescriptor";
   "MatOptModel.addSitesTypesDescriptor"; "MaterialDescriptor.keys";
   "Parallelepiped.fromEdgesAndAngles"; "Parallelepiped.scale"; "Parallelepiped.shift";
   "PerovskiteLattice"; "PerovskiteLattice.isASite"; "PerovskiteLattice.isBSite";
   "PerovskiteLattice.isOSite"; "PiecewiseLinear"; "PlanarTiling";
   "PlanarTiling.replicateDesign"; "RectPrism"; "RectPrism.shift"; "SumBondTypes";
   "SumBonds"; "SumConfs"; "SumNeighborSites"; "SumSites"; "SumSitesAndConfs";
   "WurtziteLattice.alignedWith"; "WurtziteLattice.getLayerSpacing";
   "WurtziteLattice.getShellSpacing"; "WurtziteLattice.getUniqueLayerCount";
   "WurtziteLattice.isASite"; "WurtziteLattice.isBSite"; "WurtziteLattice.setDesign"].

Definition python_objects : list string :=
  ["deepcopy"; "list.append"; "np.random.seed"; "isotsim.sim"].

Definition effect_of (f : string) : option effect :=
  if one_of matopt_objects f then Some InMemory
  else if one_of python_objects f then Some InMemory
  else if one_of ["import"] f then Some ImportsModule
  else if one_of ["help"] f then Some Console
  else if one_of ["TemporaryDirectory"; "__enter__"; "__exit__"] f then Some TempDirectory
  else if one_of ["np.genfromtxt"; "ZipFile"; "loadFromPDBs"] f then Some ReadsFile
  else if one_of ["ZipFile.extractall"] f then Some Unpacks
  else if one_of ["Design.toPDB"; "Design.toCFG"] f then Some WritesFile
  else if one_of ["MatOptModel.maximize"; "ripe.ripemodel"; "ripe.ems"] f then Some RunsSolver
  else None.


Definition is_write (c : call) : bool :=
  match effect_of (callee c) with Some WritesFile => true | _ => false end.

Fixpoint ends_with (suffix s : string) : bool :=
  if String.eqb s suffix then true
  else match s with
       | EmptyString => false
       | String _ s' => ends_with suffix s'
       end.

(** The names of the files a reading call opens ([None]: not given as
    strings). *)
Definition names (l : list val) : option (list string) :=
  all_some (map (fun v => match v with VStr s => Some s | _ => None end) l).

Definition files_read (c : call) : option (list string) :=
  match args c with
  | VList l :: _ => names l              (* loadFromPDBs([...], folder=...) *)
  | VStr f :: _ => Some [f]              (* np.genfromtxt(f), ZipFile(f) *)
  | _ => None
  end.

(** The file a [toPDB]/[toCFG] call writes: the argument after the design. *)
Definition file_written (c : call) : option string :=
  match args c with
  | _ :: VStr f :: _ => Some f
  | _ => None
  end.

(** The packaged inputs: the archive of conformations, the conformations
    in it, the kinetics data. *)
Definition packaged (f : string) : bool :=
  String.eqb f "./confs.zip"
  || String.eqb f "clc.csv"
  || one_of (map (fun i => (str_nat i ++ ".pdb")%string) Perovskite.iDesiredConfs) f.

Definition boundary_ok (ev : event) : bool :=
  match ev with
  | EPrint _ => true
  | ECall c _ =>
      match effect_of (callee c) with
      | None => false
      | Some ReadsFile =>
          match files_read c with
          | Some fs => forallb packaged fs
          | None => false
          end
      | Some WritesFile =>
          match file_written c with
          | Some f =>
              (String.eqb (callee c) "Design.toPDB" && ends_with ".pdb" f)
              || (String.eqb (callee c) "Design.toCFG" && ends_with ".cfg" f)
          | None => false
          end
      | Some _ => true
      end
  end.

(** The output files that hold a solution. *)
Definition result_files : list string :=
  ["result.pdb"; "periodic_result.pdb"; "result.cfg"; "periodic_result.cfg"].

(** Calls that change a design or write a solution to disk. *)
Definition touches_result (c : call) : bool :=
  one_of ["Design.setContent"; "Design.add"] (callee c)
  || (is_write c
      && match file_written c with
         | Some f => one_of result_files f
         | None => true
         end).

(* ------------------------------------------------------------------ *)
(** ** Solver options *)
(* ------------------------------------------------------------------ *)

Definition is_scalar (v : val) : bool :=
  match v with
  | VInt _ | VFloat _ | VStr _ | VBool _ => true
  | _ => false
  end.

(** The keyword arguments of a [maximize] call are scalars with names
    among [allowed]. *)
Definition options_ok (allowed : list string) (ev : event) : bool :=
  match ev with
  | ECall c _ =>
      if is_maximize c
      then forallb (fun kv => one_of allowed (fst kv) && is_scalar (snd kv)) (kwargs c)
      else true
  | EPrint _ => true
  end.

Definition option_names (c : call) : list string := map fst (kwargs c).

(** A [maximize] call gives its time limit as an integer of seconds. *)
Definition has_time_limit (ev : event) : bool :=
  match ev with
  | ECall c _ =>
      if is_maximize c
      then existsb (fun kv => String.eqb (fst kv) "tilim"
                              && match snd kv with VInt _ => true | _ => false end)
                   (kwargs c)
      else true
  | EPrint _ => true
  end.

(* ------------------------------------------------------------------ *)
(** ** The observers of the properties below *)
(* ------------------------------------------------------------------ *)

(** All events so far satisfy [P]. *)
Definition all_step (P : event -> bool) (ok : bool) (ev : event) : bool := ok && P ev.

(** Number of calls of [f] so far. *)
Definition count_step (f : string) (n : nat) (ev : event) : nat :=
  match ev with
  | ECall c _ => if String.eqb (callee c) f then S n else n
  | EPrint _ => n
  end.

(** The callees so far, latest first. *)
Definition callee_step (s : list string) (ev : event) : list string :=
  match ev with
  | ECall c _ => callee c :: s
  | EPrint _ => s
  end.


(** The exceptions raised so far by the calls in [watched], latest first. *)
Definition raised_step (watched : call -> bool) (s : list exn) (ev : event) : list exn :=
  match ev with
  | ECall c (Raises e) => if watched c then e :: s else s
  | _ => s
  end.

(** The fallback message of the guard. *)
Definition is_fallback (ev : event) : bool :=
  match ev with
  | EPrint [VStr s] => String.eqb s no_solver_msg
  | _ => false
  end.

(** Follows the guards: after a watched call raised, the next event has to
    be the fallback message. *)
Inductive guard_state : Type := Calm | Pending | Broken.

Definition guard_step (watched : call -> bool) (s : guard_state) (ev : event) : guard_state :=
  match s with
  | Broken => Broken
  | Pending => if is_fallback ev then Calm else Broken
  | Calm =>
      match ev with
      | ECall c (Raises _) => if watched c then Pending else Calm
      | _ => Calm
      end
  end.

(** A [maximize] call that handed back a design. *)
Definition solved (ev : event) : bool :=
  match ev with
  | ECall c (Returns v) => is_maximize c && negb (is_None v)
  | _ => false
  end.







(** [(ok, design)]: [design] tells whether the latest [maximize] call
    handed back a design; [ok] whether every call that touched a result
    so far came while [design] held. *)
Definition result_step (s : bool * bool) (ev : event) : bool * bool :=
  match ev with
  | ECall c r =>
      if is_maximize c then (fst s, solved ev)
      else if touches_result c then (fst s && snd s, snd s)
      else s
  | EPrint _ => s
  end.

(** Exceptions of calls other than the solve, apart from those of the
    cleanup of a [with] block, and those of the cleanup. *)
Definition other_call (c : call) : bool :=
  negb (is_maximize c) && negb (String.eqb (callee c) "__exit__").
Definition cleanup_call (c : call) : bool := String.eqb (callee c) "__exit__".

Definition failure_step (s : list exn * list exn) (ev : event) : list exn * list exn :=
  (raised_step other_call (fst s) ev, raised_step cleanup_call (snd s) ev).

(* ================================================================== *)
(** * Environments to run the notebooks in *)
(* ================================================================== *)

Module Lab.

Definition f (lit : string) : val := VFloat lit.

(** A canvas of two sites, the second one higher up. *)
Definition Points : val :=
  VList [VList [f "0.0"; f "0.0"; f "0.0"]; VList [f "0.0"; f "0.0"; f "9.0"]].

Definition NeighborhoodIndexes : val :=
  VList [VList (VInt 1 :: repeat VNone 11); VList (VInt 0 :: repeat VNone 11)].

Definition attribute (name : string) : val :=
  if String.eqb name "Points" then Points
  else if String.eqb name "NeighborhoodIndexes" then NeighborhoodIndexes
  else if String.eqb name "Contents" then VList [VObj 5; VNone]
  else if String.eqb name "FCC111LayerSpacing" then f "2.0"
  else VNone.

Definition memory (h : list event) (ref : val) : val :=
  match ref with
  | VAttr _ name => attribute name
  | VOp op _ =>
      if String.eqb op "len" then VInt 2
      else if String.eqb op "bool" then VBool true
      else f "9.0"
  | _ => VNone
  end.

(** Just enough of [<]: ["0.0"] is below and ["9.0"] above everything. *)
Definition less (a b : val) : bool :=
  match a, b with
  | VFloat x, VFloat y =>
      if String.eqb x y then false
      else String.eqb x "0.0" || String.eqb y "9.0"
  | VFloat x, _ => String.eqb x "0.0"
  | _, VFloat y => String.eqb y "9.0"
  | _, _ => false
  end.

Definition a_point : val := VList [VList [f "1.0"; f "1.0"; f "1.0"; f "1.0"; f "1.0"]].
Definition large_error : val := VList [f "9.0"; f "9.0"; f "9.0"; f "9.0"; f "9.0"].
Definition small_error : val := VList [f "0.0"; f "0.0"; f "0.0"; f "0.0"; f "0.0"].

(** The simulator answers with one row per point; here: the points. *)
Definition simulate (a : list val) : val :=
  match a with
  | [VList (VList r :: rest)] => VList (VList r :: rest)
  | [p] => VList [p]
  | _ => VList []
  end.

(** Everything is installed and works; the sampling of RIPE reports a
    large error [rounds] times, then a small one. *)
Definition library (rounds : nat) (h : list event) (c : call) : response :=
  let name := callee c in
  if String.eqb name "isotsim.sim" then Returns (simulate (args c))
  else if String.eqb name "ripe.ems" then
    Returns (VList [a_point;
                    if Nat.ltb (count_calls "ripe.ems" h) rounds then large_error else small_error])
  else if String.eqb name "loadFromPDBs" then Returns (VList [VObj 1; VObj 2])
  else if String.eqb name "MaterialDescriptor.keys" then
    match args c with
    | [VAttr _ "Zic"] => Returns (VList [VTuple [VInt 0; VInt 0]])
    | _ => Returns (VList [VInt 0])
    end
  else if one_of ["WurtziteLattice.isASite"; "PerovskiteLattice.isASite";
                  "PerovskiteLattice.isBSite"; "PerovskiteLattice.isOSite"] name
  then Returns (VBool true)
  else Returns (VObj (List.length h)).

Definition works (rounds : nat) : env := Env (library rounds) memory less.

(** The calls in [broken] fail with [e]. *)
Definition failing (broken : call -> bool) (e : exn) : env :=
  Env (fun h c => if broken c then Raises e else library 0 h c) memory less.

Definition ApplicationError : exn := PyException "ApplicationError".

(** No usable solver. *)
Definition no_solver : env := failing is_maximize ApplicationError.

(** The solver finds nothing and hands back [None]. *)
Definition no_design : env :=
  Env (fun h c => if is_maximize c then Returns VNone else library 0 h c) memory less.

(** A quiet laboratory for the refinement loop: the simulator answers
    with a row of ones for each point, the sampling with the point of ones
    and small errors, the fit with [None]. *)
Definition ones : list val := [f "1.0"; f "1.0"; f "1.0"; f "1.0"; f "1.0"].

Definition ones_for (points : val) : Np.array :=
  match Np.as_array points with
  | Some (r :: rs) => map (fun _ => ones) (r :: rs)
  | _ => [ones]
  end.

Definition steady : env :=
  Env (fun h c =>
         if String.eqb (callee c) "isotsim.sim" then
           match args c with
           | [points] => Returns (Np.array_val (ones_for points))
           | _ => Returns (Np.array_val [ones])
           end
         else if String.eqb (callee c) "ripe.ems" then Returns (VList [VList ones; small_error])
         else Returns VNone)
      memory less.

(** The variables at the head of the loop, as the cells in front of it
    leave them in [steady]. *)
Definition start : CSTR.vars :=
  CSTR.Vars 0 CSTR.cdata0_init [ones; ones]
    (Np.multiply (pow CSTR.noise (VInt 2)) [ones; ones])
    VNone (VList ones) small_error ones.

End Lab.

(* ================================================================== *)
(** * Statements *)
(* ================================================================== *)




(** The claim as stated: only [tilim] and [trelim] are ever passed. *)
Definition only_limits : Prop :=
  forall nb fuel E,
    Forall (fun ev => options_ok ["tilim"; "trelim"] ev = true) (events nb fuel E).

(** The option names of the [maximize] calls of each notebook. *)
Definition options_of (nb : notebook) : list (list string) :=
  match nb with
  | nanowire => [["tilim"; "solver"]]
  | bimetallic => [["tilim"]; ["tilim"; "trelim"]]
  | clc | cstr => []
  | _ => [["tilim"]]
  end.

Definition same_names (a b : list string) : bool :=
  if list_eq_dec string_dec a b then true else false.

Definition solver_options_ok (nb : notebook) (ev : event) : bool :=
  options_ok ["tilim"; "trelim"; "solver"] ev
  && has_time_limit ev
  && match ev with
     | ECall c _ =>
         if is_maximize c then existsb (same_names (option_names c)) (options_of nb)
         else true
     | EPrint _ => true
     end.

(** The claim as stated, for the MatOpt notebooks: one [maximize] call. *)
Definition solves_once : Prop :=
  forall nb fuel E,
    uses_matopt nb = true ->
    ending nb fuel E = Done tt ->
    count_calls "MatOptModel.maximize" (events nb fuel E) = 1.

Definition solves (nb : notebook) : nat :=
  match nb with
  | bimetallic => 2
  | clc | cstr => 0
  | _ => 1
  end.

(** Every call is a function of a library the table knows. *)
Definition known_call (ev : event) : bool :=
  match ev with
  | ECall c _ => match effect_of (callee c) with Some _ => true | None => false end
  | EPrint _ => true
  end.

(** The claim as stated: when a solve or fit call raises, the fallback
    message is printed and the exception does not end the run. *)
Definition guard_claim : Prop :=
  forall nb fuel E c e,
    In (ECall c (Raises e)) (events nb fuel E) ->
    solve_or_fit c = true ->
    In (EPrint [VStr no_solver_msg]) (events nb fuel E)
    /\ ending nb fuel E <> Uncaught e.

Definition RuntimeError : exn := PyException "RuntimeError".

Definition clc_fit : call :=
  Call "ripe.ripemodel" [item (VObj 4) (VStr ":, 1")]
    [("stoichiometry", VList [VInt 1]);
     ("mechanisms", CLC.clc_mechs (VStr "idaes.apps.ripe.mechs"));
     ("time", item (VObj 4) (VStr ":, 0"))].

(** The first solve of the bimetallic notebook is the one [maximize] call
    whose guard is [except Exception as err: D = None]. *)
Definition bare_guarded (nb : notebook) (c : call) : bool :=
  is_maximize c
  && negb (match nb with
           | bimetallic => same_names (option_names c) ["tilim"]
           | _ => false
           end).

(** No event comes after a raise of a call in [watched]: [(seen, ok)]. *)
Definition raises_in (watched : call -> bool) (ev : event) : bool :=
  match ev with
  | ECall c (Raises _) => watched c
  | _ => false
  end.

Definition final_step (watched : call -> bool) (s : bool * bool) (ev : event) : bool * bool :=
  (fst s || raises_in watched ev, snd s && negb (fst s)).

Definition first_solve (m : val) : call :=
  Call "MatOptModel.maximize" [m; m@."Ecoh"] [("tilim", VInt 100)].

Definition nanowire_solve : call :=
  Call "MatOptModel.maximize" [VObj 18; (VObj 18)@."Ecoh"]
    [("tilim", VInt 360); ("solver", VStr "cplex")].

(** What the observer [failure_step] has to see at the end of a run: an
    exception of a call other than the solve is the one that ended the run,
    unless the cleanup of the [with] block raised after it, and then that
    one ended the run. *)
Definition unhandled {A} (r : outcome A) (s : list exn * list exn) : Prop :=
  (forall e, In e (fst s) -> r = Uncaught e \/ exists e', In e' (snd s) /\ r = Uncaught e')
  /\ (forall e', In e' (snd s) -> r = Uncaught e').

Definition clc_read : call :=
  Call "np.genfromtxt" [VStr "clc.csv"] [("delimiter", VStr ",")].

Definition FileNotFoundError : exn := PyException "FileNotFoundError".

(** The [maximize] call of the guarded solve cell of each notebook. *)
Definition solve_call (nb : notebook) (m : val) : call :=
  match nb with
  | nanowire =>
      Call "MatOptModel.maximize" [m; m@."Ecoh"] [("tilim", VInt 360); ("solver", VStr "cplex")]
  | perovskite => Call "MatOptModel.maximize" [m; m@."Activity"] [("tilim", VInt 360)]
  | monometallic => Call "MatOptModel.maximize" [m; m@."Ecoh"] [("tilim", VInt 100)]
  | surface | bifunctional =>
      Call "MatOptModel.maximize" [m; m@."ActAndStab"] [("tilim", VInt 360)]
  | _ =>
      Call "MatOptModel.maximize" [m; m@."Ecoh"] [("tilim", VInt 360); ("trelim", VInt 4096)]
  end.

(** The solve cell with the bare guard, where there is one. *)
Definition solve_cell (nb : notebook) : option (val -> M val) :=
  match nb with
  | nanowire => Some Nanowire.cell_solve
  | perovskite => Some Perovskite.cell_solve
  | monometallic => Some Monometallic.cell_solve
  | surface => Some Surface.cell_solve
  | bifunctional => Some Bifunctional.cell_solve
  | bimetallic => Some Bimetallic.cell_solve
  | clc | cstr => None
  end.

Definition is_solve_event (ev : event) : bool :=
  match ev with
  | ECall c _ => is_maximize c
  | EPrint _ => false
  end.

Definition touches (ev : event) : bool :=
  match ev with
  | ECall c _ => touches_result c
  | EPrint _ => false
  end.




(** The claim as stated: two runs that reach the end made the same
    library calls in the same order. *)
Definition fixed_sequence : Prop :=
  forall nb fuel1 fuel2 E1 E2,
    ending nb fuel1 E1 = Done tt ->
    ending nb fuel2 E2 = Done tt ->
    callees (events nb fuel1 E1) = callees (events nb fuel2 E2).

Definition clc_calls : list string :=
  ["import"; "import"; "import"; "np.random.seed"; "np.genfromtxt"; "ripe.ripemodel"].

Definition monometallic_calls : list string :=
  ["import"; "import"; "import"; "FCCLattice"; "Canvas"; "Canvas.addLocation";
   "Canvas.addShells"; "Atom"; "Atom"; "Design"; "Design.toPDB"; "MatOptModel";
   "PiecewiseLinear"; "MatOptModel.addSitesDescriptor"; "SumSites"; "EqualTo";
   "MatOptModel.addGlobalDescriptor"; "SumSites"; "EqualTo";
   "MatOptModel.addGlobalDescriptor"; "help"; "help"; "MatOptModel.maximize"].

Definition cstr_setup : list string :=
  ["import"; "import"; "import"; "import"; "import"; "np.random.seed";
   "isotsim.sim"; "ripe.ripemodel"; "ripe.ems"; "isotsim.sim"].

(** One pass through the loop. *)
Definition cstr_round : list string :=
  ["isotsim.sim"; "ripe.ripemodel"; "ripe.ems"; "isotsim.sim"].

(** The two lists of a canvas of [n] sites: [L] and the rest. *)
Definition partitions (n : nat) (L rest : list nat) : Prop :=
  (forall i, i < n -> (In i L /\ ~ In i rest) \/ (~ In i L /\ In i rest))
  /\ (forall i, In i L \/ In i rest -> i < n)
  /\ StronglySorted Nat.lt L
  /\ StronglySorted Nat.lt rest.

Definition two_sites : list point :=
  [(VFloat "0.0", VFloat "0.0", VFloat "0.0"); (VFloat "0.0", VFloat "0.0", VFloat "9.0")].











(** Surface: neighbour [j] lies lower than site [i]. *)
Definition lower_than (lt : val -> val -> bool) (Points : list point) (i j : nat) : bool :=
  match nth_error Points j, nth_error Points i with
  | Some q, Some p => lt (pt2 q) (sub (pt2 p) DBL_TOL)
  | _, _ => false
  end.

(** A row names a site the canvas does not have. *)
Definition dangling (n : nat) (row : list (option nat)) : Prop :=
  exists j, In (Some j) row /\ n <= j.

(** Two sites that name each other, the second with an empty slot. *)
Definition two_rows : list (list (option nat)) := [[Some 1; None]; [None; Some 0]].

(** Surface: [(nLayers - 1.5) * Lat.FCC111LayerSpacing]. *)
Definition top_bound (spacing : val) : val :=
  mul (sub (VInt Surface.nLayers) (VFloat "1.5")) spacing.

(** Site [i] below [len(Canv)] lies above the bound. *)
Definition in_top_layer (lt : val -> val -> bool) (Points : list point) (spacing : val)
    (n i : nat) : Prop :=
  i < n /\ exists p, nth_error Points i = Some p /\ lt (top_bound spacing) (pt2 p) = true.

(** Bifunctional: site [i] below [len(Canv)] does not lie below
    [Lat.FCC111LayerSpacing * 2.5]. *)
Definition not_fixed_to_Pt (lt : val -> val -> bool) (Points : list point) (spacing : val)
    (n i : nat) : Prop :=
  i < n /\ exists p, nth_error Points i = Some p
                     /\ lt (pt2 p) (mul spacing (VFloat "2.5")) = false.

(** [x] is what a call [Atom(symbol)] among the events [t] returned. *)
Definition made_by (symbol : string) (t : list event) (x : val) : Prop :=
  In (ECall (Call "Atom" [VStr symbol] []) (Returns x)) t.

(** What slot [i] of conformation [c] holds. *)
Definition slot_ok (t : list event) (c i : nat) (x : val) : Prop :=
  if mem_nat i (nth c Bifunctional.iToSetPt []) then made_by "Pt" t x
  else if mem_nat i (nth c Bifunctional.iToSetNi []) then made_by "Ni" t x
  else x = VNone.

(** The variables of [Lab.start] with a large error reported. *)
Definition hot_start : CSTR.vars :=
  CSTR.Vars 0 CSTR.cdata0_init [Lab.ones; Lab.ones]
    (Np.multiply (pow CSTR.noise (VInt 2)) [Lab.ones; Lab.ones])
    VNone Lab.a_point Lab.large_error Lab.ones.


(** The line the body prints first. *)
Definition violation_line (bs : list bool) : event :=
  EPrint [VStr "Which concentrations violate error (True=violation) : ";
          VList (map VBool bs)].

(** The arrays and the error vector are well shaped; nothing is asked of
    the sampled point. *)
Definition arrays_shaped (v : CSTR.vars) : Prop :=
  List.length (CSTR.cdata0 v) = CSTR.nd + CSTR.ite v
  /\ List.length (CSTR.cdata v) = CSTR.nd + CSTR.ite v
  /\ Forall (fun r => List.length r = CSTR.ns) (CSTR.cdata0 v)
  /\ Forall (fun r => List.length r = CSTR.ns) (CSTR.cdata v)
  /\ List.length (Np.as_vector (CSTR.err v)) = List.length (CSTR.new_res v).

(** The simulator answers [rows] for the sampled point of [v]. *)
Definition sim_answers (E : env) (v : CSTR.vars) (rows : Np.array) : Prop :=
  forall h, lib E h (Call "isotsim.sim" [CSTR.new_points v] []) = Returns (Np.array_val rows).

(** A well-shaped error vector next to points of two and of five entries. *)
Definition short_point : CSTR.vars :=
  CSTR.Vars 0 CSTR.cdata0_init [Lab.ones; Lab.ones]
    (Np.multiply (pow CSTR.noise (VInt 2)) [Lab.ones; Lab.ones])
    VNone (VList [Lab.f "1.0"; Lab.f "1.0"]) Lab.small_error Lab.ones.

(** A simulator that answers [rows] whatever it is asked. *)
Definition sim_gives (rows : Np.array) : env :=
  Env (fun _ _ => Returns (Np.array_val rows)) Lab.memory Lab.less.

(** The keyword argument [name] of a call. *)
Definition kwarg (name : string) (c : call) : option val :=
  option_map snd (find (fun kv => String.eqb (fst kv) name) (kwargs c)).

Fixpoint increasing (l : list nat) : bool :=
  match l with
  | a :: (b :: _) as r => Nat.ltb a b && increasing r
  | _ => true
  end.

(** A list of integers that go up strictly. *)
Definition breakpoints_of (v : val) : option (list nat) :=
  match as_list v with
  | Some l =>
      match all_some (map as_nat l) with
      | Some bps => if increasing bps then Some bps else None
      | None => None
      end
  | None => None
  end.

(** A [PiecewiseLinear] call has as many values as breakpoints, at least
    two of them, the breakpoints going up, and reads [m.Ci]. *)
Definition piecewise_ok (ev : event) : bool :=
  match ev with
  | ECall c _ =>
      if String.eqb (callee c) "PiecewiseLinear" then
        match kwarg "values" c, kwarg "breakpoints" c, kwarg "input_desc" c with
        | Some (VList vals), Some bps, Some (VAttr _ "Ci") =>
            match breakpoints_of bps with
            | Some l => Nat.eqb (List.length vals) (List.length l) && Nat.leb 2 (List.length l)
            | None => false
            end
        | _, _, _ => false
        end
      else true
  | EPrint _ => true
  end.


(** Every [Atom(...)] call returns. *)
Definition atoms_return (E : env) : Prop :=
  forall h symbol, exists v, lib E h (Call "Atom" [VStr symbol] []) = Returns v.

(** Site [i] names the neighbour [j], a site whose own row of neighbours
    holds nothing but [None]. *)
Definition lonely_neighbor (Canv : val) (E : env) (h : list event) (i j : nat) : Prop :=
  exists row_i row_j,
    Bimetallic.neighborhood Canv i E h = (Done row_i, [])
    /\ In (VNat j) row_i
    /\ 1 <= Bimetallic.count_neighbors row_i
    /\ Bimetallic.neighborhood Canv j E h = (Done row_j, [])
    /\ Bimetallic.count_neighbors row_j = 0.

(** A canvas of two sites; the first names the second, which has no
    neighbour of its own. *)
Definition lonely_memory (h : list event) (ref : val) : val :=
  match ref with
  | VAttr _ name =>
      if String.eqb name "NeighborhoodIndexes"
      then VList [VList [VInt 1]; VList [VNone]] else VNone
  | VOp op _ => if String.eqb op "len" then VInt 2 else VNone
  | _ => VNone
  end.

Definition lonely : env := Env (Lab.library 0) lonely_memory Lab.less.

(** The answer [v] of the lattice counts as [b]. *)
Definition counts_as (E : env) (v : val) (b : bool) : Prop :=
  exists h, truth v E h = (Done b, []).

(** The sites of [Sites] marked in [keep], in order. *)
Definition kept (Sites : list nat) (keep : list bool) : list nat :=
  map fst (filter snd (combine Sites keep)).


(** [GklCoefs[k, l] * 1 / sqrt(CNi) + GklCoefs[l, k] * 1 / sqrt(CNj)] *)
Definition bond_coef (G : val) (CNi CNj : nat) (k l : val) : val :=
  add (div (mul (item G (VTuple [k; l])) (VInt 1)) (sqrt (VNat CNi)))
      (div (mul (item G (VTuple [l; k])) (VInt 1)) (sqrt (VNat CNj))).

(** The table [GklCoefs], keyed by the atoms the eight [Atom] calls made. *)
Definition Gkl (a : list val) : val :=
  VDict [(VTuple [nth 0 a VNone; nth 1 a VNone], VFloat "3.520");
         (VTuple [nth 2 a VNone; nth 3 a VNone], VFloat "2.112");
         (VTuple [nth 4 a VNone; nth 5 a VNone], VFloat "2.580");
         (VTuple [nth 6 a VNone; nth 7 a VNone], VFloat "3.612")].

(** The entries for the bond from site [i] to its neighbour [j]. *)
Definition bond_entries (G : val) (rows : list (list val)) (Atoms : list val)
    (i : nat) (j : val) : list (val * val) :=
  match as_nat j with
  | Some j' =>
      flat_map (fun k =>
        map (fun l =>
               (VTuple [VNat i; j; k; l],
                bond_coef G (Bimetallic.count_neighbors (nth i rows []))
                            (Bimetallic.count_neighbors (nth j' rows [])) k l))
            Atoms) Atoms
  | None => []
  end.

(** All entries, in the order the loops make them. *)
Definition all_bond_entries (G : val) (rows : list (list val)) (Atoms : list val)
    : list (val * val) :=
  flat_map (fun i =>
    flat_map (fun j => if is_None j then [] else bond_entries G rows Atoms i j)
             (nth i rows []))
    (range (List.length rows)).

(** Every entry of every row is [None] or a site of the canvas that has a
    neighbour itself. *)
Definition no_lonely_site (rows : list (list val)) : Prop :=
  forall row x, In row rows -> In x row ->
    x = VNone
    \/ exists j, x = VNat j /\ j < List.length rows
                 /\ 1 <= Bimetallic.count_neighbors (nth j rows []).

(** The canvas holds the rows [rows] whatever happened before. *)
Definition canvas_holds (E : env) (Canv : val) (rows : list (list val)) : Prop :=
  forall h,
    mem E h (VOp "len" [Canv]) = VNat (List.length rows)
    /\ mem E h Canv@."NeighborhoodIndexes" = VList (map VList rows).

(** The two sites of [Lab.memory], each naming the other. *)
Definition paired_rows : list (list val) :=
  [VInt 1 :: repeat VNone 11; VInt 0 :: repeat VNone 11].

(** The design holds the points [pts] and the contents [contents]
    whatever happened before. *)
Definition design_holds (E : env) (D : val) (pts : list val) (contents : nat -> val) : Prop :=
  forall h,
    mem E h D@."Canvas"@."Points" = VList pts
    /\ forall i, mem E h (item D@."Contents" (VNat i)) = contents i.

(** Every [Design.add] call returns. *)
Definition adds_return (E : env) : Prop :=
  forall h c, callee c = "Design.add" -> exists v, lib E h c = Returns v.

(** The calls of one replication loop: for [k] from 0 to 3, every site in
    turn, shifted. *)
Definition replica_calls (P : val) (pts : list val) (contents : nat -> val)
    (shift : val -> nat -> val) : list call :=
  flat_map (fun k =>
    map (fun ip => Call "Design.add" [P; shift (snd ip) k; contents (fst ip)] [])
        (enumerate pts))
    (range 4).

(** The design counts as true, has [n] sites, and holds the contents [cs]
    and the points [ps] whatever happened before. *)
Definition design_sites (E : env) (D : val) (n : nat) (cs ps : list val) : Prop :=
  forall h,
    truth D E h = (Done true, [])
    /\ mem E h (VOp "len" [D]) = VNat n
    /\ mem E h D@."Contents" = VList cs
    /\ mem E h D@."Canvas"@."Points" = VList ps.

(** Every library call returns. *)
Definition all_return (E : env) : Prop :=
  forall h c, exists v, lib E h c = Returns v.

(** The points of the sites below [n] whose content is not [None]. *)
Definition occupied (cs ps : list val) (n : nat) : list val :=
  flat_map (fun i => if is_None (nth i cs VNone) then [] else [nth i ps VNone]) (range n).

(** Every call returns a new object; the data are those of [Lab.memory]. *)
Definition obliging : env :=
  Env (fun h _ => Returns (VObj (List.length h))) Lab.memory Lab.less.

(** What the solved model holds: the keys of [m.Zic] are the pairs [keys],
    its values are [z], whatever happened before; [Atom("S")] makes
    [atomS]. *)
Definition model_holds (E : env) (m : val) (keys : list (val * val))
    (z : val -> val -> val) (atomS : val) : Prop :=
  forall h,
    lib E h (Call "MaterialDescriptor.keys" [m@."Zic"] [])
    = Returns (VList (map (fun ic => VTuple [fst ic; snd ic]) keys))
    /\ (forall i c, mem E h (item m@."Zic"@."values" (VTuple [i; c])) = z i c)
    /\ lib E h (Call "Atom" [VStr "S"] []) = Returns atomS.

(** The calls that mark the sites: for every key whose value is above
    0.5, an atom is made and set. *)
Definition marking_calls (lt : val -> val -> bool) (D : val) (keys : list (val * val))
    (z : val -> val -> val) (atomS : val) : list call :=
  flat_map (fun ic =>
    if lt (VFloat "0.5") (z (fst ic) (snd ic))
    then [Call "Atom" [VStr "S"] []; Call "Design.setContent" [D; fst ic; atomS] []]
    else []) keys.

(** A solved model with two keys for site 0, one of them above 0.5. *)
Definition solved_model : env :=
  Env (fun h c =>
         if String.eqb (callee c) "MaterialDescriptor.keys"
         then Returns (VList [VTuple [VInt 0; VInt 0]; VTuple [VInt 0; VInt 1]])
         else Returns (VObj 9))
      (fun h ref =>
         match ref with
         | VOp _ [_; VTuple [_; VInt 0]] => Lab.f "9.0"
         | _ => Lab.f "0.0"
         end)
      Lab.less.

(* ================================================================== *)
(** * Rules for observers *)
(* ================================================================== *)

Section Observer.

Context {St : Type} (step : St -> event -> St).

Lemma observe_cons s ev t : observe step s (ev :: t) = observe step (step s ev) t.
Proof. reflexivity. Qed.

Lemma observe_app s t1 t2 : observe step s (t1 ++ t2) = observe step (observe step s t1) t2.
Proof. apply fold_left_app. Qed.

Lemma triple_ret {A} s (a : A) (Q : outcome A -> St -> Prop) :
  Q (Done a) s -> triple step s (ret a) Q.
Proof. intros H E h. exact H. Qed.

Lemma triple_raise {A} s e (Q : outcome A -> St -> Prop) :
  Q (Uncaught e) s -> triple step s (raise e) Q.
Proof. intros H E h. exact H. Qed.

Lemma triple_bind {A B} s (m : M A) (k : A -> M B) (Q : outcome B -> St -> Prop) :
  triple step s m (fun r s' =>
    match r with
    | Done a => triple step s' (k a) Q
    | Uncaught e => Q (Uncaught e) s'
    | Timeout => Q Timeout s'
    end) ->
  triple step s (bind m k) Q.
Proof.
  intros H E h. specialize (H E h). unfold bind.
  destruct (m E h) as [[a | e |] t1]; cbn [fst snd] in *; try exact H.
  specialize (H E (h ++ t1)).
  destruct (k a E (h ++ t1)) as [r t2]; cbn [fst snd] in *.
  rewrite observe_app. exact H.
Qed.

Lemma triple_call s c (Q : outcome val -> St -> Prop) :
  (forall v, Q (Done v) (step s (ECall c (Returns v)))) ->
  (forall e, Q (Uncaught e) (step s (ECall c (Raises e)))) ->
  triple step s (do_call c) Q.
Proof.
  intros Hv He E h. unfold do_call.
  destruct (lib E h c); cbn [fst snd]; auto.
Qed.

Lemma triple_print s line (Q : outcome unit -> St -> Prop) :
  Q (Done tt) (step s (EPrint line)) -> triple step s (print line) Q.
Proof. intros H E h. exact H. Qed.

Lemma triple_read s ref (Q : outcome val -> St -> Prop) :
  (forall v, Q (Done v) s) -> triple step s (read ref) Q.
Proof. intros H E h. apply H. Qed.

Lemma triple_float_lt s (Q : outcome (val -> val -> bool) -> St -> Prop) :
  (forall lt, Q (Done lt) s) -> triple step s float_lt Q.
Proof. intros H E h. apply H. Qed.

Lemma triple_of_option {A} s e (o : option A) (Q : outcome A -> St -> Prop) :
  (forall a, Q (Done a) s) -> Q (Uncaught e) s -> triple step s (of_option e o) Q.
Proof. intros Ha He. destruct o; [apply triple_ret | apply triple_raise]; auto. Qed.

Lemma triple_try {A} s (catches : exn -> bool) (body : M A) (handler : exn -> M A)
    (Q : outcome A -> St -> Prop) :
  triple step s body (fun r s' =>
    match r with
    | Uncaught e => if catches e then triple step s' (handler e) Q else Q (Uncaught e) s'
    | Done a => Q (Done a) s'
    | Timeout => Q Timeout s'
    end) ->
  triple step s (try_except catches body handler) Q.
Proof.
  intros H E h. specialize (H E h). unfold try_except.
  destruct (body E h) as [[a | e |] t1]; cbn [fst snd] in *; try exact H.
  destruct (catches e); cbn [fst snd]; [| exact H].
  specialize (H E (h ++ t1)).
  destruct (handler e E (h ++ t1)) as [r t2]; cbn [fst snd] in *.
  rewrite observe_app. exact H.
Qed.

Lemma triple_finally {A} s (body : M A) (cleanup : M unit) (Q : outcome A -> St -> Prop) :
  triple step s body (fun r s' =>
    match r with
    | Timeout => Q Timeout s'
    | _ => triple step s' cleanup (fun r2 s'' =>
             match r2 with
             | Done _ => Q r s''
             | Uncaught e => Q (Uncaught e) s''
             | Timeout => Q Timeout s''
             end)
    end) ->
  triple step s (finally body cleanup) Q.
Proof.
  intros H E h. specialize (H E h). unfold finally.
  destruct (body E h) as [[a | e |] t1]; cbn [fst snd] in *; try exact H.
  - specialize (H E (h ++ t1)).
    destruct (cleanup E (h ++ t1)) as [[u | e2 |] t2]; cbn [fst snd] in *;
      rewrite observe_app; exact H.
  - specialize (H E (h ++ t1)).
    destruct (cleanup E (h ++ t1)) as [[u | e2 |] t2]; cbn [fst snd] in *;
      rewrite observe_app; exact H.
Qed.

(** A loop is verified with an invariant on the state of the observer. *)
Lemma triple_fold {X S} (I : St -> Prop) s (l : list X) (body : X -> S -> M S) acc
    (Q : outcome S -> St -> Prop) :
  I s ->
  (forall s' x a, I s' ->
     triple step s' (body x a) (fun r s'' =>
       match r with
       | Done _ => I s''
       | Uncaught e => Q (Uncaught e) s''
       | Timeout => Q Timeout s''
       end)) ->
  (forall s' a, I s' -> Q (Done a) s') ->
  triple step s (fold_m l body acc) Q.
Proof.
  intros Hs Hbody Hend. revert s acc Hs.
  induction l as [| x l IH]; intros s acc Hs; cbn [fold_m].
  - apply triple_ret. auto.
  - apply triple_bind. intros E h. specialize (Hbody s x acc Hs E h).
    destruct (body x acc E h) as [[a | e |] t]; cbn [fst snd] in *; auto.
Qed.

Lemma triple_while {S} (I : St -> S -> Prop) fuel s (cond : S -> M bool)
    (body : S -> M S) (v : S) (Q : outcome S -> St -> Prop) :
  I s v ->
  (forall s v, I s v ->
     triple step s (cond v) (fun r s' =>
       match r with
       | Done true =>
           triple step s' (body v) (fun r2 s'' =>
             match r2 with
             | Done v' => I s'' v'
             | Uncaught e => Q (Uncaught e) s''
             | Timeout => Q Timeout s''
             end)
       | Done false => Q (Done v) s'
       | Uncaught e => Q (Uncaught e) s'
       | Timeout => Q Timeout s'
       end)) ->
  (forall s v, I s v -> Q Timeout s) ->
  triple step s (while_ fuel cond body v) Q.
Proof.
  intros Hs Hstep Hout. revert s v Hs.
  induction fuel as [| fuel IH]; intros s v Hs; cbn [while_].
  - intros E h. cbn [fst snd observe fold_left]. eauto.
  - apply triple_bind. intros E h. specialize (Hstep s v Hs E h).
    destruct (cond v E h) as [[[|] | e |] t]; cbn [fst snd] in *; auto.
    + apply triple_bind. intros E' h'. specialize (Hstep E' h').
      destruct (body v E' h') as [[v' | e |] t']; cbn [fst snd] in *; auto.
    + apply triple_ret. exact Hstep.
Qed.

Lemma triple_weaken {A} s (m : M A) (Q Q' : outcome A -> St -> Prop) :
  triple step s m Q -> (forall r s', Q r s' -> Q' r s') -> triple step s m Q'.
Proof. intros H HQ E h. apply HQ, H. Qed.

(** What a triple step says about the run of a whole notebook. *)
Lemma triple_run {A} s (m : M A) (Q : outcome A -> St -> Prop) E :
  triple step s m Q -> Q (result m E) (observe step s (trace m E)).
Proof. intros H. apply H. Qed.

End Observer.

(* ------------------------------------------------------------------ *)
(** ** Computations that talk to nobody *)
(* ------------------------------------------------------------------ *)

Lemma quiet_ret {A} (a : A) : quiet (ret a).
Proof. intros E h. split; [reflexivity | discriminate]. Qed.

Lemma quiet_raise {A} e : quiet (@raise A e).
Proof. intros E h. split; [reflexivity | discriminate]. Qed.

Lemma quiet_read ref : quiet (read ref).
Proof. intros E h. split; [reflexivity | discriminate]. Qed.

Lemma quiet_float_lt : quiet float_lt.
Proof. intros E h. split; [reflexivity | discriminate]. Qed.

Lemma quiet_bind {A B} (m : M A) (k : A -> M B) :
  quiet m -> (forall a, quiet (k a)) -> quiet (bind m k).
Proof.
  intros Hm Hk E h. unfold bind. destruct (Hm E h) as [Ht Hr].
  destruct (m E h) as [[a | e |] t]; cbn [fst snd] in *; subst.
  - destruct (Hk a E (h ++ [])) as [Ht' Hr'].
    destruct (k a E (h ++ [])) as [r t']; cbn [fst snd] in *. subst. auto.
  - split; [reflexivity | discriminate].
  - congruence.
Qed.

Lemma quiet_of_option {A} e (o : option A) : quiet (of_option e o).
Proof. destruct o; [apply quiet_ret | apply quiet_raise]. Qed.

Lemma quiet_truth v : quiet (truth v).
Proof.
  destruct v; cbn [truth]; try apply quiet_ret.
  all: apply quiet_bind; [apply quiet_read | intro; apply quiet_ret].
Qed.

Lemma quiet_unpack2 v : quiet (unpack2 v).
Proof.
  unfold unpack2. destruct (as_list v) as [[| a [| b [| c l]]] |];
    first [apply quiet_ret | apply quiet_raise].
Qed.

Lemma quiet_py_min l : quiet (py_min l).
Proof. destruct l; [apply quiet_raise | apply quiet_ret]. Qed.

Lemma quiet_one_over n : quiet (one_over n).
Proof. unfold one_over. destruct (Nat.eqb n 0); [apply quiet_raise | apply quiet_ret]. Qed.

Lemma quiet_read_list ref : quiet (read_list ref).
Proof. apply quiet_bind; [apply quiet_read | intro; apply quiet_of_option]. Qed.

Lemma quiet_read_points ref : quiet (read_points ref).
Proof. apply quiet_bind; [apply quiet_read | intro; apply quiet_of_option]. Qed.

Lemma quiet_read_neighbors ref : quiet (read_neighbors ref).
Proof. apply quiet_bind; [apply quiet_read | intro; apply quiet_of_option]. Qed.

Lemma quiet_read_len o : quiet (read_len o).
Proof. apply quiet_bind; [apply quiet_read | intro; apply quiet_of_option]. Qed.

Lemma quiet_index_of ref i : quiet (index_of ref i).
Proof. apply quiet_bind; [apply quiet_read_list | intro; apply quiet_of_option]. Qed.

Create HintDb quiet.
#[export] Hint Resolve quiet_ret quiet_raise quiet_read quiet_float_lt quiet_of_option
  quiet_truth quiet_unpack2 quiet_py_min quiet_one_over quiet_read_list
  quiet_read_points quiet_read_neighbors quiet_read_len quiet_index_of : quiet.

Lemma triple_quiet {St A} (step : St -> event -> St) s (m : M A)
    (Q : outcome A -> St -> Prop) :
  quiet m ->
  (forall a, Q (Done a) s) ->
  (forall e, Q (Uncaught e) s) ->
  triple step s m Q.
Proof.
  intros Hq Ha He E h. destruct (Hq E h) as [Ht Hr]. rewrite Ht.
  destruct (fst (m E h)); cbn; auto. congruence.
Qed.

(* ------------------------------------------------------------------ *)
(** ** Walking through a script *)
(* ------------------------------------------------------------------ *)

Ltac head_of t :=
  lazymatch t with
  | ?f _ => head_of f
  | _ => t
  end.

(** Bring the state of the observer to normal form; when it hangs on a
    value the library returned, look at the value. *)
Ltac settle :=
  cbv beta iota zeta; cbn [fst snd];
  lazymatch goal with
  | |- @triple ?St ?A ?step ?s ?m ?Q =>
      let s' := eval vm_compute in s in
      change (@triple St A step s' m Q);
      try match s' with
          | context [match ?v with _ => _ end] => is_var v; destruct v
          end
  | _ => idtac
  end.

(** One statement of the script. *)
Ltac walk1 :=
  lazymatch goal with
  | |- @triple ?St ?A ?step ?s ?m ?Q =>
      lazymatch m with
      | bind _ _ => apply triple_bind
      | ret _ => apply triple_ret
      | raise _ => apply triple_raise
      | do_call _ => apply triple_call; intro
      | print _ => apply triple_print
      | try_except _ _ _ => apply triple_try
      | finally _ _ => apply triple_finally
      | fold_m _ _ _ =>
          apply (triple_fold step (eq s));
          [ reflexivity | intros ? ? ? <- | intros ? ? <- ]
      | (if ?b then ?x else ?y) =>
          let b' := eval vm_compute in b in
          lazymatch b' with
          | true => change (@triple St A step s x Q)
          | false => change (@triple St A step s y Q)
          | _ => destruct b
          end
      | (match ?x with _ => _ end) => destruct x
      | _ =>
          first
            [ apply triple_quiet; [ solve [ auto with quiet ] | intro | intro ]
            | let f := head_of m in unfold f ]
      end
  | |- (if ?b then _ else _) => destruct b
  end.

(** A [while] loop that leaves the observer where it is. *)
Ltac walk_while :=
  lazymatch goal with
  | |- @triple ?St ?A ?step ?s (while_ _ _ _ _) ?Q =>
      apply (triple_while step (fun s' _ => s' = s));
      [ reflexivity | intros ? ? -> | intros ? ? -> ]
  end.

(** Straight-line code and [for] loops; stops in front of a [while]. *)
Ltac walk_seq fin :=
  repeat (settle;
          lazymatch goal with
          | |- triple _ _ (while_ _ _ _ _) _ => fail
          | _ => first [ walk1 | reflexivity | solve [ fin ] ]
          end).

(** The whole script; [fin] closes what is left at the leaves. *)
Ltac walk fin := repeat (settle; first [ walk_while | walk1 | reflexivity | solve [ fin ] ]).


(* ------------------------------------------------------------------ *)
(** ** From observers back to lists of events *)
(* ------------------------------------------------------------------ *)

Lemma observe_all P t ok :
  observe (all_step P) ok t = true -> ok = true /\ Forall (fun ev => P ev = true) t.
Proof.
  revert ok. induction t as [| ev t IH]; intros ok H; cbn in H.
  - auto.
  - apply IH in H. destruct H as [H Ht]. unfold all_step in H.
    apply andb_true_iff in H. destruct H. auto.
Qed.

Lemma observe_count f t n :
  observe (count_step f) n t = n + count_calls f t.
Proof.
  unfold count_calls, callees, calls_of. revert n.
  induction t as [| ev t IH]; intros n; cbn [observe fold_left].
  - cbn. lia.
  - fold (observe (count_step f) (count_step f n ev) t). rewrite IH.
    destruct ev as [c r | line]; cbn [count_step flat_map app map filter].
    + rewrite String.eqb_sym. destruct (String.eqb f (callee c)); cbn [List.length]; lia.
    + reflexivity.
Qed.

Lemma Forall_true_forallb {X} (P : X -> bool) l :
  Forall (fun x => P x = true) l <-> forallb P l = true.
Proof. rewrite forallb_forall, Forall_forall. reflexivity. Qed.

(* ================================================================== *)
(** * File system and solver boundary (C3) *)
(* ================================================================== *)

Lemma boundary_audit nb fuel :
  triple (all_step boundary_ok) true (script nb fuel) (fun _ ok => ok = true).
Proof. destruct nb; unfold script; walk ltac:(reflexivity). Qed.


(* ================================================================== *)
(** * Solver options (C4) *)
(* ================================================================== *)

(** C4, counterexample.  The nanowire notebook calls
    [m.maximize(m.Ecoh, tilim=360, solver="cplex")]: a third option. *)
Lemma C4_counterexample : ~ only_limits.
Proof.
  intros H. specialize (H nanowire 0%nat (Lab.works 0)).
  apply Forall_true_forallb in H. vm_compute in H. discriminate.
Qed.

Lemma options_audit nb fuel :
  triple (all_step (solver_options_ok nb)) true (script nb fuel) (fun _ ok => ok = true).
Proof. destruct nb; unfold script; walk ltac:(reflexivity). Qed.

(** C4, amended.  Every [maximize] call of every notebook passes scalar
    keyword options only, always a time limit [tilim] as an integer, and
    besides it nothing (perovskite, monometallic, both surfaces, first solve
    of the bimetallic notebook), the tree memory limit [trelim] (second
    solve of the bimetallic notebook) or the solver name [solver]
    (nanowire). *)
Theorem C4_solver_options :
  forall nb fuel E,
    Forall (fun ev => solver_options_ok nb ev = true) (events nb fuel E).
Proof.
  intros nb fuel E.
  pose proof (triple_run _ true _ _ E (options_audit nb fuel)) as H.
  apply observe_all in H. apply H.
Qed.



(* ================================================================== *)
(** * One blocking solver call per optimization step (C5) *)
(* ================================================================== *)

(** C5, counterexample.  The bimetallic notebook optimizes two models, the
    copper cluster and then the alloy on it: two [maximize] calls. *)
Lemma C5_counterexample : ~ solves_once.
Proof.
  intros H. specialize (H bimetallic 0%nat (Lab.works 0) eq_refl).
  vm_compute in H. specialize (H eq_refl). discriminate.
Qed.

Ltac count_leaf :=
  vm_compute; split; [ repeat constructor | intro; first [ discriminate | reflexivity ] ].

Lemma maximize_count nb fuel :
  triple (count_step "MatOptModel.maximize") 0 (script nb fuel)
    (fun r n => n <= solves nb /\ (is_Done r = true -> n = solves nb)).
Proof. destruct nb; unfold script; walk count_leaf. Qed.

Lemma ripemodel_count_body v :
  triple (count_step "ripe.ripemodel") 0 (CSTR.loop_body v)
    (fun r n => n <= 1 /\ (is_Done r = true -> n = 1)).
Proof. walk count_leaf. Qed.

Lemma boundary_known ev : boundary_ok ev = true -> known_call ev = true.
Proof.
  destruct ev as [c r | line]; cbn; [| reflexivity].
  destruct (effect_of (callee c)); [reflexivity | discriminate].
Qed.

(** C5, amended.  A run is one sequence of blocking library calls, none
    of which starts a thread or a process of the notebook's own (each is a
    function listed in [effect_of]).  A MatOpt notebook calls [m.maximize]
    at most once, and exactly once when it runs to its end; the bimetallic
    notebook, which optimizes two models, at most twice, and exactly twice
    when it runs to its end.  One pass through the body of the RIPE
    refinement loop calls [ripe.ripemodel] at most once, and exactly once
    when the pass completes. *)
Theorem C5_solver_calls :
  (forall nb fuel E, Forall (fun ev => known_call ev = true) (events nb fuel E))
  /\ (forall nb fuel E,
        uses_matopt nb = true ->
        count_calls "MatOptModel.maximize" (events nb fuel E) <= solves nb
        /\ (ending nb fuel E = Done tt ->
            count_calls "MatOptModel.maximize" (events nb fuel E) = solves nb))
  /\ (forall v E h,
        count_calls "ripe.ripemodel" (snd (CSTR.loop_body v E h)) <= 1
        /\ (is_Done (fst (CSTR.loop_body v E h)) = true ->
            count_calls "ripe.ripemodel" (snd (CSTR.loop_body v E h)) = 1)).
Proof.
  split; [| split].
  - intros nb fuel E.
    pose proof (triple_run _ true _ _ E (boundary_audit nb fuel)) as H.
    apply observe_all in H. destruct H as [_ H].
    eapply Forall_impl; [| exact H]. apply boundary_known.
  - intros nb fuel E _.
    pose proof (triple_run _ 0 _ _ E (maximize_count nb fuel)) as H.
    rewrite observe_count in H. cbn [plus] in H.
    destruct H as [H1 H2]. split; [exact H1 |].
    intros Hd. apply H2. unfold ending in Hd. rewrite Hd. reflexivity.
  - intros v E h.
    pose proof (ripemodel_count_body v E h) as H. cbv beta in H.
    rewrite observe_count in H. exact H.
Qed.

(** Where everything works the bimetallic notebook solves twice. *)
Lemma C5_witness :
  count_calls "MatOptModel.maximize" (events bimetallic 0 (Lab.works 0)) <= 2
  /\ (ending bimetallic 0 (Lab.works 0) = Done tt ->
      count_calls "MatOptModel.maximize" (events bimetallic 0 (Lab.works 0)) = 2).
Proof.
  apply (proj1 (proj2 C5_solver_calls) bimetallic 0%nat (Lab.works 0)). reflexivity.
Defined.

(* ================================================================== *)
(** * The guard around the solve call (C1) *)
(* ================================================================== *)

(** C1, counterexample.  In the chemical looping notebook
    [results = ripe.ripemodel(...)] stands alone in its cell: when it raises,
    nothing is printed and the exception ends the run. *)
Lemma C1_counterexample : ~ guard_claim.
Proof.
  intros H.
  destruct (H clc 0%nat (Lab.failing is_ripemodel RuntimeError) clc_fit RuntimeError)
    as [_ Hend].
  - vm_compute. tauto.
  - reflexivity.
  - apply Hend. reflexivity.
Qed.

Lemma guard_audit nb fuel :
  triple (guard_step (bare_guarded nb)) Calm (script nb fuel) (fun _ s => s = Calm).
Proof. destruct nb; unfold script; walk ltac:(reflexivity). Qed.

Lemma guard_broken watched t : observe (guard_step watched) Broken t = Broken.
Proof. induction t; cbn; auto. Qed.

Lemma guard_sound watched t :
  observe (guard_step watched) Calm t = Calm ->
  forall pre c e post,
    t = pre ++ ECall c (Raises e) :: post ->
    watched c = true ->
    exists post', post = EPrint [VStr no_solver_msg] :: post'.
Proof.
  intros Hobs pre c e post Ht Hw.
  assert (Hpending : forall t', observe (guard_step watched) Pending t' = Calm ->
            exists post', t' = EPrint [VStr no_solver_msg] :: post').
  { intros [| ev t'] H; cbn in H; [discriminate |].
    destruct (is_fallback ev) eqn:Hf.
    - destruct ev as [c0 r0 | [| [] [|]]]; try discriminate.
      cbn in Hf. apply String.eqb_eq in Hf. subst. eauto.
    - fold (observe (guard_step watched) Broken t') in H.
      rewrite guard_broken in H. discriminate. }
  assert (Hgen : forall s, s <> Broken ->
            observe (guard_step watched) s (pre ++ ECall c (Raises e) :: post) = Calm ->
            exists post', post = EPrint [VStr no_solver_msg] :: post').
  { clear Hobs Ht t. induction pre as [| ev pre IH]; intros s Hs H.
    - cbn [app observe fold_left] in H.
      fold (observe (guard_step watched) (guard_step watched s (ECall c (Raises e))) post) in H.
      destruct s; [| | congruence].
      + cbn in H. rewrite Hw in H. apply Hpending. exact H.
      + cbn [guard_step is_fallback] in H. rewrite guard_broken in H. discriminate.
    - cbn [app observe fold_left] in H.
      fold (observe (guard_step watched) (guard_step watched s ev)
              (pre ++ ECall c (Raises e) :: post)) in H.
      apply (IH (guard_step watched s ev)); [| exact H].
      intros Hb. rewrite Hb, guard_broken in H. discriminate. }
  subst t. apply (Hgen Calm); [discriminate | exact Hobs].
Qed.

Lemma raised_keeps watched t s e :
  In e s -> In e (observe (raised_step watched) s t).
Proof.
  revert s. induction t as [| ev t IH]; intros s H; cbn [observe fold_left]; [exact H |].
  apply IH. destruct ev as [c [v | e0] | line]; cbn; auto.
  destruct (watched c); cbn; auto.
Qed.

Lemma raised_sound watched t s c e :
  In (ECall c (Raises e)) t -> watched c = true ->
  In e (observe (raised_step watched) s t).
Proof.
  revert s. induction t as [| ev t IH]; intros s Hin Hw; [destruct Hin |].
  cbn [observe fold_left]. destruct Hin as [Heq | Hin].
  - subst ev. apply raised_keeps. cbn. rewrite Hw. left. reflexivity.
  - apply IH; assumption.
Qed.

Lemma raised_complete watched t s e :
  In e (observe (raised_step watched) s t) ->
  In e s \/ exists c, In (ECall c (Raises e)) t /\ watched c = true.
Proof.
  revert s. induction t as [| ev t IH]; intros s H; cbn [observe fold_left] in H; [auto |].
  apply IH in H. destruct H as [H | [c [Hin Hw]]].
  - destruct ev as [c [v | e0] | line]; cbn in H; auto.
    destruct (watched c) eqn:Hw; auto.
    destruct H as [<- | H]; auto.
    right. exists c. split; [left; reflexivity | exact Hw].
  - right. exists c. split; [right; exact Hin | exact Hw].
Qed.

Ltac raised_leaf := vm_compute; intuition congruence.

Lemma fit_unguarded nb fuel :
  uses_matopt nb = false ->
  triple (raised_step is_ripemodel) [] (script nb fuel)
    (fun r s => forall e, In e s -> r = Uncaught e).
Proof. destruct nb; try discriminate; intros _; unfold script; walk raised_leaf. Qed.

Lemma final_lost watched t seen :
  snd (observe (final_step watched) (seen, false) t) = false.
Proof.
  revert seen. induction t as [| ev t IH]; intros seen; cbn [observe fold_left]; [reflexivity |].
  apply IH.
Qed.

Lemma final_sound watched t seen :
  snd (observe (final_step watched) (seen, true) t) = true ->
  (seen = true -> t = [])
  /\ forall c e, In (ECall c (Raises e)) t -> watched c = true ->
       exists pre, t = pre ++ [ECall c (Raises e)].
Proof.
  revert seen. induction t as [| ev t IH]; intros seen H.
  - split; [reflexivity | intros c e []].
  - cbn [observe fold_left] in H. unfold final_step at 2 in H. cbn [fst snd andb] in H.
    destruct seen; cbn [negb orb] in H.
    + fold (observe (final_step watched) (true, false) t) in H.
      rewrite final_lost in H. discriminate.
    + fold (observe (final_step watched) (raises_in watched ev, true) t) in H.
      apply IH in H. destruct H as [Hnil Hlast]. split; [discriminate |].
      intros c e [-> | Hin] Hw.
      * cbn in Hnil. rewrite (Hnil Hw). exists []. reflexivity.
      * destruct (Hlast c e Hin Hw) as [pre ->]. exists (ev :: pre). reflexivity.
Qed.

Lemma fit_final nb fuel :
  uses_matopt nb = false ->
  triple (final_step is_ripemodel) (false, true) (script nb fuel)
    (fun _ s => snd s = true).
Proof. destruct nb; try discriminate; intros _; unfold script; walk ltac:(reflexivity). Qed.

(** C1, amended.  Every [m.maximize] call of the MatOpt notebooks stands in
    a [try].  With the bare [except:] (all of them but the first solve of
    the bimetallic notebook), whenever the call raises, the next thing that
    happens is the fallback message being printed.  The first solve of the
    bimetallic notebook is guarded by [except Exception as err: D = None]:
    an exception below [Exception] is swallowed without a message, any
    other ends the run.  The [ripe.ripemodel] calls of the two RIPE
    notebooks are not guarded: when one raises, the run ends there, with
    that exception; nothing is printed after the call. *)
Theorem C1_solve_guard :
  (forall nb fuel E pre c e post,
      events nb fuel E = pre ++ ECall c (Raises e) :: post ->
      bare_guarded nb c = true ->
      exists post', post = EPrint [VStr no_solver_msg] :: post')
  /\ (forall m E h e,
        lib E h (first_solve m) = Raises e ->
        Bimetallic.cell_first_solve m E h
        = (if is_Exception e then Done VNone else Uncaught e,
           [ECall (first_solve m) (Raises e)]))
  /\ (forall nb fuel E c e,
        uses_matopt nb = false ->
        In (ECall c (Raises e)) (events nb fuel E) ->
        is_ripemodel c = true ->
        ending nb fuel E = Uncaught e
        /\ exists pre, events nb fuel E = pre ++ [ECall c (Raises e)]).
Proof.
  split; [| split].
  - intros nb fuel E pre c e post Ht Hw.
    pose proof (triple_run _ Calm _ _ E (guard_audit nb fuel)) as H.
    exact (guard_sound _ _ H pre c e post Ht Hw).
  - intros m E h e He.
    unfold Bimetallic.cell_first_solve, except_Exception, try_except, call_kw, do_call.
    fold (first_solve m). rewrite He. destruct (is_Exception e); reflexivity.
  - intros nb fuel E c e Hnb Hin Hfit. split.
    + pose proof (triple_run _ [] _ _ E (fit_unguarded nb fuel Hnb)) as H.
      apply H. eapply raised_sound; eauto.
    + pose proof (triple_run _ (false, true) _ _ E (fit_final nb fuel Hnb)) as H.
      apply final_sound in H. destruct H as [_ H]. eapply H; eauto.
Qed.

(** Where no solver is installed the nanowire notebook prints the message
    right after the failed call; a failing fit ends the CLC notebook. *)
Lemma C1_witness :
  (exists post',
      skipn 33 (events nanowire 0 Lab.no_solver) = EPrint [VStr no_solver_msg] :: post')
  /\ ending clc 0 (Lab.failing is_ripemodel RuntimeError) = Uncaught RuntimeError.
Proof.
  split.
  - apply (proj1 C1_solve_guard nanowire 0%nat Lab.no_solver
             (firstn 32 (events nanowire 0 Lab.no_solver))
             nanowire_solve Lab.ApplicationError).
    + vm_compute. reflexivity.
    + reflexivity.
  - apply (proj1 (proj2 (proj2 C1_solve_guard) clc 0%nat
             (Lab.failing is_ripemodel RuntimeError) clc_fit RuntimeError eq_refl
             ltac:(vm_compute; tauto) eq_refl)).
Defined.

(* ================================================================== *)
(** * Failures of the other calls propagate (C6) *)
(* ================================================================== *)

Ltac failure_leaf := unfold unhandled; vm_compute; intuition (subst; eauto; congruence).

Lemma failure_audit nb fuel :
  triple failure_step ([], []) (script nb fuel) unhandled.
Proof. destruct nb; unfold script; walk failure_leaf. Qed.

Lemma observe_failure t s :
  observe failure_step s t
  = (observe (raised_step other_call) (fst s) t,
     observe (raised_step cleanup_call) (snd s) t).
Proof.
  revert s. induction t as [| ev t IH]; intros [s1 s2]; cbn [observe fold_left fst snd].
  - reflexivity.
  - fold (observe failure_step (failure_step (s1, s2) ev) t). rewrite IH. reflexivity.
Qed.

(** C6.  No notebook handles the exception of any call other than
    [m.maximize]: when such a call raises (reading [confs.zip] or [clc.csv],
    building a canvas or a model, writing a file, ...), the run ends with
    that exception uncaught.  The one thing that can come in between is
    Python's own: a call inside [with TemporaryDirectory()] fails, the
    directory is cleaned up on the way out, and if the cleanup raises too,
    the run ends with the exception of the cleanup. *)
Theorem C6_failures_propagate :
  forall nb fuel E c e,
    In (ECall c (Raises e)) (events nb fuel E) ->
    is_maximize c = false ->
    ending nb fuel E = Uncaught e
    \/ exists c' e',
         callee c' = "__exit__"
         /\ In (ECall c' (Raises e')) (events nb fuel E)
         /\ ending nb fuel E = Uncaught e'.
Proof.
  intros nb fuel E c e Hin Hmax.
  pose proof (triple_run _ ([], []) _ _ E (failure_audit nb fuel)) as H.
  rewrite observe_failure in H. destruct H as [H1 H2]. cbn [fst snd] in *.
  assert (Hcleanup : forall e', In e' (observe (raised_step cleanup_call) []
                                        (trace (script nb fuel) E)) ->
            exists c', callee c' = "__exit__"
                       /\ In (ECall c' (Raises e')) (events nb fuel E)).
  { intros e' He'. apply raised_complete in He'. destruct He' as [[] | [c' [Hc' Hw]]].
    exists c'. split; [| exact Hc']. apply String.eqb_eq. exact Hw. }
  destruct (cleanup_call c) eqn:Hc.
  - left. apply H2. eapply raised_sound; eauto.
  - destruct (H1 e) as [Hr | [e' [He' Hr]]].
    + eapply raised_sound; eauto.
      unfold other_call. unfold cleanup_call in Hc. rewrite Hmax, Hc. reflexivity.
    + left. exact Hr.
    + right. destruct (Hcleanup e' He') as [c' [Hn Hc']]. eauto.
Qed.

(** Without [clc.csv] the CLC notebook ends in the [FileNotFoundError]. *)
Lemma C6_witness :
  ending clc 0 (Lab.failing (fun c => String.eqb (callee c) "np.genfromtxt") FileNotFoundError)
  = Uncaught FileNotFoundError
  \/ exists c' e',
       callee c' = "__exit__"
       /\ In (ECall c' (Raises e'))
            (events clc 0
               (Lab.failing (fun c => String.eqb (callee c) "np.genfromtxt") FileNotFoundError))
       /\ ending clc 0
            (Lab.failing (fun c => String.eqb (callee c) "np.genfromtxt") FileNotFoundError)
          = Uncaught e'.
Proof.
  apply (C6_failures_propagate clc 0%nat _ clc_read FileNotFoundError).
  - vm_compute. tauto.
  - reflexivity.
Defined.



(* ================================================================== *)
(** * Results only after a successful solve (C8) *)
(* ================================================================== *)

Lemma guarded_maximize_raises m func options E h e :
  lib E h (Call "MatOptModel.maximize" [m; func] options) = Raises e ->
  guarded_maximize m func options E h
  = (Done VNone,
     [ECall (Call "MatOptModel.maximize" [m; func] options) (Raises e);
      EPrint [VStr no_solver_msg]]).
Proof.
  intros He. unfold guarded_maximize, bare, try_except, call_kw, do_call.
  rewrite He. reflexivity.
Qed.

Lemma result_lost t d : fst (observe result_step (false, d) t) = false.
Proof.
  revert d. induction t as [| ev t IH]; intros d; [reflexivity |].
  rewrite observe_cons.
  destruct ev as [c r | line]; cbn [result_step fst snd andb]; [| apply IH].
  destruct (is_maximize c); [apply IH |]. destruct (touches_result c); apply IH.
Qed.

Lemma touches_not_solve c : touches_result c = true -> is_maximize c = false.
Proof.
  unfold touches_result, is_write, is_maximize, effect_of, one_of.
  destruct (String.eqb (callee c) "MatOptModel.maximize") eqn:H; [| reflexivity].
  apply String.eqb_eq in H. rewrite H. vm_compute. discriminate.
Qed.

Lemma solved_event ev :
  solved ev = true ->
  exists s v, ev = ECall s (Returns v) /\ is_maximize s = true /\ v <> VNone.
Proof.
  destruct ev as [s [v | e] | line]; cbn; try discriminate.
  intros H. apply andb_true_iff in H. destruct H as [Hs Hv].
  exists s, v. repeat split; auto. intros ->. discriminate.
Qed.

Lemma result_sound pre : forall d c r post,
  fst (observe result_step (true, d) (pre ++ ECall c r :: post)) = true ->
  touches_result c = true ->
  (d = true /\ Forall (fun ev => is_solve_event ev = false) pre)
  \/ exists pre1 s v mid,
       pre = pre1 ++ ECall s (Returns v) :: mid
       /\ is_maximize s = true /\ v <> VNone
       /\ Forall (fun ev => is_solve_event ev = false) mid.
Proof.
  induction pre as [| ev pre IH]; intros d c r post H Ht.
  - cbn [app] in H. rewrite observe_cons in H. cbn [result_step] in H.
    rewrite (touches_not_solve c Ht), Ht in H. cbn [fst snd andb] in H.
    destruct d; [left; split; [reflexivity | constructor] |].
    rewrite result_lost in H. discriminate.
  - cbn [app] in H. rewrite observe_cons in H.
    destruct ev as [c0 r0 | line]; cbn [result_step] in H.
    + destruct (is_maximize c0) eqn:Hm; cbn [fst snd] in H.
      * destruct (IH _ _ _ _ H Ht) as [[Hd Hall] | (pre1 & s & v & mid & -> & Hs & Hv & Hall)].
        -- right. destruct (solved_event _ Hd) as (s & v & Heq & Hs & Hv).
           exists [], s, v, pre. rewrite Heq. cbn. auto.
        -- right. exists (ECall c0 r0 :: pre1), s, v, mid. cbn. auto.
      * destruct (touches_result c0) eqn:Ht0; cbn [fst snd andb] in H.
        -- destruct d; [| rewrite result_lost in H; discriminate].
           destruct (IH _ _ _ _ H Ht) as [[Hd Hall] | (pre1 & s & v & mid & -> & Hs & Hv & Hall)].
           ++ left. split; [reflexivity |]. constructor; [cbn; exact Hm | exact Hall].
           ++ right. exists (ECall c0 r0 :: pre1), s, v, mid. cbn. auto.
        -- destruct (IH _ _ _ _ H Ht) as [[Hd Hall] | (pre1 & s & v & mid & -> & Hs & Hv & Hall)].
           ++ left. split; [exact Hd |]. constructor; [cbn; exact Hm | exact Hall].
           ++ right. exists (ECall c0 r0 :: pre1), s, v, mid. cbn. auto.
    + destruct (IH _ _ _ _ H Ht) as [[Hd Hall] | (pre1 & s & v & mid & -> & Hs & Hv & Hall)].
      * left. split; [exact Hd |]. constructor; [reflexivity | exact Hall].
      * right. exists (EPrint line :: pre1), s, v, mid. cbn. auto.
Qed.

Lemma result_audit nb fuel :
  triple result_step (true, false) (script nb fuel) (fun _ s => fst s = true).
Proof. destruct nb; unfold script; walk ltac:(reflexivity). Qed.

(** The cell after the first solve of the bimetallic notebook, when
    [D] is [None], only makes the empty canvas. *)
Lemma new_canvas_without_design Lat :
  triple (all_step (fun ev => negb (touches ev))) true
    (Bimetallic.cell_new_canvas Lat VNone) (fun _ ok => ok = true).
Proof. walk ltac:(reflexivity). Qed.

(** C8.  When the [maximize] call of a guarded solve cell raises, the cell
    prints the message and leaves the design variable [None].  With [None]
    the processing cell that follows does nothing at all: no [setContent],
    no [add], no file (in the bimetallic notebook the cell after the first
    solve then only makes the empty canvas).  And in every run, a call that
    changes a design or writes result.pdb, periodic_result.pdb, result.cfg
    or periodic_result.cfg comes after a [maximize] call that returned a
    design, with no other [maximize] call in between. *)
Theorem C8_results_need_a_design :
  (forall nb cell m E h e,
      solve_cell nb = Some cell ->
      lib E h (solve_call nb m) = Raises e ->
      cell m E h
      = (Done VNone, [ECall (solve_call nb m) (Raises e); EPrint [VStr no_solver_msg]]))
  /\ (forall m E h e,
        lib E h (first_solve m) = Raises e -> is_Exception e = true ->
        Bimetallic.cell_first_solve m E h = (Done VNone, [ECall (first_solve m) (Raises e)]))
  /\ (forall a b c E h,
        Nanowire.cell_process a b VNone E h = (Done tt, [])
        /\ Perovskite.cell_process a b VNone E h = (Done tt, [])
        /\ Monometallic.cell_process VNone E h = (Done tt, [])
        /\ Surface.cell_process a b c VNone E h = (Done tt, [])
        /\ Bifunctional.cell_process a b VNone E h = (Done tt, [])
        /\ Bimetallic.cell_process VNone E h = (Done tt, [])
        /\ Forall (fun ev => touches ev = false) (snd (Bimetallic.cell_new_canvas a VNone E h)))
  /\ (forall nb fuel E pre c r post,
        events nb fuel E = pre ++ ECall c r :: post ->
        touches_result c = true ->
        exists pre1 s v mid,
          pre = pre1 ++ ECall s (Returns v) :: mid
          /\ is_maximize s = true /\ v <> VNone
          /\ Forall (fun ev => is_solve_event ev = false) mid).
Proof.
  split; [| split; [| split]].
  - intros nb cell m E h e Hcell He.
    destruct nb; cbn in Hcell; inversion Hcell; subst cell;
      apply guarded_maximize_raises; exact He.
  - intros m E h e He Hex.
    unfold Bimetallic.cell_first_solve, except_Exception, try_except, call_kw, do_call.
    fold (first_solve m). rewrite He, Hex. reflexivity.
  - intros a b c E h. repeat split; try reflexivity.
    pose proof (new_canvas_without_design a E h) as H. cbv beta in H.
    apply observe_all in H. destruct H as [_ H].
    eapply Forall_impl; [| exact H].
    intros ev Hev. cbv beta in Hev. apply negb_true_iff in Hev. exact Hev.
  - intros nb fuel E pre c r post Ht Hc.
    pose proof (triple_run _ (true, false) _ _ E (result_audit nb fuel)) as H.
    unfold events in Ht. rewrite Ht in H.
    destruct (result_sound _ _ _ _ _ H Hc) as [[Hd _] | Hex]; [discriminate | exact Hex].
Qed.

(** Without a solver the monometallic notebook keeps [D = None]. *)
Lemma C8_witness :
  Monometallic.cell_solve (VObj 11) Lab.no_solver []
  = (Done VNone,
     [ECall (solve_call monometallic (VObj 11)) (Raises Lab.ApplicationError);
      EPrint [VStr no_solver_msg]]).
Proof.
  apply (proj1 C8_results_need_a_design monometallic Monometallic.cell_solve
           (VObj 11) Lab.no_solver [] Lab.ApplicationError).
  - reflexivity.
  - reflexivity.
Defined.



(* ================================================================== *)
(** * The four phases (C2) *)
(* ================================================================== *)












(* ================================================================== *)
(** * Control flow of the notebooks' own (C7) *)
(* ================================================================== *)

(** C7, counterexample.  In the CSTR notebook the loop
    [while any(err > [2 * noise * s for s in new_res])] runs as long as the
    error that [ripe.ems] reports is large: with a small error at once the
    notebook fits twice, with a large error first it fits three times. *)
Lemma C7_counterexample : ~ fixed_sequence.
Proof.
  intros H.
  specialize (H cstr 3%nat 3%nat (Lab.works 0) (Lab.works 1) eq_refl eq_refl).
  vm_compute in H. discriminate.
Qed.

Lemma observe_callees t s :
  observe callee_step s t = rev (callees t) ++ s.
Proof.
  unfold callees, calls_of. revert s.
  induction t as [| ev t IH]; intros s; [reflexivity |].
  rewrite observe_cons, IH.
  destruct ev as [c r | line]; cbn [callee_step flat_map app map rev]; [| reflexivity].
  rewrite <- app_assoc. reflexivity.
Qed.

Lemma callees_of_observer t l :
  observe callee_step [] t = rev l -> callees t = l.
Proof.
  rewrite observe_callees, app_nil_r. intros H.
  apply (f_equal (@rev string)) in H. rewrite !rev_involutive in H. exact H.
Qed.

Ltac calls_leaf := vm_compute; intros; first [ discriminate | reflexivity | tauto ].

Lemma clc_sequence fuel :
  triple callee_step [] (script clc fuel)
    (fun r s => is_Done r = true -> s = rev clc_calls).
Proof. unfold script; walk calls_leaf. Qed.

Lemma monometallic_sequence fuel :
  triple callee_step [] (script monometallic fuel)
    (fun r s => is_Done r = true ->
                s = rev monometallic_calls
                \/ s = rev (monometallic_calls ++ ["Design.toPDB"])).
Proof. unfold script; walk calls_leaf. Qed.

Lemma concat_repeat_comm {A} (R : list A) k :
  List.concat (repeat R k) ++ R = R ++ List.concat (repeat R k).
Proof.
  induction k as [| k IH]; cbn [repeat List.concat].
  - rewrite app_nil_r. reflexivity.
  - rewrite <- app_assoc, IH. reflexivity.
Qed.

Lemma rev_concat_repeat {A} (R : list A) k :
  rev (List.concat (repeat (rev R) k)) = List.concat (repeat R k).
Proof.
  induction k as [| k IH]; cbn [repeat List.concat]; [reflexivity |].
  rewrite rev_app_distr, rev_involutive, IH. apply concat_repeat_comm.
Qed.

Lemma cstr_sequence fuel :
  triple callee_step [] (script cstr fuel)
    (fun r s => is_Done r = true ->
                exists k, s = "ripe.ripemodel"
                              :: List.concat (repeat (rev cstr_round) k) ++ rev cstr_setup).
Proof.
  unfold script, CSTR.notebook. walk_seq calls_leaf.
  unfold CSTR.cell_loop.
  apply (triple_while callee_step
           (fun s _ => exists k,
              s = List.concat (repeat (rev cstr_round) k) ++ rev cstr_setup)).
  - exists 0. reflexivity.
  - intros s w [k Hk]. walk_seq calls_leaf.
    + exists (S k). rewrite Hk. reflexivity.
    + intros _. exists k. rewrite Hk. reflexivity.
  - intros s w _. cbn. discriminate.
Qed.

(** C7, amended.  Only the chemical looping notebook is a straight line:
    all its complete runs make the same six library calls.  Every other
    notebook has a branch or a loop of its own that decides which calls are
    made, from what the library returned at run time: a MatOpt notebook
    makes other calls when the solver hands back a design than when it
    hands back [None] ([if D is not None:], [if D:]); the CSTR notebook
    repeats the four calls of its [while] loop as long as the error that
    [ripe.ems] reports is large.  In the monometallic notebook the guard is
    all there is: its complete runs make the calls up to [m.maximize], and
    then [D.toPDB] or nothing.  In the CSTR notebook the loop is all there
    is: its complete runs make the setup calls, some number of rounds
    (simulate, fit, sample, simulate), and the final fit. *)
Theorem C7_call_sequences :
  (forall fuel E,
      ending clc fuel E = Done tt -> callees (events clc fuel E) = clc_calls)
  /\ (forall nb,
        uses_matopt nb = true ->
        ending nb 0 (Lab.works 0) = Done tt
        /\ ending nb 0 Lab.no_design = Done tt
        /\ callees (events nb 0 (Lab.works 0)) <> callees (events nb 0 Lab.no_design))
  /\ (ending cstr 3 (Lab.works 0) = Done tt
      /\ ending cstr 3 (Lab.works 1) = Done tt
      /\ callees (events cstr 3 (Lab.works 0)) <> callees (events cstr 3 (Lab.works 1)))
  /\ (forall fuel E,
        ending monometallic fuel E = Done tt ->
        callees (events monometallic fuel E) = monometallic_calls
        \/ callees (events monometallic fuel E) = monometallic_calls ++ ["Design.toPDB"])
  /\ (forall fuel E,
        ending cstr fuel E = Done tt ->
        exists k,
          callees (events cstr fuel E)
          = cstr_setup ++ List.concat (repeat cstr_round k) ++ ["ripe.ripemodel"]).
Proof.
  split; [| split; [| split; [| split]]].
  - intros fuel E Hend. apply callees_of_observer.
    pose proof (triple_run _ [] _ _ E (clc_sequence fuel)) as H.
    apply H. unfold ending in Hend. rewrite Hend. reflexivity.
  - intros nb Hnb.
    destruct nb; try discriminate; repeat split; try (vm_compute; reflexivity);
      vm_compute; discriminate.
  - repeat split; try (vm_compute; reflexivity). vm_compute. discriminate.
  - intros fuel E Hend.
    pose proof (triple_run _ [] _ _ E (monometallic_sequence fuel)) as H.
    unfold ending in Hend. rewrite Hend in H.
    destruct (H eq_refl) as [H1 | H1]; [left | right]; apply callees_of_observer; exact H1.
  - intros fuel E Hend.
    pose proof (triple_run _ [] _ _ E (cstr_sequence fuel)) as H.
    unfold ending in Hend. rewrite Hend in H.
    destruct (H eq_refl) as [k Hk]. exists k.
    rewrite observe_callees, app_nil_r in Hk.
    apply (f_equal (@rev string)) in Hk. rewrite rev_involutive in Hk.
    unfold events. rewrite Hk.
    change ("ripe.ripemodel" :: List.concat (repeat (rev cstr_round) k) ++ rev cstr_setup)
      with (["ripe.ripemodel"] ++ List.concat (repeat (rev cstr_round) k) ++ rev cstr_setup).
    rewrite !rev_app_distr, rev_involutive, rev_concat_repeat, <- app_assoc.
    reflexivity.
Qed.

(** A complete run of the CLC notebook makes the six calls. *)
Lemma C7_witness : callees (events clc 0 (Lab.works 0)) = clc_calls.
Proof.
  apply (proj1 C7_call_sequences 0%nat (Lab.works 0)). reflexivity.
Defined.



(* ================================================================== *)
(** * The site lists partition the canvas (C9) *)
(* ================================================================== *)

Lemma mem_nat_In i l : mem_nat i l = true <-> In i l.
Proof.
  unfold mem_nat. rewrite existsb_exists. split.
  - intros [x [Hx Heq]]. apply Nat.eqb_eq in Heq. subst. exact Hx.
  - intros H. exists i. split; [exact H | apply Nat.eqb_refl].
Qed.

Lemma increasing_seq a n : StronglySorted Nat.lt (seq a n).
Proof.
  revert a. induction n as [| n IH]; intros a; cbn [seq]; constructor.
  - apply IH.
  - apply Forall_forall. intros x Hx. apply in_seq in Hx. unfold Nat.lt. lia.
Qed.

Lemma increasing_filter (f : nat -> bool) l :
  StronglySorted Nat.lt l -> StronglySorted Nat.lt (filter f l).
Proof.
  induction 1 as [| x l Hs IH Hall]; cbn [filter]; [constructor |].
  destruct (f x); [| exact IH]. constructor; [exact IH |].
  apply Forall_forall. intros y Hy. apply filter_In in Hy.
  rewrite Forall_forall in Hall. apply Hall. apply Hy.
Qed.





(** A comprehension with a test that can fail, when it does not fail. *)
Lemma select_spec {A} (f : A -> option bool) l r :
  select f l = Some r ->
  (forall x, In x r <-> In x l /\ f x = Some true)
  /\ (forall x, In x l -> f x <> None).
Proof.
  revert r. induction l as [| y l IH]; intros r H; cbn [select] in H.
  - injection H as <-. split; [| intros x []]. intros x. cbn. tauto.
  - destruct (f y) as [b |] eqn:Hy; [| discriminate].
    destruct (select f l) as [r' |]; [| discriminate].
    destruct (IH r' eq_refl) as [Hin Hok]. injection H as <-. split.
    + intros x. destruct b; cbn [In]; rewrite Hin; split.
      * intros [<- | [Hx Hf]]; auto.
      * intros [[<- | Hx] Hf]; auto.
      * intros [Hx Hf]; auto.
      * intros [[<- | Hx] Hf]; [congruence | auto].
    + intros x [<- | Hx]; [congruence | apply Hok; exact Hx].
Qed.

Lemma select_increasing (f : nat -> option bool) l r :
  select f l = Some r -> StronglySorted Nat.lt l -> StronglySorted Nat.lt r.
Proof.
  revert r. induction l as [| y l IH]; intros r H Hs; cbn [select] in H.
  - injection H as <-. constructor.
  - destruct (f y) as [b |]; [| discriminate].
    destruct (select f l) as [r' |] eqn:Hr; [| discriminate].
    inversion Hs as [| ? ? Hs' Hall]; subst.
    injection H as <-. destruct b; [| apply IH; auto].
    constructor; [apply IH; auto |].
    apply Forall_forall. intros x Hx.
    apply (select_spec f l r' Hr) in Hx. rewrite Forall_forall in Hall. apply Hall, Hx.
Qed.

Lemma select_total {A} (f : A -> option bool) l :
  (forall x, In x l -> f x <> None) -> exists r, select f l = Some r.
Proof.
  induction l as [| y l IH]; intros H; cbn [select]; [eauto |].
  destruct (f y) as [b |] eqn:Hy; [| exfalso; apply (H y); [left; reflexivity | exact Hy]].
  destruct IH as [r ->]; [intros x Hx; apply H; right; exact Hx |]. eauto.
Qed.

Lemma layers_below_spec lt n Points bound L :
  Sites.layers_below lt n Points bound = Some L ->
  partitions n L (Sites.range_minus n L)
  /\ forall i, In i L <->
       i < n /\ exists p, nth_error Points i = Some p /\ lt (pt2 p) bound = true.
Proof.
  unfold Sites.layers_below, Sites.range_minus, range. intros H.
  destruct (select_spec _ _ _ H) as [Hin _].
  assert (Hrest : forall i, In i (filter (fun i => negb (mem_nat i L)) (seq 0 n)) <->
                    i < n /\ ~ In i L).
  { intros i. rewrite filter_In, in_seq, negb_true_iff, <- not_true_iff_false, mem_nat_In.
    split; intros [H1 H2]; split; auto; lia. }
  assert (Hlt : forall i, In i L -> i < n).
  { intros i Hi. apply Hin in Hi. destruct Hi as [Hi _]. apply in_seq in Hi. lia. }
  split; [split; [| split; [| split]] |].
  - intros i Hi. destruct (in_dec Nat.eq_dec i L) as [HL | HL].
    + left. split; [exact HL |]. rewrite Hrest. tauto.
    + right. split; [exact HL |]. rewrite Hrest. tauto.
  - intros i [Hi | Hi]; [auto |]. apply Hrest in Hi. tauto.
  - eapply select_increasing; [exact H | apply increasing_seq].
  - apply increasing_filter, increasing_seq.
  - intros i. rewrite Hin, in_seq. split.
    + intros [Hi Hf]. split; [lia |].
      destruct (nth_error Points i) as [p |]; [| discriminate].
      exists p. split; [reflexivity | congruence].
    + intros [Hi [p [Hp Hf]]]. split; [lia |]. rewrite Hp, Hf. reflexivity.
Qed.

Lemma layers_below_total lt n Points bound :
  n <= List.length Points -> exists L, Sites.layers_below lt n Points bound = Some L.
Proof.
  intros Hn. apply select_total. intros i Hi. apply in_seq in Hi.
  destruct (nth_error Points i) eqn:Hp; [discriminate |].
  apply nth_error_None in Hp. lia.
Qed.





(* ================================================================== *)
(** * The refinement loop grows the data by one row (C10) *)
(* ================================================================== *)

Lemma run_bind {A B} (m : M A) (k : A -> M B) E h a t1 r t2 :
  m E h = (Done a, t1) ->
  k a E (h ++ t1) = (r, t2) ->
  bind m k E h = (r, t1 ++ t2).
Proof. intros Hm Hk. unfold bind. rewrite Hm, Hk. reflexivity. Qed.

Lemma all_some_map {A B} (f : A -> option B) (g : B -> A) l :
  (forall b, f (g b) = Some b) -> all_some (map f (map g l)) = Some l.
Proof.
  intros H. induction l as [| b l IH]; cbn [map all_some]; [reflexivity |].
  rewrite H, IH. reflexivity.
Qed.

Lemma as_array_val a : Np.as_array (Np.array_val a) = Some a.
Proof.
  unfold Np.as_array, Np.array_val. cbn [as_list].
  apply all_some_map. reflexivity.
Qed.

Lemma width_rows c row rest :
  Forall (fun r => List.length r = c) (row :: rest) -> Np.width (row :: rest) = Some c.
Proof.
  intros H. inversion H as [| ? ? Hrow Hrest]; subst. cbn [Np.width].
  replace (forallb (fun x => Nat.eqb (List.length x) (List.length row)) rest) with true;
    [reflexivity |].
  symmetry. apply forallb_forall. intros x Hx. rewrite Forall_forall in Hrest.
  apply Nat.eqb_eq. apply Hrest. exact Hx.
Qed.

Lemma broadcast_exact c src :
  src <> [] ->
  Forall (fun r => List.length r = c) src ->
  Np.broadcast (List.length src) c src = Some src.
Proof.
  intros Hne Hall. destruct src as [| row rest]; [congruence |].
  unfold Np.broadcast. rewrite (width_rows c row rest Hall).
  rewrite Nat.eqb_refl. cbn [orb].
  rewrite length_map, Nat.eqb_refl. rewrite map_id. reflexivity.
Qed.

Lemma length_zeros r c : List.length (Np.zeros r c) = r.
Proof. apply repeat_length. Qed.

Lemma assign_head_zeros c src :
  src <> [] ->
  Forall (fun r => List.length r = c) src ->
  Np.assign_head c (Np.zeros (List.length src + 1) c) src
  = Some (src ++ [repeat (VFloat "0.0") c]).
Proof.
  intros Hne Hall. unfold Np.assign_head. rewrite length_zeros.
  replace (List.length src + 1 - 1) with (List.length src) by lia.
  rewrite (broadcast_exact c src Hne Hall). f_equal. f_equal.
  unfold Np.zeros. rewrite repeat_app. rewrite skipn_app.
  rewrite repeat_length, Nat.sub_diag. cbn [repeat skipn].
  rewrite skipn_all2; [reflexivity |]. rewrite repeat_length. lia.
Qed.

Lemma assign_last_app c src z row :
  List.length row = c ->
  Np.assign_last c (src ++ [z]) row = Some (src ++ [row]).
Proof.
  intros Hrow. unfold Np.assign_last.
  destruct (src ++ [z]) eqn:Heq; [destruct src; discriminate |].
  rewrite <- Heq, removelast_last, Hrow, Nat.eqb_refl. reflexivity.
Qed.


Lemma greater_same lt a b :
  List.length a = List.length b -> exists bs, Np.greater lt a b = Some bs.
Proof. intros H. unfold Np.greater. rewrite H, Nat.eqb_refl. eauto. Qed.








Lemma bind_assoc {A B C} (m : M A) (f : A -> M B) (g : B -> M C) E h :
  bind (bind m f) g E h = bind m (fun a => bind (f a) g) E h.
Proof.
  unfold bind. destruct (m E h) as [[a | e |] t1]; try reflexivity.
  destruct (f a E (h ++ t1)) as [[b | e |] t2]; try reflexivity.
  rewrite app_assoc. destruct (g b E ((h ++ t1) ++ t2)) as [r t3].
  rewrite app_assoc. reflexivity.
Qed.



Lemma quiet_loop_cond v : quiet (CSTR.loop_cond v).
Proof.
  unfold CSTR.loop_cond, CSTR.violations.
  apply quiet_bind; [| intro; apply quiet_ret].
  apply quiet_bind; [apply quiet_float_lt | intro; apply quiet_of_option].
Qed.











(* ================================================================== *)
(** * Further properties of the notebooks *)
(* ================================================================== *)

(* ================================================================== *)
(** * Neighbourhoods handed to [ImpliesNeighbors] *)
(* ================================================================== *)

Lemma select_filter {A} (f : A -> option bool) l r :
  select f l = Some r ->
  r = filter (fun x => match f x with Some true => true | _ => false end) l.
Proof.
  revert r. induction l as [| y l IH]; intros r H; cbn [select filter] in *.
  - congruence.
  - destruct (f y) as [b |]; [| discriminate].
    destruct (select f l) as [r' |]; [| discriminate].
    injection H as <-. rewrite (IH r' eq_refl). destruct b; reflexivity.
Qed.

Lemma select_None {A} (f : A -> option bool) l :
  select f l = None <-> exists x, In x l /\ f x = None.
Proof.
  induction l as [| y l IH]; cbn [select].
  - split; [discriminate | intros (x & [] & _)].
  - destruct (f y) as [b |] eqn:Hy.
    + destruct (select f l) as [r |].
      * split; [discriminate |]. intros (x & [<- | Hx] & Hf); [congruence |].
        assert (H : @None (list A) = None) by reflexivity.
        destruct IH as [_ IH]. discriminate IH. eauto.
      * split; [| reflexivity]. intros _. destruct IH as [IH _].
        destruct (IH eq_refl) as (x & Hx & Hf). exists x. split; [right; exact Hx | exact Hf].
    + split; [| reflexivity]. intros _. exists y. split; [left; reflexivity | exact Hy].
Qed.

Lemma In_somes {A} (l : list (option A)) x : In x (somes l) <-> In (Some x) l.
Proof.
  induction l as [| [a |] l IH]; cbn [somes In].
  - tauto.
  - rewrite IH. split; intros [H | H]; auto; left; congruence.
  - rewrite IH. split; [auto | intros [H | H]; [discriminate | exact H]].
Qed.

Lemma all_some_nth {A B} (g : A -> option B) l R :
  all_some (map g l) = Some R ->
  List.length R = List.length l
  /\ forall i x, nth_error l i = Some x ->
       exists y, g x = Some y /\ nth_error R i = Some y.
Proof.
  revert R. induction l as [| a l IH]; intros R H; cbn [map all_some] in H.
  - injection H as <-. split; [reflexivity |]. intros [| i] x Hx; discriminate.
  - destruct (g a) as [b |] eqn:Ha; [| discriminate].
    destruct (all_some (map g l)) as [R' |]; [| discriminate].
    injection H as <-. destruct (IH R' eq_refl) as [Hlen Hnth].
    split; [cbn; congruence |].
    intros [| i] x Hx; cbn [nth_error] in *.
    + injection Hx as <-. eauto.
    + apply Hnth. exact Hx.
Qed.

Lemma all_some_None {A B} (g : A -> option B) l :
  all_some (map g l) = None <-> exists x, In x l /\ g x = None.
Proof.
  induction l as [| a l IH]; cbn [map all_some].
  - split; [discriminate | intros (x & [] & _)].
  - destruct (g a) as [b |] eqn:Ha.
    + destruct (all_some (map g l)) as [R |].
      * split; [discriminate |]. intros (x & [<- | Hx] & Hg); [congruence |].
        destruct IH as [_ IH]. discriminate IH. eauto.
      * split; [| reflexivity]. intros _. destruct IH as [IH _].
        destruct (IH eq_refl) as (x & Hx & Hg). exists x. split; [right; exact Hx | exact Hg].
    + split; [| reflexivity]. intros _. exists a. split; [left; reflexivity | exact Ha].
Qed.





(** X2.  Surface, [NeighborsBelow].  When the comprehension goes through it
    has [len(Canv)] rows, and the row of site [i] is
    [Canv.NeighborhoodIndexes[i]] without its [None] entries and without
    the neighbours that are not lower than the site, the others kept in
    order; a site with a neighbour is a point of the canvas, and so is every
    neighbour named.  It raises [IndexError] exactly when a site below
    [len(Canv)] has no row of neighbours, or its row names a site the canvas
    has no point for, or it has a neighbour and no point itself. *)
Theorem X2_neighbors_below :
  forall lt len_Canv Points Nbrs,
    (forall R, Sites.NeighborsBelow lt len_Canv Points Nbrs = Some R ->
       List.length R = len_Canv
       /\ forall i, i < len_Canv ->
            exists row,
              nth_error Nbrs i = Some row
              /\ nth_error R i = Some (filter (lower_than lt Points i) (somes row))
              /\ forall j, In (Some j) row ->
                   j < List.length Points /\ i < List.length Points)
    /\ (Sites.NeighborsBelow lt len_Canv Points Nbrs = None <->
        exists i, i < len_Canv
                  /\ match nth_error Nbrs i with
                     | None => True
                     | Some row =>
                         dangling (List.length Points) row
                         \/ (List.length Points <= i /\ exists j, In (Some j) row)
                     end).
Proof.
  intros lt n Points Nbrs. unfold Sites.NeighborsBelow, range. split.
  - intros R H. apply all_some_nth in H. destruct H as [Hlen Hnth].
    split; [rewrite Hlen; apply length_seq |].
    intros i Hi.
    assert (Hk : nth_error (seq 0 n) i = Some i).
    { rewrite nth_error_seq. destruct (Nat.ltb_spec i n); [reflexivity | lia]. }
    destruct (Hnth i i Hk) as (Ri & Hg & HR).
    destruct (nth_error Nbrs i) as [row |]; [| discriminate].
    exists row. split; [reflexivity |].
    pose proof (select_filter _ _ _ Hg) as ->.
    pose proof (select_spec _ _ _ Hg) as [_ Htot].
    split.
    + rewrite HR. f_equal. apply filter_ext_in. intros j Hj. unfold lower_than.
      destruct (nth_error Points j) as [q |]; [| reflexivity].
      destruct (nth_error Points i) as [p |]; [| reflexivity].
      destruct (lt _ _); reflexivity.
    + intros j Hj. apply In_somes in Hj. specialize (Htot j Hj).
      destruct (nth_error Points j) eqn:Hq; [| congruence].
      destruct (nth_error Points i) eqn:Hp; [| congruence].
      split; apply nth_error_Some; congruence.
  - rewrite all_some_None. split.
    + intros (i & Hin & Hg). apply in_seq in Hin.
      exists i. split; [lia |].
      destruct (nth_error Nbrs i) as [row |]; [| exact I].
      apply select_None in Hg. destruct Hg as (j & Hj & Hq). apply In_somes in Hj.
      destruct (nth_error Points j) eqn:Hpj.
      * right. destruct (nth_error Points i) eqn:Hpi; [discriminate |].
        split; [apply nth_error_None; exact Hpi | eauto].
      * left. exists j. split; [exact Hj | apply nth_error_None; exact Hpj].
    + intros (i & Hi & H). exists i. split; [apply in_seq; lia |].
      destruct (nth_error Nbrs i) as [row |]; [| reflexivity].
      apply select_None.
      destruct H as [(j & Hj & Hle) | (Hle & j & Hj)]; exists j;
        (split; [apply In_somes; exact Hj |]).
      * apply nth_error_None in Hle. rewrite Hle. reflexivity.
      * apply nth_error_None in Hle. rewrite Hle.
        destruct (nth_error Points j); reflexivity.
Qed.

Lemma X2_witness :
  List.length [[]; [0]] = 2
  /\ forall i, i < 2 ->
       exists row,
         nth_error two_rows i = Some row
         /\ nth_error [[]; [0]] i = Some (filter (lower_than Lab.less two_sites i) (somes row))
         /\ forall j, In (Some j) row ->
              j < List.length two_sites /\ i < List.length two_sites.
Proof.
  exact (proj1 (X2_neighbors_below Lab.less 2 two_sites two_rows) [[]; [0]] eq_refl).
Defined.
(* ================================================================== *)
(** * The one site fixed by [min(...)] *)
(* ================================================================== *)

Lemma bind_silent {A B} (m : M A) (k : A -> M B) E h a :
  m E h = (Done a, []) -> bind m k E h = k a E h.
Proof.
  intros H. unfold bind. rewrite H, app_nil_r. destruct (k a E h); reflexivity.
Qed.

Lemma bind_uncaught {A B} (m : M A) (k : A -> M B) E h e t :
  m E h = (Uncaught e, t) -> bind m k E h = (Uncaught e, t).
Proof. intros H. unfold bind. rewrite H. reflexivity. Qed.

Lemma fold_min_least r : forall x,
  In (fold_left Nat.min r x) (x :: r)
  /\ forall y, In y (x :: r) -> fold_left Nat.min r x <= y.
Proof.
  induction r as [| z r IH]; intros x; cbn [fold_left].
  - split; [left; reflexivity |]. intros y [<- | []]. lia.
  - destruct (IH (Nat.min x z)) as [Hin Hle]. split.
    + destruct Hin as [Heq | Hin]; [| right; right; exact Hin].
      rewrite <- Heq. destruct (Nat.min_dec x z) as [-> | ->]; [left | right; left]; reflexivity.
    + intros y Hy. pose proof (Hle (Nat.min x z) (or_introl eq_refl)) as Hm.
      destruct Hy as [<- | [<- | Hy]]; [lia | lia | apply Hle; right; exact Hy].
Qed.

Lemma py_min_least l E h :
  match l with
  | [] => py_min l E h = (Uncaught ValueError, [])
  | _ => exists x, py_min l E h = (Done x, []) /\ In x l /\ forall y, In y l -> x <= y
  end.
Proof.
  destruct l as [| x r]; [reflexivity |].
  exists (fold_left Nat.min r x). split; [reflexivity |]. apply fold_min_least.
Qed.

Lemma layers_above_spec lt n Points bound L :
  Sites.layers_above lt n Points bound = Some L ->
  forall i, In i L <->
    i < n /\ exists p, nth_error Points i = Some p /\ lt bound (pt2 p) = true.
Proof.
  unfold Sites.layers_above, range. intros H.
  destruct (select_spec _ _ _ H) as [Hin _]. intros i. rewrite Hin, in_seq. split.
  - intros [Hi Hf]. split; [lia |].
    destruct (nth_error Points i) as [p |]; [| discriminate].
    exists p. split; [reflexivity | congruence].
  - intros [Hi (p & Hp & Hlt)]. split; [lia |]. rewrite Hp, Hlt. reflexivity.
Qed.

Lemma layers_above_total lt n Points bound :
  n <= List.length Points -> exists L, Sites.layers_above lt n Points bound = Some L.
Proof.
  intros Hn. apply select_total. intros i Hi. apply in_seq in Hi.
  destruct (nth_error Points i) eqn:Hp; [discriminate |].
  apply nth_error_None in Hp. lia.
Qed.

(** X3.  Surface, [OneSiteInTopLayer = [min([...])]].  With [len(Canv)]
    sites that all have a point: when no site lies above
    [(nLayers - 1.5) * Lat.FCC111LayerSpacing] the cell ends with the
    [ValueError] of [min] on an empty list, before any rule is made;
    otherwise the first call of the cell is [FixedTo(1, sites=[i])] for
    the lowest index [i] among the sites above the bound. *)
Theorem X3_one_site_in_top_layer :
  forall Lat Canv m E h n Points,
    read_len Canv E h = (Done n, []) ->
    read_points Canv@."Points" E h = (Done Points, []) ->
    n <= List.length Points ->
    let top := in_top_layer (flt_lt E) Points (mem E h Lat@."FCC111LayerSpacing") n in
    ((forall i, ~ top i) ->
       Surface.cell_fix Lat Canv m E h = (Uncaught ValueError, []))
    /\ (forall i, top i -> (forall k, top k -> i <= k) ->
          exists r resp t,
            Surface.cell_fix Lat Canv m E h
            = (r, ECall (Call "FixedTo" [VInt 1] [("sites", VNats [i])]) resp :: t)).
Proof.
  intros Lat Canv m E h n Points Hlen Hpts Hn top.
  destruct (layers_below_total (flt_lt E) n Points
              (mul (VFloat "1.5") (mem E h Lat@."FCC111LayerSpacing")) Hn) as [bot Hbot].
  destruct (layers_above_total (flt_lt E) n Points
              (top_bound (mem E h Lat@."FCC111LayerSpacing")) Hn) as [L HL].
  pose proof (layers_above_spec _ _ _ _ _ HL) as Hspec.
  assert (Hrun : forall k : nat -> M (list nat),
             Surface.cell_fix Lat Canv m E h
             = bind (py_min L) (fun least =>
                 r <- call_kw "FixedTo" [VInt 1] [("sites", VNats [least])] ;;
                 append_rule m@."Yi" r ;;
                 r <- call_kw "FixedTo" [VInt 1] [("sites", VNats bot)] ;;
                 append_rule m@."Yi" r ;;
                 ret (Sites.CanvMinusTwoBotLayers n bot)) E h).
  { intros _. unfold Surface.cell_fix.
    rewrite (bind_silent float_lt _ E h (flt_lt E) eq_refl).
    rewrite (bind_silent _ _ E h n Hlen).
    rewrite (bind_silent _ _ E h Points Hpts).
    rewrite (bind_silent (read _) _ E h _ eq_refl).
    unfold Sites.CanvTwoBotLayers. rewrite Hbot.
    rewrite (bind_silent (of_option _ (Some bot)) _ E h bot eq_refl).
    fold (top_bound (mem E h Lat@."FCC111LayerSpacing")). rewrite HL.
    rewrite (bind_silent (of_option _ (Some L)) _ E h L eq_refl).
    reflexivity. }
  rewrite (Hrun (fun _ => ret [])). clear Hrun.
  pose proof (py_min_least L E h) as Hmin. split.
  - intros Hnone. destruct L as [| x r].
    + apply bind_uncaught. exact Hmin.
    + exfalso. apply (Hnone x). apply Hspec. left. reflexivity.
  - intros i Hi Hleast. destruct L as [| x r].
    + exfalso. apply Hspec in Hi. destruct Hi.
    + destruct Hmin as (least & Hrun & Hin & Hle).
      assert (least = i).
      { apply Nat.le_antisymm.
        - apply Hle. apply Hspec. exact Hi.
        - apply Hleast. apply Hspec. exact Hin. }
      subst least. rewrite (bind_silent _ _ E h i Hrun).
      unfold bind at 1. unfold call_kw at 1, do_call at 1.
      destruct (lib E h _) as [v | e].
      * match goal with
        | |- context [let (r, t2) := ?rest in _] => destruct rest as [r0 t0]
        end.
        cbn [app]. eauto.
      * eauto.
Qed.

Lemma X3_witness :
  exists r resp t,
    Surface.cell_fix VNone VNone VNone (Lab.works 0) []
    = (r, ECall (Call "FixedTo" [VInt 1] [("sites", VNats [1])]) resp :: t).
Proof.
  apply (proj2 (X3_one_site_in_top_layer VNone VNone VNone (Lab.works 0) [] 2 two_sites
                  eq_refl eq_refl (le_n 2)) 1).
  - split; [lia |]. eexists. split; reflexivity.
  - intros k (Hk & p & Hp & Hlt). destruct k as [| k]; [| lia].
    injection Hp as <-. discriminate Hlt.
Defined.

(** X4.  Bifunctional surface, [LocsToFixPt], [LocsToExcludePt] and
    [OneLocToFix = [min(LocsToExcludePt)]].  With [len(Canv)] sites that all
    have a point: when every site lies below [Lat.FCC111LayerSpacing * 2.5]
    the cell ends with the [ValueError] of [min] on an empty list and has
    called nothing; when the cell completes, [LocsToFixPt] and
    [LocsToExcludePt] split the sites, [LocsToExcludePt] holds the sites
    not below the bound, and [OneLocToFix] is the lowest of them. *)
Theorem X4_one_loc_to_fix :
  forall Lat Canv E h n Points,
    read_len Canv E h = (Done n, []) ->
    read_points Canv@."Points" E h = (Done Points, []) ->
    n <= List.length Points ->
    let free := not_fixed_to_Pt (flt_lt E) Points (mem E h Lat@."FCC111LayerSpacing") n in
    ((forall i, ~ free i) ->
       Bifunctional.cell_sites Lat Canv E h = (Uncaught ValueError, []))
    /\ (forall d t,
          Bifunctional.cell_sites Lat Canv E h = (Done d, t) ->
          partitions n (Bifunctional.LocsToFixPt d) (Bifunctional.LocsToExcludePt d)
          /\ (forall k, In k (Bifunctional.LocsToExcludePt d) <-> free k)
          /\ exists i, Bifunctional.OneLocToFix d = [i]
                       /\ free i /\ forall k, free k -> i <= k).
Proof.
  intros Lat Canv E h n Points Hlen Hpts Hn free.
  set (spacing := mem E h Lat@."FCC111LayerSpacing") in *.
  destruct (layers_below_total (flt_lt E) n Points (mul spacing (VFloat "2.5")) Hn)
    as [fixed Hfixed].
  destruct (layers_below_total (flt_lt E) n Points (mul spacing (VFloat "1.5")) Hn)
    as [bot Hbot].
  destruct (layers_below_spec _ _ _ _ _ Hfixed) as [Hpart Hin].
  assert (Hfree : forall k, In k (Sites.range_minus n fixed) <-> free k).
  { intros k. unfold Sites.range_minus, range. rewrite filter_In, in_seq, negb_true_iff.
    unfold free, not_fixed_to_Pt. split.
    - intros [Hk Hmem]. split; [lia |].
      destruct (nth_error Points k) as [p |] eqn:Hp;
        [| apply nth_error_None in Hp; lia].
      exists p. split; [reflexivity |].
      destruct (flt_lt E (pt2 p) (mul spacing (VFloat "2.5"))) eqn:Hlt; [| reflexivity].
      assert (In k fixed) by (apply Hin; split; [lia | eauto]).
      apply mem_nat_In in H. congruence.
    - intros [Hk (p & Hp & Hlt)]. split; [lia |].
      destruct (mem_nat k fixed) eqn:Hm; [| reflexivity].
      apply mem_nat_In in Hm. apply Hin in Hm. destruct Hm as [_ (p' & Hp' & Hlt')].
      congruence. }
  assert (Hrun :
    Bifunctional.cell_sites Lat Canv E h
    = bind (py_min (Sites.range_minus n fixed)) (fun least =>
        Ni <- Atom "Ni" ;;
        Pt <- Atom "Pt" ;;
        ret (Bifunctional.SiteData fixed (Sites.range_minus n fixed)
               (Sites.CanvMinusTwoBotLayers n bot) [least] (VList [Ni; Pt]))) E h).
  { unfold Bifunctional.cell_sites.
    rewrite (bind_silent float_lt _ E h (flt_lt E) eq_refl).
    rewrite (bind_silent _ _ E h n Hlen).
    rewrite (bind_silent _ _ E h Points Hpts).
    rewrite (bind_silent (read _) _ E h _ eq_refl).
    fold spacing. rewrite Hfixed.
    rewrite (bind_silent (of_option _ (Some fixed)) _ E h fixed eq_refl).
    unfold Sites.CanvTwoBotLayers_bf. rewrite Hbot.
    rewrite (bind_silent (of_option _ (Some bot)) _ E h bot eq_refl).
    reflexivity. }
  rewrite Hrun. clear Hrun.
  pose proof (py_min_least (Sites.range_minus n fixed) E h) as Hmin. split.
  - intros Hnone. destruct (Sites.range_minus n fixed) as [| x r].
    + apply bind_uncaught. exact Hmin.
    + exfalso. apply (Hnone x). apply Hfree. left. reflexivity.
  - intros d t Hd. destruct (Sites.range_minus n fixed) as [| x r] eqn:Hrest.
    + rewrite (bind_uncaught _ _ E h _ _ Hmin) in Hd. discriminate.
    + destruct Hmin as (least & Hleast & Hl & Hle).
      rewrite (bind_silent _ _ E h least Hleast) in Hd.
      unfold Atom, call_, bind, do_call in Hd.
      destruct (lib E h _) as [v1 | e1]; [| discriminate].
      destruct (lib E _ _) as [v2 | e2]; [| discriminate].
      cbn in Hd. injection Hd as <- _. cbn [Bifunctional.LocsToFixPt
        Bifunctional.LocsToExcludePt Bifunctional.OneLocToFix].
      rewrite <- Hrest in *. split; [exact Hpart |]. split; [exact Hfree |].
      exists least. split; [reflexivity |]. split; [apply Hfree; exact Hl |].
      intros k Hk. apply Hle. apply Hfree. exact Hk.
Qed.

Lemma X4_witness :
  exists d,
    partitions 2 (Bifunctional.LocsToFixPt d) (Bifunctional.LocsToExcludePt d)
    /\ (forall k, In k (Bifunctional.LocsToExcludePt d) <->
                  not_fixed_to_Pt Lab.less two_sites (Lab.f "2.0") 2 k)
    /\ exists i, Bifunctional.OneLocToFix d = [i]
                 /\ not_fixed_to_Pt Lab.less two_sites (Lab.f "2.0") 2 i
                 /\ forall k, not_fixed_to_Pt Lab.less two_sites (Lab.f "2.0") 2 k -> i <= k.
Proof.
  eexists.
  eapply (proj2 (X4_one_loc_to_fix VNone VNone (Lab.works 0) [] 2 two_sites
                   eq_refl eq_refl (le_n 2))).
  vm_compute. reflexivity.
Defined.

(* ================================================================== *)
(** * The conformations of the bifunctional motif *)
(* ================================================================== *)

Lemma list_set_spec {A} (l : list A) : forall i x l',
  list_set l i x = Some l' ->
  i < List.length l
  /\ List.length l' = List.length l
  /\ nth_error l' i = Some x
  /\ forall j, j <> i -> nth_error l' j = nth_error l j.
Proof.
  induction l as [| y l IH]; intros i x l' H; cbn [list_set] in H;
    [destruct i; discriminate |].
  destruct i as [| i].
  - injection H as <-. cbn. repeat split; [lia |]. intros [| j] Hj; [congruence | reflexivity].
  - destruct (list_set l i x) as [r' |] eqn:Hr; [| discriminate]. injection H as <-.
    destruct (IH i x r' Hr) as (Hi & Hlen & Hnth & Hother).
    cbn. repeat split; [lia | lia | exact Hnth |].
    intros [| j] Hj; [reflexivity |]. cbn. apply Hother. congruence.
Qed.

Lemma set_atoms_done symbol : forall idx Conf E h Conf' t,
  Bifunctional.set_atoms symbol idx Conf E h = (Done Conf', t) ->
  List.length Conf' = List.length Conf
  /\ (forall i, In i idx -> i < List.length Conf)
  /\ forall i x, nth_error Conf' i = Some x ->
       if mem_nat i idx then made_by symbol t x else nth_error Conf i = Some x.
Proof.
  unfold Bifunctional.set_atoms.
  induction idx as [| i idx IH]; intros Conf E h Conf' t H; cbn [fold_m] in H.
  - injection H as <- <-. split; [reflexivity |]. split; [intros i [] |].
    intros i x Hx. exact Hx.
  - unfold bind at 1 in H. unfold bind at 1 in H. unfold Atom, call_, do_call in H.
    destruct (lib E h _) as [a | e] eqn:Hlib; [| discriminate].
    cbv beta iota in H.
    destruct (list_set Conf i a) as [C1 |] eqn:Hset; cbn [of_option ret raise] in H;
      [| discriminate].
    cbn [app] in H.
    match type of H with
    | context [fold_m idx ?body C1 E ?hh] => destruct (fold_m idx body C1 E hh) as [r t2] eqn:Hrest
    end.
    destruct r as [C2 | |]; [| discriminate | discriminate].
    injection H as <- <-.
    destruct (IH _ _ _ _ _ Hrest) as (Hlen & Hidx & Hslots).
    destruct (list_set_spec _ _ _ _ Hset) as (Hi & Hlen1 & Hnth & Hother).
    split; [congruence |]. split.
    + intros j [<- | Hj]; [exact Hi |]. rewrite <- Hlen1. apply Hidx. exact Hj.
    + intros j x Hx. specialize (Hslots j x Hx). unfold made_by in *.
      cbn [mem_nat existsb] in *. fold (mem_nat j idx).
      destruct (mem_nat j idx) eqn:Hm.
      * rewrite orb_true_r. right. exact Hslots.
      * rewrite orb_false_r. destruct (Nat.eqb_spec j i) as [-> | Hne].
        -- left. rewrite Hnth in Hslots. injection Hslots as <-. reflexivity.
        -- rewrite <- (Hother j Hne). exact Hslots.
Qed.

Lemma bind_done {A B} (m : M A) (k : A -> M B) E h b t :
  bind m k E h = (Done b, t) ->
  exists a t1 t2, m E h = (Done a, t1) /\ k a E (h ++ t1) = (Done b, t2) /\ t = t1 ++ t2.
Proof.
  unfold bind. destruct (m E h) as [[a | e |] t1]; try discriminate.
  destruct (k a E (h ++ t1)) as [r t2] eqn:Hk. intros H. injection H as -> <-.
  exists a, t1, t2. auto.
Qed.

Lemma call_done c E h v t :
  do_call c E h = (Done v, t) -> lib E h c = Returns v /\ t = [ECall c (Returns v)].
Proof.
  unfold do_call. destruct (lib E h c) as [v' | e]; [| discriminate].
  intros H. injection H as <- <-. auto.
Qed.

Lemma of_option_done {A} e (o : option A) E h a t :
  of_option e o E h = (Done a, t) -> o = Some a /\ t = [].
Proof. destruct o; cbn; [| discriminate]. intros H. injection H as <- <-. auto. Qed.

Lemma fold_m_const_acc {X Y} (c : M Y) E h a (l : list X) : forall acc,
  c E h = (Done a, []) ->
  fold_m l (fun (_ : X) acc => y <- c ;; ret (acc ++ [y])) acc E h
  = (Done (acc ++ map (fun _ => a) l), []).
Proof.
  induction l as [| x l IH]; intros acc Hc; cbn [fold_m map].
  - rewrite app_nil_r. reflexivity.
  - rewrite (bind_silent _ _ E h (acc ++ [a])).
    + rewrite IH by exact Hc. rewrite <- app_assoc. reflexivity.
    + rewrite (bind_silent _ _ E h a Hc). reflexivity.
Qed.

Lemma map_m_same {X Y} (c : M Y) (x : X) l E h :
  quiet c ->
  map_m (fun _ => c) (x :: l) E h
  = match fst (c E h) with
    | Done a => (Done (map (fun _ => a) (x :: l)), [])
    | Uncaught e => (Uncaught e, [])
    | Timeout => (Timeout, [])
    end.
Proof.
  intros Hq. destruct (Hq E h) as [Ht _]. destruct (c E h) as [r t0] eqn:Hc.
  cbn [fst snd] in *. subst t0. destruct r as [a | e |].
  - unfold map_m. rewrite (fold_m_const_acc c E h a (x :: l) [] Hc). reflexivity.
  - unfold map_m. cbn [fold_m]. unfold bind at 1. unfold bind at 1. rewrite Hc. reflexivity.
  - unfold map_m. cbn [fold_m]. unfold bind at 1. unfold bind at 1. rewrite Hc. reflexivity.
Qed.

Lemma map_m_done {X Y} (f : X -> M Y) E (l : list X) : forall acc h R t,
  fold_m l (fun x acc => y <- f x ;; ret (acc ++ [y])) acc E h = (Done R, t) ->
  exists ys,
    R = acc ++ ys
    /\ List.length ys = List.length l
    /\ forall i x, nth_error l i = Some x ->
         exists y h' t', f x E h' = (Done y, t') /\ nth_error ys i = Some y /\ incl t' t.
Proof.
  induction l as [| x l IH]; intros acc h R t H; cbn [fold_m] in H.
  - injection H as <- <-. exists []. rewrite app_nil_r. split; [reflexivity |].
    split; [reflexivity |]. intros [| i] x Hx; discriminate.
  - unfold bind at 1 in H. unfold bind at 1 in H.
    destruct (f x E h) as [[y | e |] t1] eqn:Hf; try discriminate.
    cbn [ret] in H. cbv beta iota in H. rewrite app_nil_r in H.
    match type of H with
    | context [fold_m l ?body ?a E ?hh] => destruct (fold_m l body a E hh) as [r t2] eqn:Hrest
    end.
    destruct r as [R' | |]; try discriminate. injection H as <- <-.
    destruct (IH _ _ _ _ Hrest) as (ys & -> & Hlen & Hnth).
    exists (y :: ys). split; [rewrite <- app_assoc; reflexivity |].
    split; [cbn; congruence |].
    intros [| i] x' Hx'; cbn [nth_error] in *.
    + injection Hx' as <-. exists y, h, t1. split; [exact Hf |]. split; [reflexivity |].
      apply incl_appl, incl_refl.
    + destruct (Hnth i x' Hx') as (y' & h' & t' & Hf' & Hy' & Hincl).
      exists y', h', t'. split; [exact Hf' |]. split; [exact Hy' |].
      apply incl_appr. exact Hincl.
Qed.

(** X5.  Bifunctional surface, the motif conformations.  When the cell
    completes there are seven conformations, all as long as the row of
    neighbours of the motif, which has at least twelve slots; in
    conformation [c] the slots listed in [iToSetPt[c]] hold an atom made by
    [Atom("Pt")], the slots listed in [iToSetNi[c]] one made by
    [Atom("Ni")], and every other slot is [None]. *)
Theorem X5_motif_confs :
  forall Lat E h Confs t,
    Bifunctional.cell_confs Lat E h = (Done Confs, t) ->
    List.length Confs = 7
    /\ exists n,
         12 <= n
         /\ forall c Conf, nth_error Confs c = Some Conf ->
              List.length Conf = n
              /\ forall i x, nth_error Conf i = Some x -> slot_ok t c i x.
Proof.
  intros Lat E h Confs t H.
  unfold Bifunctional.cell_confs in H.
  apply bind_done in H. destruct H as (motif & t1 & ta & _ & H & ->).
  apply bind_done in H. destruct H as (u2 & t2 & tb & _ & H & ->).
  apply bind_done in H. destruct H as (u3 & t3 & tc & _ & H & ->).
  apply bind_done in H. destruct H as (Confs0 & t4 & t5 & H0 & H & ->).
  change (range 7) with (0 :: seq 1 6) in H0.
  rewrite map_m_same in H0 by auto 10 using quiet_bind with quiet.
  match type of H0 with
  | context [fst (?c E ?hh)] => destruct (c E hh) as [r0 t0] eqn:Hc
  end.
  assert (Hn : exists n, r0 = Done (repeat VNone n)).
  { destruct r0 as [conf0 | e |]; cbn [fst] in H0; try discriminate.
    apply bind_done in Hc. destruct Hc as (row & q1 & q2 & _ & Hc & _).
    apply bind_done in Hc. destruct Hc as (nbrs & q3 & q4 & _ & Hc & _).
    injection Hc as <- _. eauto. }
  destruct Hn as [n ->]. cbn [fst map] in H0. clear Hc. injection H0 as <- <-.
  unfold map_m in H. apply map_m_done in H.
  destruct H as (ys & HR & Hlen & Hnth). cbn [app] in HR. subst ys.
  assert (Hlen7 : List.length Confs = 7) by (rewrite Hlen; reflexivity).
  split; [exact Hlen7 |].
  exists n.
  assert (Hconf : forall c Conf, nth_error Confs c = Some Conf ->
            List.length Conf = n
            /\ 12 <= n
            /\ forall i x, nth_error Conf i = Some x -> slot_ok t5 c i x).
  { intros c Conf HConf.
    assert (Hc7 : c < 7) by (rewrite <- Hlen7; apply nth_error_Some; congruence).
    assert (Hl : nth_error (enumerate (map (fun _ : nat => repeat VNone n) (0 :: seq 1 6))) c
                 = Some (c, repeat VNone n)).
    { do 7 (destruct c as [| c]; [reflexivity |]). lia. }
    destruct (Hnth c _ Hl) as (y & h' & t' & Hf & Hy & Hincl).
    rewrite HConf in Hy. injection Hy as <-. cbn [fst snd] in Hf.
    apply bind_done in Hf. destruct Hf as (ni & q5 & t6 & Hni & Hf & ->).
    apply of_option_done in Hni. destruct Hni as [Hni ->].
    apply bind_done in Hf. destruct Hf as (C1 & t1' & t6' & HNi & Hf & ->).
    apply bind_done in Hf. destruct Hf as (pt & q6 & t7 & Hpt & HPt & ->).
    apply of_option_done in Hpt. destruct Hpt as [Hpt ->].
    cbn [app] in Hincl.
    destruct (set_atoms_done _ _ _ _ _ _ _ HNi) as (Hlen1 & Hidx1 & Hslots1).
    destruct (set_atoms_done _ _ _ _ _ _ _ HPt) as (Hlen2 & Hidx2 & Hslots2).
    rewrite repeat_length in Hlen1.
    split; [congruence |]. split.
    - assert (H11 : In 11 pt).
      { do 7 (destruct c as [| c]; [cbn in Hpt; injection Hpt as <-; cbn; tauto |]). lia. }
      specialize (Hidx2 11 H11). lia.
    - intros i x Hx. unfold slot_ok.
      rewrite (nth_error_nth _ _ [] Hpt), (nth_error_nth _ _ [] Hni).
      specialize (Hslots2 i x Hx). destruct (mem_nat i pt).
      + unfold made_by in *. apply Hincl. apply in_or_app. right. exact Hslots2.
      + specialize (Hslots1 i x Hslots2). destruct (mem_nat i ni).
        * unfold made_by in *. apply Hincl. apply in_or_app. left. exact Hslots1.
        * apply nth_error_In in Hslots1. apply repeat_spec in Hslots1. exact Hslots1. }
  split.
  - destruct Confs as [| C0 rest]; [discriminate |].
    destruct (Hconf 0 C0 eq_refl) as (_ & H12 & _). exact H12.
  - intros c Conf HConf. destruct (Hconf c Conf HConf) as (HlenC & _ & Hslots).
    split; [exact HlenC |]. intros i x Hx. specialize (Hslots i x Hx).
    unfold slot_ok, made_by in *.
    destruct (mem_nat i _); [| destruct (mem_nat i _)]; try exact Hslots;
      repeat (apply in_or_app; right); exact Hslots.
Qed.

Lemma X5_witness :
  exists Confs t,
    Bifunctional.cell_confs VNone (Lab.works 0) [] = (Done Confs, t)
    /\ List.length Confs = 7
    /\ exists n,
         12 <= n
         /\ forall c Conf, nth_error Confs c = Some Conf ->
              List.length Conf = n
              /\ forall i x, nth_error Conf i = Some x -> slot_ok t c i x.
Proof.
  eexists. eexists. split; [vm_compute; reflexivity |].
  apply (X5_motif_confs VNone (Lab.works 0) []). vm_compute. reflexivity.
Defined.

(* ================================================================== *)
(** * Leaving the refinement loop *)
(* ================================================================== *)

Lemma loop_cond_anywhere v E h h' : CSTR.loop_cond v E h = CSTR.loop_cond v E h'.
Proof.
  unfold CSTR.loop_cond, CSTR.violations, bind, float_lt.
  destruct (Np.greater _ _ _); reflexivity.
Qed.

Lemma while_exit fuel : forall v E h v' t,
  while_ fuel CSTR.loop_cond CSTR.loop_body v E h = (Done v', t) ->
  CSTR.loop_cond v' E h = (Done false, []).
Proof.
  induction fuel as [| fuel IH]; intros v E h v' t H; [discriminate |].
  cbn [while_] in H. apply bind_done in H.
  destruct H as (b & tc & t2 & Hc & H & ->).
  destruct (quiet_loop_cond v E h) as [Ht _]. rewrite Hc in Ht. cbn [snd] in Ht. subst tc.
  destruct b.
  - apply bind_done in H. destruct H as (v1 & t1 & t3 & _ & Hw & _).
    rewrite (loop_cond_anywhere v' E h ((h ++ []) ++ t1)). apply (IH _ _ _ _ _ Hw).
  - injection H as <- _. exact Hc.
Qed.

Lemma greater_all_false lt a b bs :
  Np.greater lt a b = Some bs ->
  existsb (fun x => x) bs = false ->
  List.length a = List.length b ->
  forall i e s, nth_error a i = Some e -> nth_error b i = Some s -> lt s e = false.
Proof.
  unfold Np.greater. intros H Hex Hlen. rewrite Hlen, Nat.eqb_refl in H.
  injection H as <-. intros i e s He Hs.
  destruct (lt s e) eqn:Hlt; [| reflexivity].
  assert (Hin : In (e, s) (combine a b)).
  { clear Hex Hlen. revert b i He Hs.
    induction a as [| x a IH]; intros [| y b] [| i] He Hs; try discriminate.
    - injection He as <-. injection Hs as <-. left. reflexivity.
    - right. apply (IH b i He Hs). }
  assert (existsb (fun x => x) (map (fun xy => lt (snd xy) (fst xy)) (combine a b)) = true).
  { apply existsb_exists. exists true. split; [| reflexivity].
    apply in_map_iff. exists (e, s). split; [exact Hlt | exact Hin]. }
  congruence.
Qed.

(** X6.  CSTR, [while any(err > [2 * noise * s for s in new_res])].  When
    the loop ends, the condition is false for the variables it leaves:
    entry by entry, no error is above [2 * noise] times the simulated
    value.  When the condition is false at the start, the loop makes no
    pass: nothing is called and the variables stay as they are. *)
Theorem X6_loop_exit :
  forall fuel v0 E h,
    (forall v' t,
        CSTR.cell_loop fuel v0 E h = (Done v', t) ->
        CSTR.loop_cond v' E (h ++ t) = (Done false, [])
        /\ (List.length (Np.as_vector (CSTR.err v')) = List.length (CSTR.new_res v') ->
            forall i e s,
              nth_error (Np.as_vector (CSTR.err v')) i = Some e ->
              nth_error (CSTR.new_res v') i = Some s ->
              flt_lt E (mul (mul (VInt 2) CSTR.noise) s) e = false))
    /\ (CSTR.loop_cond v0 E h = (Done false, []) ->
        CSTR.cell_loop (S fuel) v0 E h = (Done v0, [])).
Proof.
  intros fuel v0 E h. split.
  - intros v' t H. unfold CSTR.cell_loop in H.
    pose proof (while_exit _ _ _ _ _ _ H) as Hc.
    split; [rewrite (loop_cond_anywhere v' E (h ++ t) h); exact Hc |].
    intros Hlen i e s He Hs.
    unfold CSTR.loop_cond, CSTR.violations, bind, float_lt in Hc.
    destruct (Np.greater _ _ _) as [bs |] eqn:Hg; cbn in Hc; [| discriminate].
    injection Hc as Hex.
    refine (greater_all_false _ _ _ _ Hg Hex _ i e _ He _).
    + rewrite length_map. exact Hlen.
    + rewrite nth_error_map, Hs. reflexivity.
  - intros Hc. unfold CSTR.cell_loop. cbn [while_].
    rewrite (bind_silent _ _ E h false Hc). reflexivity.
Qed.

Lemma X6_witness :
  (exists v' t,
      CSTR.cell_loop 5 hot_start (Lab.works 1) [] = (Done v', t)
      /\ CSTR.ite v' = 2
      /\ CSTR.loop_cond v' (Lab.works 1) ([] ++ t) = (Done false, [])
      /\ (List.length (Np.as_vector (CSTR.err v')) = List.length (CSTR.new_res v') ->
          forall i e s,
            nth_error (Np.as_vector (CSTR.err v')) i = Some e ->
            nth_error (CSTR.new_res v') i = Some s ->
            Lab.less (mul (mul (VInt 2) CSTR.noise) s) e = false))
  /\ CSTR.cell_loop 1 Lab.start Lab.steady [] = (Done Lab.start, []).
Proof.
  split.
  - eexists. eexists. split; [vm_compute; reflexivity |]. split; [reflexivity |].
    apply (proj1 (X6_loop_exit 5 hot_start (Lab.works 1) [])). vm_compute. reflexivity.
  - apply (proj2 (X6_loop_exit 0 Lab.start Lab.steady [])). reflexivity.
Defined.

(* ================================================================== *)
(** * What one pass of the refinement loop hands to RIPE *)
(* ================================================================== *)




(** X8.  CSTR, what stops a pass of the loop.  With the arrays well
    shaped: a sampled point whose length is neither [ns] nor one makes
    [new_cdata0[-1][:] = new_points[:]] raise [ValueError], after the line
    of violations is printed and before anything is called; a simulator
    that returns no row makes [isotsim.sim(new_points)[0]] raise
    [IndexError], and one that returns more than [ns] values makes
    [new_cdata[-1][j] = res[j]] raise [IndexError], both before the fit is
    called. *)
Theorem X8_pass_errors :
  forall E h v point,
    arrays_shaped v ->
    Np.as_row (CSTR.new_points v) = Some point ->
    exists bs,
      (List.length point <> CSTR.ns -> List.length point <> 1 ->
         CSTR.loop_body v E h = (Uncaught ValueError, [violation_line bs]))
      /\ (List.length point = CSTR.ns -> sim_answers E v [] ->
            CSTR.loop_body v E h
            = (Uncaught IndexError,
               [violation_line bs;
                ECall (Call "isotsim.sim" [CSTR.new_points v] [])
                      (Returns (Np.array_val []))]))
      /\ (forall res rest,
            List.length point = CSTR.ns -> sim_answers E v (res :: rest) ->
            CSTR.ns < List.length res ->
            CSTR.loop_body v E h
            = (Uncaught IndexError,
               [violation_line bs;
                ECall (Call "isotsim.sim" [CSTR.new_points v] [])
                      (Returns (Np.array_val (res :: rest)))])).
Proof.
  intros E h v point (H0 & H1 & Hr0 & Hr1 & Herr) Hpoint.
  assert (Hne0 : CSTR.cdata0 v <> []).
  { intros Heq. rewrite Heq in H0. unfold CSTR.nd in H0. cbn in H0. lia. }
  assert (Hne1 : CSTR.cdata v <> []).
  { intros Heq. rewrite Heq in H1. unfold CSTR.nd in H1. cbn in H1. lia. }
  destruct (greater_same (flt_lt E) (Np.as_vector (CSTR.err v))
              (map (fun s => mul CSTR.noise s) (CSTR.new_res v))) as [bs Hbs].
  { rewrite length_map. exact Herr. }
  exists bs.
  assert (Hstart : forall k : list val -> Np.array -> Np.array -> M CSTR.vars,
    (bs0 <- CSTR.violations (fun n => n) v ;;
     print [VStr "Which concentrations violate error (True=violation) : ";
            VList (map VBool bs0)] ;;
     new_cdata0 <- of_option ValueError
                     (Np.assign_head CSTR.ns (Np.zeros (CSTR.nd + (CSTR.ite v + 1)) CSTR.ns)
                        (CSTR.cdata0 v)) ;;
     new_cdata <- of_option ValueError
                    (Np.assign_head CSTR.ns (Np.zeros (CSTR.nd + (CSTR.ite v + 1)) CSTR.ns)
                       (CSTR.cdata v)) ;;
     point <- of_option ValueError (Np.as_row (CSTR.new_points v)) ;;
     k point new_cdata0 new_cdata) E h
    = let (r, t) := k point (CSTR.cdata0 v ++ [repeat (VFloat "0.0") CSTR.ns])
                      (CSTR.cdata v ++ [repeat (VFloat "0.0") CSTR.ns]) E
                      (h ++ [violation_line bs]) in
      (r, violation_line bs :: t)).
  { intros k.
    replace (CSTR.nd + (CSTR.ite v + 1)) with (List.length (CSTR.cdata0 v) + 1) by lia.
    rewrite (assign_head_zeros CSTR.ns (CSTR.cdata0 v) Hne0 Hr0).
    replace (List.length (CSTR.cdata0 v) + 1) with (List.length (CSTR.cdata v) + 1) by lia.
    rewrite (assign_head_zeros CSTR.ns (CSTR.cdata v) Hne1 Hr1).
    rewrite Hpoint.
    unfold bind at 1. unfold CSTR.violations, bind at 1, float_lt. rewrite Hbs.
    cbn [of_option ret app]. cbv beta iota.
    unfold bind at 1. cbn [print]. cbv beta iota.
    do 3 (unfold bind at 1; cbn [of_option ret]; cbv beta iota).
    rewrite !app_nil_r. cbn [app].
    destruct (k _ _ _ E _) as [r t]. reflexivity. }
  unfold CSTR.loop_body.
  split; [| split].
  - intros Hns H1'. rewrite Hstart.
    unfold Np.assign_last.
    destruct (CSTR.cdata0 v ++ [repeat (VFloat "0.0") CSTR.ns]) eqn:Heq;
      [destruct (CSTR.cdata0 v); discriminate |].
    destruct (Nat.eqb_spec (List.length point) CSTR.ns) as [Heq' | _]; [contradiction |].
    destruct point as [| x [| y point]]; cbn in H1'; try contradiction; reflexivity.
  - intros Hns Hsim. rewrite Hstart.
    rewrite (assign_last_app CSTR.ns (CSTR.cdata0 v) _ point Hns).
    unfold bind at 1; cbn [of_option ret]; cbv beta iota.
    unfold bind at 1. unfold CSTR.sim_first, CSTR.sim, bind, call_, do_call.
    rewrite Hsim. rewrite as_array_val. reflexivity.
  - intros res rest Hns Hsim Hlong. rewrite Hstart.
    rewrite (assign_last_app CSTR.ns (CSTR.cdata0 v) _ point Hns).
    unfold bind at 1; cbn [of_option ret]; cbv beta iota.
    unfold bind at 1. unfold CSTR.sim_first, CSTR.sim, call_.
    unfold bind at 1. unfold bind at 1. unfold do_call.
    rewrite Hsim. rewrite as_array_val. cbn [of_option ret nth_error]. cbv beta iota.
    unfold Np.assign_last_items.
    destruct (CSTR.cdata v ++ [repeat (VFloat "0.0") CSTR.ns]) eqn:Heq;
      [destruct (CSTR.cdata v); discriminate |].
    rewrite <- Heq, last_last, repeat_length.
    destruct (Nat.leb_spec (List.length res) CSTR.ns) as [Hle | _]; [lia |].
    reflexivity.
Qed.

Lemma start_arrays v :
  CSTR.ite v = 0 -> CSTR.cdata0 v = CSTR.cdata0_init -> CSTR.cdata v = [Lab.ones; Lab.ones] ->
  CSTR.err v = Lab.small_error -> CSTR.new_res v = Lab.ones ->
  arrays_shaped v.
Proof.
  intros Hi H0 H1 He Hr. unfold arrays_shaped. rewrite Hi, H0, H1, He, Hr.
  repeat split; repeat constructor.
Qed.

Lemma X8_witness :
  (exists bs, CSTR.loop_body short_point Lab.steady []
              = (Uncaught ValueError, [violation_line bs]))
  /\ (exists bs, CSTR.loop_body Lab.start (sim_gives []) []
                 = (Uncaught IndexError,
                    [violation_line bs;
                     ECall (Call "isotsim.sim" [CSTR.new_points Lab.start] [])
                           (Returns (Np.array_val []))]))
  /\ (exists bs, CSTR.loop_body Lab.start (sim_gives [Lab.ones ++ Lab.ones]) []
                 = (Uncaught IndexError,
                    [violation_line bs;
                     ECall (Call "isotsim.sim" [CSTR.new_points Lab.start] [])
                           (Returns (Np.array_val [Lab.ones ++ Lab.ones]))])).
Proof.
  split; [| split].
  - destruct (X8_pass_errors Lab.steady [] short_point [Lab.f "1.0"; Lab.f "1.0"]
                (start_arrays short_point eq_refl eq_refl eq_refl eq_refl eq_refl) eq_refl)
      as (bs & Ha & _).
    exists bs. apply Ha; unfold CSTR.ns; cbn; lia.
  - destruct (X8_pass_errors (sim_gives []) [] Lab.start Lab.ones
                (start_arrays Lab.start eq_refl eq_refl eq_refl eq_refl eq_refl) eq_refl)
      as (bs & _ & Hb & _).
    exists bs. apply Hb; [reflexivity | intros h; reflexivity].
  - destruct (X8_pass_errors (sim_gives [Lab.ones ++ Lab.ones]) [] Lab.start Lab.ones
                (start_arrays Lab.start eq_refl eq_refl eq_refl eq_refl eq_refl) eq_refl)
      as (bs & _ & _ & Hc).
    exists bs. apply (Hc (Lab.ones ++ Lab.ones) []);
      [reflexivity | intros h; reflexivity | unfold CSTR.ns; cbn; lia].
Defined.

(* ================================================================== *)
(** * The tables handed to [PiecewiseLinear] *)
(* ================================================================== *)

Lemma piecewise_audit nb fuel :
  triple (all_step piecewise_ok) true (script nb fuel) (fun _ ok => ok = true).
Proof. destruct nb; unfold script; walk ltac:(reflexivity). Qed.

(** X9.  In every run of every notebook, each [PiecewiseLinear] call
    (nanowire [Vi], the [CNRi] of both nanocluster notebooks, the [Ei] of
    both surface notebooks) is given a list of values and a list of
    breakpoints of the same length, at least two, the breakpoints integers
    that go up strictly, and [m.Ci] as the descriptor it reads. *)
Theorem X9_piecewise_tables :
  forall nb fuel E, Forall (fun ev => piecewise_ok ev = true) (events nb fuel E).
Proof.
  intros nb fuel E.
  pose proof (triple_run _ true _ _ E (piecewise_audit nb fuel)) as H.
  apply observe_all in H. apply H.
Qed.

(* ================================================================== *)
(** * The scratch directory of the perovskite notebook *)
(* ================================================================== *)



(* ================================================================== *)
(** * The bond coefficients of the bimetallic notebook *)
(* ================================================================== *)

Lemma quiet_fold_m {X S} (body : X -> S -> M S) (l : list X) :
  (forall x s, quiet (body x s)) -> forall s, quiet (fold_m l body s).
Proof.
  intros Hb. induction l as [| x l IH]; intros s; cbn [fold_m].
  - apply quiet_ret.
  - apply quiet_bind; [apply Hb | exact IH].
Qed.

Lemma bind_quiet_uncaught {A B} (m : M A) (k : A -> M B) E h e t :
  quiet m ->
  bind m k E h = (Uncaught e, t) ->
  (m E h = (Uncaught e, []) /\ t = [])
  \/ exists a, m E h = (Done a, []) /\ k a E h = (Uncaught e, t).
Proof.
  intros Hq H. destruct (Hq E h) as [Ht Hr]. unfold bind in H.
  destruct (m E h) as [[a | e' |] t1]; cbn [fst snd] in *; subst t1.
  - right. exists a. split; [reflexivity |]. rewrite app_nil_r in H.
    destruct (k a E h) as [r t2]. exact H.
  - left. injection H as -> <-. auto.
  - congruence.
Qed.

Lemma fold_m_quiet_uncaught {X S} (body : X -> S -> M S) E h e (l : list X) :
  (forall x s, quiet (body x s)) ->
  forall s t,
    fold_m l body s E h = (Uncaught e, t) ->
    exists x s', In x l /\ body x s' E h = (Uncaught e, []).
Proof.
  intros Hb. induction l as [| x l IH]; intros s t H; cbn [fold_m] in H.
  - discriminate.
  - apply bind_quiet_uncaught in H; [| apply Hb].
    destruct H as [[H _] | (s1 & _ & H)].
    + exists x, s. split; [left; reflexivity | exact H].
    + destruct (IH _ _ H) as (y & s' & Hy & Hrun).
      exists y, s'. split; [right; exact Hy | exact Hrun].
Qed.

Lemma bind_call_returns {B} c (k : val -> M B) E h v :
  lib E h c = Returns v ->
  bind (do_call c) k E h
  = let (r, t) := k v E (h ++ [ECall c (Returns v)]) in (r, ECall c (Returns v) :: t).
Proof. intros H. unfold bind, do_call. rewrite H. reflexivity. Qed.

Lemma quiet_neighborhood Canv i : quiet (Bimetallic.neighborhood Canv i).
Proof.
  unfold Bimetallic.neighborhood.
  apply quiet_bind; [apply quiet_index_of | intro; apply quiet_of_option].
Qed.

Lemma neighborhood_not_zero Canv i E h t :
  Bimetallic.neighborhood Canv i E h <> (Uncaught ZeroDivisionError, t).
Proof.
  intros H. unfold Bimetallic.neighborhood, index_of, read_list, read, bind in H.
  cbv beta iota in H.
  repeat match type of H with
  | context [of_option _ ?o] =>
      destruct o; cbn [of_option ret raise] in H; cbv beta iota in H
  end; discriminate.
Qed.

Lemma count_neighbors_pos row j :
  In j row -> is_None j = false -> 1 <= Bimetallic.count_neighbors row.
Proof.
  intros Hin Hj. unfold Bimetallic.count_neighbors.
  assert (H : In j (filter (fun x => negb (is_None x)) row)).
  { apply filter_In. split; [exact Hin |]. rewrite Hj. reflexivity. }
  destruct (filter _ row); [destruct H | cbn; lia].
Qed.

Lemma as_nat_VNat v n : as_nat v = Some n -> v = VNat n.
Proof.
  destruct v; cbn; try discriminate.
  destruct (Z.leb_spec 0 z) as [Hz | Hz]; [| discriminate].
  intros Heq. injection Heq as <-. unfold VNat. rewrite Z2Nat.id by assumption. reflexivity.
Qed.

(** X11.  Bimetallic, the loop that fills [BEijCoefs].  With [Atom]
    calls that return, the cell ends in [ZeroDivisionError] only when some
    site names a neighbour whose own row of neighbours holds nothing but
    [None]: the division by [sqrt(CNj)] fails.  The division by
    [sqrt(CNi)] never does, a site that has a neighbour to loop over counts
    at least that one.  The cell has then called [Atom] eight times and
    nothing else. *)
Theorem X11_bond_coefficients :
  forall Canv Atoms E h t,
    atoms_return E ->
    Bimetallic.cell_coefs Canv Atoms E h = (Uncaught ZeroDivisionError, t) ->
    List.length t = 8
    /\ Forall (fun ev => exists s v, ev = ECall (Call "Atom" [VStr s] []) (Returns v)) t
    /\ exists i j, lonely_neighbor Canv E (h ++ t) i j.
Proof.
  intros Canv Atoms E h t Hatoms H.
  unfold Bimetallic.cell_coefs, Atom, call_ in H.
  assert (Hstep : forall s (k : val -> M val) hh tt,
            bind (do_call (Call "Atom" [VStr s] [])) k E hh = (Uncaught ZeroDivisionError, tt) ->
            exists v t', k v E (hh ++ [ECall (Call "Atom" [VStr s] []) (Returns v)])
                         = (Uncaught ZeroDivisionError, t')
                         /\ tt = ECall (Call "Atom" [VStr s] []) (Returns v) :: t').
  { intros s k hh tt Hb. destruct (Hatoms hh s) as [v Hv].
    rewrite (bind_call_returns _ _ E hh v Hv) in Hb.
    destruct (k v E _) as [r t'] eqn:Hk. injection Hb as -> <-. eauto. }
  apply Hstep in H. destruct H as (a1 & t1 & H & ->).
  apply Hstep in H. destruct H as (a2 & t2 & H & ->).
  apply Hstep in H. destruct H as (b1 & t3 & H & ->).
  apply Hstep in H. destruct H as (b2 & t4 & H & ->).
  apply Hstep in H. destruct H as (c1 & t5 & H & ->).
  apply Hstep in H. destruct H as (c2 & t6 & H & ->).
  apply Hstep in H. destruct H as (d1 & t7 & H & ->).
  apply Hstep in H. destruct H as (d2 & t8 & H & ->).
  clear Hstep.
  repeat rewrite <- app_assoc in H. cbn [app] in H.
  match type of H with
  | _ E ?hh = _ => set (h8 := hh) in *
  end.
  apply bind_quiet_uncaught in H; [| apply quiet_read_len].
  destruct H as [[H _] | (n & _ & H)].
  { unfold read_len, bind, read in H. cbn in H.
    destruct (as_nat _); cbn in H; discriminate. }
  apply bind_quiet_uncaught in H.
  2:{ apply quiet_fold_m. intros i acc.
      apply quiet_bind; [apply quiet_neighborhood |]. intros row_i.
      apply quiet_fold_m. intros j acc'.
      destruct (negb (is_None j)); [| apply quiet_ret].
      apply quiet_bind; [apply quiet_of_option |]. intros j'.
      apply quiet_bind; [apply quiet_neighborhood |]. intros row_j.
      apply quiet_fold_m. intros k acc''. apply quiet_fold_m. intros l acc3.
      destruct (_ || _); [apply quiet_raise | apply quiet_ret]. }
  destruct H as [[H Ht] | (BE & _ & H)]; [| discriminate].
  subst t8.
  split; [reflexivity |]. split; [repeat constructor; eauto |].
  apply fold_m_quiet_uncaught in H.
  2:{ intros i acc.
      apply quiet_bind; [apply quiet_neighborhood |]. intros row_i.
      apply quiet_fold_m. intros j acc'.
      destruct (negb (is_None j)); [| apply quiet_ret].
      apply quiet_bind; [apply quiet_of_option |]. intros j'.
      apply quiet_bind; [apply quiet_neighborhood |]. intros row_j.
      apply quiet_fold_m. intros k acc''. apply quiet_fold_m. intros l acc3.
      destruct (_ || _); [apply quiet_raise | apply quiet_ret]. }
  destruct H as (i & acc & _ & H).
  apply bind_quiet_uncaught in H; [| apply quiet_neighborhood].
  destruct H as [[H _] | (row_i & Hrow_i & H)].
  { destruct (neighborhood_not_zero _ _ _ _ _ H). }
  apply fold_m_quiet_uncaught in H.
  2:{ intros j acc'.
      destruct (negb (is_None j)); [| apply quiet_ret].
      apply quiet_bind; [apply quiet_of_option |]. intros j'.
      apply quiet_bind; [apply quiet_neighborhood |]. intros row_j.
      apply quiet_fold_m. intros k acc''. apply quiet_fold_m. intros l acc3.
      destruct (_ || _); [apply quiet_raise | apply quiet_ret]. }
  destruct H as (j & acc' & Hj & H).
  destruct (is_None j) eqn:HjN; cbn [negb] in H; [discriminate |].
  apply bind_quiet_uncaught in H; [| apply quiet_of_option].
  destruct H as [[H _] | (j' & Hj' & H)].
  { destruct (as_nat j); cbn in H; discriminate. }
  pose proof (proj1 (of_option_done _ _ _ _ _ _ Hj')) as Hjn.
  apply as_nat_VNat in Hjn. subst j.
  apply bind_quiet_uncaught in H; [| apply quiet_neighborhood].
  destruct H as [[H _] | (row_j & Hrow_j & H)].
  { destruct (neighborhood_not_zero _ _ _ _ _ H). }
  apply fold_m_quiet_uncaught in H.
  2:{ intros k acc''. apply quiet_fold_m. intros l acc3.
      destruct (_ || _); [apply quiet_raise | apply quiet_ret]. }
  destruct H as (k & acc'' & _ & H).
  apply fold_m_quiet_uncaught in H.
  2:{ intros l acc3. destruct (_ || _); [apply quiet_raise | apply quiet_ret]. }
  destruct H as (l & acc3 & _ & H).
  pose proof (count_neighbors_pos row_i _ Hj HjN) as Hpos.
  destruct (Nat.eqb_spec (Bimetallic.count_neighbors row_i) 0) as [H0 | _]; [lia |].
  destruct (Nat.eqb_spec (Bimetallic.count_neighbors row_j) 0) as [H0 | _];
    cbn [orb] in H; [| discriminate].
  exists i, j', row_i, row_j.
  fold h8. auto.
Qed.

Lemma X11_witness :
  exists t,
    Bimetallic.cell_coefs VNone [VObj 0] lonely [] = (Uncaught ZeroDivisionError, t)
    /\ List.length t = 8
    /\ Forall (fun ev => exists s v, ev = ECall (Call "Atom" [VStr s] []) (Returns v)) t
    /\ exists i j, lonely_neighbor VNone lonely ([] ++ t) i j.
Proof.
  eexists. split; [vm_compute; reflexivity |].
  apply (X11_bond_coefficients VNone [VObj 0] lonely []).
  - intros h s. eexists. reflexivity.
  - vm_compute. reflexivity.
Defined.

(* ================================================================== *)
(** * The sites of the perovskite lattice *)
(* ================================================================== *)

Lemma quiet_done {A} (m : M A) E h a t : quiet m -> m E h = (Done a, t) -> t = [].
Proof. intros Hq H. destruct (Hq E h) as [Ht _]. rewrite H in Ht. exact Ht. Qed.

Lemma kept_sorted Sites : forall keep,
  StronglySorted Nat.lt Sites -> StronglySorted Nat.lt (kept Sites keep).
Proof.
  unfold kept. induction Sites as [| i Sites IH]; intros [| b keep] Hs;
    cbn [combine filter map]; try constructor.
  inversion Hs as [| ? ? Hs' Hall]; subst.
  destruct b; cbn [snd map fst]; [| apply IH; exact Hs'].
  constructor; [apply IH; exact Hs' |].
  apply Forall_forall. intros j Hj. apply in_map_iff in Hj.
  destruct Hj as ([j' b'] & <- & Hj). apply filter_In in Hj. destruct Hj as [Hj _].
  apply in_combine_l in Hj. rewrite Forall_forall in Hall. apply Hall. exact Hj.
Qed.

Lemma kept_incl Sites keep : incl (kept Sites keep) Sites.
Proof.
  unfold kept. intros j Hj. apply in_map_iff in Hj.
  destruct Hj as ([j' b'] & <- & Hj). apply filter_In in Hj. destruct Hj as [Hj _].
  apply in_combine_l in Hj. exact Hj.
Qed.

Lemma sites_where_done test Lat Canv E (Sites : list nat) : forall acc h R t,
  fold_m Sites
    (fun i acc =>
       b <- (p <- index_of Canv@."Points" i ;; r <- call_ test [Lat; p] ;; truth r) ;;
       ret (if b then acc ++ [i] else acc)) acc E h = (Done R, t) ->
  exists keep,
    List.length keep = List.length Sites
    /\ R = acc ++ kept Sites keep
    /\ List.length t = List.length Sites
    /\ forall k i, nth_error Sites k = Some i ->
         exists p v b,
           nth_error t k = Some (ECall (Call test [Lat; p] []) (Returns v))
           /\ index_of Canv@."Points" i E (h ++ firstn k t) = (Done p, [])
           /\ nth_error keep k = Some b
           /\ counts_as E v b.
Proof.
  induction Sites as [| i Sites IH]; intros acc h R t H; cbn [fold_m] in H.
  - injection H as <- <-. exists []. unfold kept. cbn. rewrite app_nil_r.
    repeat split. intros [| k] i Hi; discriminate.
  - apply bind_done in H. destruct H as (acc1 & t1 & t2 & Hstep & Hrest & ->).
    apply bind_done in Hstep. destruct Hstep as (b & tb & tr & Hb & Hret & ->).
    injection Hret as <- <-. rewrite app_nil_r in *.
    apply bind_done in Hb. destruct Hb as (p & tp & tq & Hp & Hb & ->).
    pose proof (quiet_done _ _ _ _ _ (quiet_index_of _ _) Hp) as ->.
    apply bind_done in Hb. destruct Hb as (v & tc & tt & Hc & Htruth & ->).
    apply call_done in Hc. destruct Hc as [_ ->].
    pose proof (quiet_done _ _ _ _ _ (quiet_truth _) Htruth) as ->.
    cbn [app] in *. rewrite app_nil_r in *.
    destruct (IH _ _ _ _ Hrest) as (keep & Hlen & HR & Hlt & Hnth).
    exists (b :: keep). split; [cbn; congruence |]. split.
    + rewrite HR. unfold kept. cbn [combine filter snd].
      destruct b; cbn [map fst]; [rewrite <- app_assoc |]; reflexivity.
    + split; [cbn; congruence |].
      intros [| k] j Hj; cbn [nth_error firstn] in *.
      * injection Hj as <-. exists p, v, b. rewrite app_nil_r.
        repeat split; [exact Hp |]. eexists. exact Htruth.
      * destruct (Hnth k j Hj) as (p' & v' & b' & Hev & Hp' & Hk & Hcount).
        exists p', v', b'. repeat split; try assumption.
        rewrite <- app_assoc in Hp'. exact Hp'.
Qed.

(** X12.  Perovskite, [ASites], [BSites], [OSites]
    ([[i for i in Sites if Lat.isASite(Canv.Points[i])]] and the like).
    When the comprehension completes, the lattice was asked exactly once
    for each site, in order, about the point the canvas held for that site
    at that moment, and nothing else was called; the result holds exactly
    the sites whose answer counts as true, in the order of [Sites]: it is
    within [Sites], and strictly increasing when [Sites] is. *)
Theorem X12_lattice_sites :
  forall test Lat Canv Sites E h R t,
    Perovskite.sites_where test Lat Canv Sites E h = (Done R, t) ->
    exists keep,
      List.length keep = List.length Sites
      /\ R = kept Sites keep
      /\ List.length t = List.length Sites
      /\ (forall k i, nth_error Sites k = Some i ->
            exists p v b,
              nth_error t k = Some (ECall (Call test [Lat; p] []) (Returns v))
              /\ index_of Canv@."Points" i E (h ++ firstn k t) = (Done p, [])
              /\ nth_error keep k = Some b
              /\ counts_as E v b)
      /\ incl R Sites
      /\ (StronglySorted Nat.lt Sites -> StronglySorted Nat.lt R).
Proof.
  intros test Lat Canv Sites E h R t H.
  unfold Perovskite.sites_where, filter_m in H.
  destruct (sites_where_done _ _ _ _ _ _ _ _ _ H) as (keep & Hlen & HR & Hlt & Hnth).
  cbn [app] in HR. exists keep. repeat split; try assumption.
  - rewrite HR. apply kept_incl.
  - intros Hs. rewrite HR. apply kept_sorted. exact Hs.
Qed.

Lemma X12_witness :
  exists R t keep,
    Perovskite.sites_where "PerovskiteLattice.isOSite" VNone VNone (range 2) (Lab.works 0) []
    = (Done R, t)
    /\ List.length keep = List.length (range 2)
    /\ R = kept (range 2) keep
    /\ List.length t = List.length (range 2)
    /\ (forall k i, nth_error (range 2) k = Some i ->
          exists p v b,
            nth_error t k
            = Some (ECall (Call "PerovskiteLattice.isOSite" [VNone; p] []) (Returns v))
            /\ index_of VNone@."Points" i (Lab.works 0) ([] ++ firstn k t) = (Done p, [])
            /\ nth_error keep k = Some b
            /\ counts_as (Lab.works 0) v b)
    /\ incl R (range 2)
    /\ (StronglySorted Nat.lt (range 2) -> StronglySorted Nat.lt R).
Proof.
  destruct (X12_lattice_sites "PerovskiteLattice.isOSite" VNone VNone (range 2)
              (Lab.works 0) [] [0; 1] _ eq_refl) as (keep & H).
  eexists. eexists. exists keep. split; [reflexivity | exact H].
Defined.

(* ================================================================== *)
(** * The model the CSTR notebook ends with *)
(* ================================================================== *)





Lemma fold_m_flat {X Y} (body : X -> list Y -> M (list Y)) (g : X -> list Y) E h
    (l : list X) :
  (forall x acc, In x l -> body x acc E h = (Done (acc ++ g x), [])) ->
  forall acc, fold_m l body acc E h = (Done (acc ++ flat_map g l), []).
Proof.
  induction l as [| x l IH]; intros Hb acc; cbn [fold_m flat_map].
  - rewrite app_nil_r. reflexivity.
  - rewrite (bind_silent _ _ E h _ (Hb x acc (or_introl eq_refl))).
    rewrite IH by (intros y acc' Hy; apply Hb; right; exact Hy).
    rewrite <- app_assoc. reflexivity.
Qed.

Lemma as_nat_of_VNat n : as_nat (VNat n) = Some n.
Proof.
  unfold as_nat, VNat. destruct (Z.leb_spec 0 (Z.of_nat n)); [| lia].
  rewrite Nat2Z.id. reflexivity.
Qed.

Lemma index_of_holds E h ref l i x :
  mem E h ref = VList l -> nth_error l i = Some x ->
  index_of ref i E h = (Done x, []).
Proof.
  intros Hm Hx. unfold index_of, read_list, bind, read. rewrite Hm. cbn [as_list of_option ret].
  cbv beta iota. rewrite Hx. reflexivity.
Qed.

Lemma neighborhood_holds E Canv rows i h :
  canvas_holds E Canv rows -> i < List.length rows ->
  Bimetallic.neighborhood Canv i E h = (Done (nth i rows []), []).
Proof.
  intros Hc Hi. unfold Bimetallic.neighborhood.
  rewrite (bind_silent _ _ E h (VList (nth i rows []))).
  - reflexivity.
  - apply (index_of_holds E h _ (map VList rows)); [apply (Hc h) |].
    rewrite nth_error_map, (nth_error_nth' rows [] Hi). reflexivity.
Qed.

(** X14.  Bimetallic, the loop that fills [BEijCoefs], on a canvas whose
    rows of neighbours hold only [None] and sites that have a neighbour
    themselves.  With [Atom] calls that return, the cell completes after
    its eight [Atom] calls and returns, in the order of the loops, one
    entry for every site [i], every neighbour [j] of it that is not [None]
    and every pair of atoms [k], [l], with the value
    [GklCoefs[k, l] / sqrt(CNi) + GklCoefs[l, k] / sqrt(CNj)], where [CNi]
    and [CNj] count the neighbours of [i] and [j] that are not [None]. *)
Theorem X14_bond_table :
  forall Canv Atoms E h rows,
    atoms_return E ->
    canvas_holds E Canv rows ->
    no_lonely_site rows ->
    exists a,
      List.length a = 8
      /\ Bimetallic.cell_coefs Canv Atoms E h
         = (Done (VDict (all_bond_entries (Gkl a) rows Atoms)),
            map (fun sv => ECall (Call "Atom" [VStr (fst sv)] []) (Returns (snd sv)))
                (combine ["Cu"; "Cu"; "Cu"; "Ag"; "Ag"; "Ag"; "Ag"; "Cu"] a)).
Proof.
  intros Canv Atoms E h rows Hatoms Hcanv Hrows.
  unfold Bimetallic.cell_coefs, Atom, call_.
  assert (Hstep : forall s (k : val -> M val) hh,
            exists v,
              lib E hh (Call "Atom" [VStr s] []) = Returns v
              /\ bind (do_call (Call "Atom" [VStr s] [])) k E hh
                 = let (r, t) := k v E (hh ++ [ECall (Call "Atom" [VStr s] []) (Returns v)]) in
                   (r, ECall (Call "Atom" [VStr s] []) (Returns v) :: t)).
  { intros s k hh. destruct (Hatoms hh s) as [v Hv]. exists v.
    split; [exact Hv | apply bind_call_returns; exact Hv]. }
  match goal with |- context [bind (do_call (Call "Atom" [VStr ?s] [])) ?k E ?hh] =>
    destruct (Hstep s k hh) as (a1 & _ & ->) end.
  match goal with |- context [bind (do_call (Call "Atom" [VStr ?s] [])) ?k E ?hh] =>
    destruct (Hstep s k hh) as (a2 & _ & ->) end.
  match goal with |- context [bind (do_call (Call "Atom" [VStr ?s] [])) ?k E ?hh] =>
    destruct (Hstep s k hh) as (b1 & _ & ->) end.
  match goal with |- context [bind (do_call (Call "Atom" [VStr ?s] [])) ?k E ?hh] =>
    destruct (Hstep s k hh) as (b2 & _ & ->) end.
  match goal with |- context [bind (do_call (Call "Atom" [VStr ?s] [])) ?k E ?hh] =>
    destruct (Hstep s k hh) as (c1 & _ & ->) end.
  match goal with |- context [bind (do_call (Call "Atom" [VStr ?s] [])) ?k E ?hh] =>
    destruct (Hstep s k hh) as (c2 & _ & ->) end.
  match goal with |- context [bind (do_call (Call "Atom" [VStr ?s] [])) ?k E ?hh] =>
    destruct (Hstep s k hh) as (d1 & _ & ->) end.
  match goal with |- context [bind (do_call (Call "Atom" [VStr ?s] [])) ?k E ?hh] =>
    destruct (Hstep s k hh) as (d2 & _ & ->) end.
  clear Hstep.
  exists [a1; a2; b1; b2; c1; c2; d1; d2]. split; [reflexivity |].
  match goal with
  | |- context [bind (read_len Canv) ?k E ?hh] =>
      assert (Hrest : bind (read_len Canv) k E hh
                      = (Done (VDict (all_bond_entries
                                        (Gkl [a1; a2; b1; b2; c1; c2; d1; d2]) rows Atoms)), []));
      [ set (h8 := hh) | rewrite Hrest; reflexivity ]
  end.
  rewrite (bind_silent _ _ E h8 (List.length rows)).
  2:{ unfold read_len, bind, read. rewrite (proj1 (Hcanv h8)), as_nat_of_VNat. reflexivity. }
  set (G := VDict _).
  change G with (Gkl [a1; a2; b1; b2; c1; c2; d1; d2]).
  rewrite (bind_silent _ _ E h8 (all_bond_entries G rows Atoms)); [reflexivity |].
  unfold all_bond_entries.
  match goal with
  | |- _ = (Done (flat_map ?g ?l), []) => refine (fold_m_flat _ g E h8 l _ [])
  end.
  intros i acc Hi.
  apply in_seq in Hi.
  rewrite (bind_silent _ _ E h8 _ (neighborhood_holds E Canv rows i h8 Hcanv (proj2 Hi))).
  match goal with
  | |- _ = (Done (?a ++ flat_map ?g ?l), []) => refine (fold_m_flat _ g E h8 l _ a)
  end.
  intros j acc' Hj.
  destruct (Hrows (nth i rows []) j (nth_In _ _ (proj2 Hi)) Hj) as [-> | (j' & -> & Hj' & Hpos)].
  { cbn [is_None negb]. rewrite app_nil_r. reflexivity. }
  assert (HjN : is_None (VNat j') = false) by reflexivity.
  rewrite HjN. cbn [negb]. unfold bond_entries. rewrite as_nat_of_VNat.
  rewrite (bind_silent _ _ E h8 j' eq_refl).
  rewrite (bind_silent _ _ E h8 _ (neighborhood_holds E Canv rows j' h8 Hcanv Hj')).
  match goal with
  | |- _ = (Done (?a ++ flat_map ?g ?l), []) => refine (fold_m_flat _ g E h8 l _ a)
  end.
  intros k acc2 _.
  replace (map _ Atoms) with
    (flat_map (fun l => [(VTuple [VNat i; VNat j'; k; l],
                          bond_coef G (Bimetallic.count_neighbors (nth i rows []))
                            (Bimetallic.count_neighbors (nth j' rows [])) k l)]) Atoms)
    by (rewrite flat_map_concat_map; induction Atoms; cbn; congruence).
  match goal with
  | |- _ = (Done (?a ++ flat_map ?g ?l), []) => refine (fold_m_flat _ g E h8 l _ a)
  end.
  intros l acc3 _.
  pose proof (count_neighbors_pos (nth i rows []) (VNat j') Hj HjN) as Hposi.
  destruct (Nat.eqb_spec (Bimetallic.count_neighbors (nth i rows [])) 0); [lia |].
  destruct (Nat.eqb_spec (Bimetallic.count_neighbors (nth j' rows [])) 0); [lia |].
  reflexivity.
Qed.

Lemma paired_not_lonely : no_lonely_site paired_rows.
Proof.
  intros row x Hrow Hx.
  destruct Hrow as [<- | [<- | []]]; cbn in Hx;
    repeat (destruct Hx as [<- | Hx];
            [first [ left; reflexivity
                   | right; exists 1; split; [reflexivity | split; cbn; lia]
                   | right; exists 0; split; [reflexivity | split; cbn; lia] ] |]);
    destruct Hx.
Qed.

Lemma X14_witness :
  exists a,
    List.length a = 8
    /\ Bimetallic.cell_coefs VNone [VObj 0; VObj 1] (Lab.works 0) []
       = (Done (VDict (all_bond_entries (Gkl a) paired_rows [VObj 0; VObj 1])),
          map (fun sv => ECall (Call "Atom" [VStr (fst sv)] []) (Returns (snd sv)))
              (combine ["Cu"; "Cu"; "Cu"; "Ag"; "Ag"; "Ag"; "Ag"; "Cu"] a)).
Proof.
  apply (X14_bond_table VNone [VObj 0; VObj 1] (Lab.works 0) [] paired_rows).
  - intros h s. eexists. reflexivity.
  - intros h. split; reflexivity.
  - exact paired_not_lonely.
Defined.

(* ================================================================== *)
(** * Replicating the nanowire *)
(* ================================================================== *)

Lemma calls_of_app t1 t2 : calls_of (t1 ++ t2) = calls_of t1 ++ calls_of t2.
Proof. unfold calls_of. apply flat_map_app. Qed.

Lemma flat_map_singleton {X Y} (f : X -> Y) l : flat_map (fun x => [f x]) l = map f l.
Proof. induction l as [| x l IH]; cbn; [reflexivity | f_equal; exact IH]. Qed.

Lemma for_calls {X} (body : X -> M unit) (cs : X -> list call) E (l : list X) :
  (forall x h, In x l -> exists t,
      body x E h = (Done tt, t) /\ calls_of t = cs x /\ List.length t = List.length (cs x)) ->
  forall h, exists t,
    for_ l body E h = (Done tt, t)
    /\ calls_of t = flat_map cs l
    /\ List.length t = List.length (flat_map cs l).
Proof.
  intros Hb. unfold for_. induction l as [| x l IH]; intros h; cbn [fold_m flat_map].
  - exists []. repeat split.
  - destruct (Hb x h (or_introl eq_refl)) as (t1 & Hx & Hc1 & Hl1).
    destruct (IH (fun y h' Hy => Hb y h' (or_intror Hy)) (h ++ t1))
      as (t2 & Hrest & Hc2 & Hl2).
    exists (t1 ++ t2). split; [apply (run_bind _ _ _ _ _ _ _ _ Hx Hrest) |].
    rewrite calls_of_app, !length_app, Hc1, Hc2, Hl1, Hl2. split; reflexivity.
Qed.

(** X15.  Nanowire, the loops that build [periodicDesign].  On a design
    whose points and contents stay as they are, with [Design.add] calls
    that return, one replication loop completes and makes exactly these
    calls and no other event: for [k] = 0, 1, 2, 3 in turn and every site
    [i] in order, [periodicDesign.add] of the site's point shifted by
    [(k + 1) * shape.Vh] with the content of site [i], that is four calls
    for each site, also for the sites whose content is [None]. *)
Theorem X15_replication :
  forall E optimalDesign periodicDesign shift pts contents h,
    design_holds E optimalDesign pts contents ->
    adds_return E ->
    exists t,
      Nanowire.replicate optimalDesign periodicDesign shift E h = (Done tt, t)
      /\ calls_of t = replica_calls periodicDesign pts contents shift
      /\ List.length t = 4 * List.length pts.
Proof.
  intros E D P shift pts contents h Hd Hadd.
  assert (Hinner : forall k h',
    exists t,
      (Points <- read_list D@."Canvas"@."Points" ;;
       for_ (enumerate Points) (fun ip =>
         c <- read (item D@."Contents" (VNat (fst ip))) ;;
         call_ "Design.add" [P; shift (snd ip) k; c] ;;
         ret tt)) E h' = (Done tt, t)
      /\ calls_of t
         = map (fun ip => Call "Design.add" [P; shift (snd ip) k; contents (fst ip)] [])
               (enumerate pts)
      /\ List.length t
         = List.length
             (map (fun ip => Call "Design.add" [P; shift (snd ip) k; contents (fst ip)] [])
                  (enumerate pts))).
  { intros k h'.
    rewrite (bind_silent _ _ E h' pts)
      by (unfold read_list, bind, read; rewrite (proj1 (Hd h')); reflexivity).
    destruct (for_calls
                (fun ip => c <- read (item D@."Contents" (VNat (fst ip))) ;;
                           call_ "Design.add" [P; shift (snd ip) k; c] ;; ret tt)
                (fun ip => [Call "Design.add" [P; shift (snd ip) k; contents (fst ip)] []])
                E (enumerate pts)) with (h := h') as (t & Hrun & Hc & Hl).
    - intros ip h'' _.
      rewrite (bind_silent _ _ E h'' (contents (fst ip)))
        by (unfold read; rewrite (proj2 (Hd h'')); reflexivity).
      destruct (Hadd h'' (Call "Design.add" [P; shift (snd ip) k; contents (fst ip)] [])
                  eq_refl) as [v Hv].
      eexists. unfold call_. rewrite (bind_call_returns _ _ E h'' v Hv). cbn [ret].
      split; [reflexivity |]. split; reflexivity.
    - exists t. split; [exact Hrun |].
      rewrite Hc, Hl, flat_map_singleton. split; reflexivity. }
  unfold Nanowire.replicate.
  destruct (for_calls
              (fun k => Points <- read_list D@."Canvas"@."Points" ;;
                        for_ (enumerate Points) (fun ip =>
                          c <- read (item D@."Contents" (VNat (fst ip))) ;;
                          call_ "Design.add" [P; shift (snd ip) k; c] ;;
                          ret tt))
              (fun k => map (fun ip => Call "Design.add"
                                         [P; shift (snd ip) k; contents (fst ip)] [])
                            (enumerate pts))
              E (range 4) (fun k h' _ => Hinner k h') h) as (t & Hrun & Hc & Hl).
  exists t. split; [exact Hrun |]. split; [exact Hc |].
  rewrite Hl. cbn [range seq flat_map]. rewrite !length_app, !length_map.
  unfold enumerate. rewrite length_combine, length_seq, Nat.min_id. cbn. lia.
Qed.

Lemma X15_witness :
  exists t,
    Nanowire.replicate VNone (VObj 7) (fun p k => add p (VNat (k + 1))) (Lab.works 0) []
    = (Done tt, t)
    /\ calls_of t
       = replica_calls (VObj 7)
           [VList [Lab.f "0.0"; Lab.f "0.0"; Lab.f "0.0"];
            VList [Lab.f "0.0"; Lab.f "0.0"; Lab.f "9.0"]]
           (fun _ => Lab.f "9.0") (fun p k => add p (VNat (k + 1)))
    /\ List.length t = 4 * 2.
Proof.
  apply (X15_replication (Lab.works 0) VNone (VObj 7) (fun p k => add p (VNat (k + 1)))
           [VList [Lab.f "0.0"; Lab.f "0.0"; Lab.f "0.0"];
            VList [Lab.f "0.0"; Lab.f "0.0"; Lab.f "9.0"]]
           (fun _ => Lab.f "9.0") []).
  - intros h. split; [reflexivity | intros i; reflexivity].
  - intros h c Hc. cbn [lib Lab.works]. unfold Lab.library. rewrite Hc. eexists. reflexivity.
Defined.

(* ================================================================== *)
(** * The canvas of the bimetallic cluster *)
(* ================================================================== *)

(** X16.  Bimetallic, the canvas built from the first design.  On a
    design that counts as true and whose [len(D)] sites all have a content
    and a point, with calls that return, the cell makes a new canvas, adds
    to it the points of exactly the sites whose content is not [None], in
    the order of the sites, then sets its neighbours from the lattice, and
    calls nothing else; it returns that canvas. *)
Theorem X16_cluster_canvas :
  forall E Lat D n cs ps h,
    design_sites E D n cs ps ->
    n <= List.length cs -> n <= List.length ps ->
    all_return E ->
    exists Canv t,
      Bimetallic.cell_new_canvas Lat D E h = (Done Canv, t)
      /\ calls_of t
         = Call "Canvas" [] []
           :: map (fun p => Call "Canvas.addLocation" [Canv; p] []) (occupied cs ps n)
           ++ [Call "Canvas.setNeighborsFromFunc" [Canv; Lat@."getNeighbors"] []].
Proof.
  intros E Lat D n cs ps h Hd Hcs Hps Hret.
  unfold Bimetallic.cell_new_canvas.
  destruct (Hret h (Call "Canvas" [] [])) as [Canv HCanv].
  exists Canv. unfold call_ at 1. rewrite (bind_call_returns _ _ E h Canv HCanv).
  set (h1 := h ++ _).
  rewrite (bind_silent _ _ E h1 true (proj1 (Hd h1))).
  rewrite bind_assoc.
  rewrite (bind_silent _ _ E h1 n).
  2:{ unfold read_len, bind, read. rewrite (proj1 (proj2 (Hd h1))), as_nat_of_VNat.
      reflexivity. }
  destruct (for_calls
              (fun i => c <- index_of D@."Contents" i ;;
                        if negb (is_None c)
                        then p <- index_of D@."Canvas"@."Points" i ;;
                             call_ "Canvas.addLocation" [Canv; p] ;; ret tt
                        else ret tt)
              (fun i => if is_None (nth i cs VNone) then []
                        else [Call "Canvas.addLocation" [Canv; nth i ps VNone] []])
              E (range n)) with (h := h1) as (t & Hrun & Hc & _).
  { intros i h' Hi. apply in_seq in Hi.
    rewrite (bind_silent _ _ E h' (nth i cs VNone)).
    2:{ apply (index_of_holds E h' _ cs); [apply (Hd h') |].
        apply nth_error_nth'. lia. }
    destruct (is_None (nth i cs VNone)); cbn [negb].
    - exists []. repeat split.
    - rewrite (bind_silent _ _ E h' (nth i ps VNone)).
      2:{ apply (index_of_holds E h' _ ps); [apply (Hd h') |].
          apply nth_error_nth'. lia. }
      destruct (Hret h' (Call "Canvas.addLocation" [Canv; nth i ps VNone] [])) as [v Hv].
      eexists. unfold call_. rewrite (bind_call_returns _ _ E h' v Hv). cbn [ret].
      repeat split. }
  unfold bind at 1. rewrite Hrun.
  destruct (Hret (h1 ++ t) (Call "Canvas.setNeighborsFromFunc" [Canv; Lat@."getNeighbors"] []))
    as [v Hv].
  unfold call_. rewrite (bind_call_returns _ _ E (h1 ++ t) v Hv). cbn [ret].
  eexists. split; [reflexivity |].
  cbn [calls_of flat_map app]. fold (calls_of (t ++ [ECall
    (Call "Canvas.setNeighborsFromFunc" [Canv; Lat@."getNeighbors"] []) (Returns v)])).
  rewrite calls_of_app, Hc. f_equal. f_equal.
  unfold occupied. rewrite !flat_map_concat_map, concat_map, map_map.
  f_equal. apply map_ext. intros i. destruct (is_None _); reflexivity.
Qed.

Lemma X16_witness :
  exists Canv t,
    Bimetallic.cell_new_canvas VNone (VObj 3) obliging [] = (Done Canv, t)
    /\ calls_of t
       = Call "Canvas" [] []
         :: map (fun p => Call "Canvas.addLocation" [Canv; p] [])
                (occupied [VObj 5; VNone]
                   [VList [Lab.f "0.0"; Lab.f "0.0"; Lab.f "0.0"];
                    VList [Lab.f "0.0"; Lab.f "0.0"; Lab.f "9.0"]] 2)
         ++ [Call "Canvas.setNeighborsFromFunc" [Canv; VNone@."getNeighbors"] []].
Proof.
  apply (X16_cluster_canvas obliging VNone (VObj 3) 2).
  - intros h. repeat split; reflexivity.
  - cbn. lia.
  - cbn. lia.
  - intros h c. eexists. reflexivity.
Defined.

(* ================================================================== *)
(** * Marking the active sites of the perovskite *)
(* ================================================================== *)

(** X17.  Perovskite, the cell that writes the result.  With a design
    that is not [None], a model whose keys and values stay as they are,
    and calls that return, the cell completes and calls, in this order and
    nothing else: [m.Zic.keys()]; for every key [(i, c)] in turn whose
    value [m.Zic.values[i, c]] is above 0.5, [Atom("S")] and
    [D.setContent(i, ...)] with that atom, once for each such key, so more
    than once for a site with several such conformations; and
    [D.toCFG("result.cfg", BBox=S)]. *)
Theorem X17_marked_sites :
  forall E m S D keys z atomS h,
    is_None D = false ->
    model_holds E m keys z atomS ->
    all_return E ->
    exists t,
      Perovskite.cell_process m S D E h = (Done tt, t)
      /\ calls_of t
         = Call "MaterialDescriptor.keys" [m@."Zic"] []
           :: marking_calls (flt_lt E) D keys z atomS
           ++ [Call "Design.toCFG" [D; VStr "result.cfg"] [("BBox", S)]].
Proof.
  intros E m S D keys z atomS h HD Hm Hret.
  unfold Perovskite.cell_process. rewrite HD. cbn [negb].
  unfold call_ at 1. rewrite (bind_call_returns _ _ E h _ (proj1 (Hm h))).
  set (h1 := h ++ _).
  rewrite (bind_silent _ _ E h1 (map (fun ic => VTuple [fst ic; snd ic]) keys) eq_refl).
  destruct (for_calls
              (fun key =>
                 ic <- unpack2 key ;;
                 lt <- float_lt ;;
                 z <- read (item m@."Zic"@."values" (VTuple [fst ic; snd ic])) ;;
                 if lt (VFloat "0.5") z then
                   atom <- Atom "S" ;;
                   call_ "Design.setContent" [D; fst ic; atom] ;;
                   ret tt
                 else ret tt)
              (fun key =>
                 match key with
                 | VTuple [i; c] =>
                     if flt_lt E (VFloat "0.5") (z i c)
                     then [Call "Atom" [VStr "S"] [];
                           Call "Design.setContent" [D; i; atomS] []]
                     else []
                 | _ => []
                 end)
              E (map (fun ic => VTuple [fst ic; snd ic]) keys)) with (h := h1)
    as (t & Hrun & Hc & _).
  { intros key h' Hkey. apply in_map_iff in Hkey. destruct Hkey as ([i c] & <- & _).
    cbn [fst snd unpack2 as_list].
    rewrite (bind_silent (ret (i, c)) _ E h' (i, c) eq_refl).
    rewrite (bind_silent float_lt _ E h' (flt_lt E) eq_refl).
    rewrite (bind_silent _ _ E h' (z i c))
      by (unfold read; rewrite (proj1 (proj2 (Hm h'))); reflexivity).
    cbn [fst snd].
    destruct (flt_lt E (VFloat "0.5") (z i c)).
    - unfold Atom, call_.
      rewrite (bind_call_returns _ _ E h' _ (proj2 (proj2 (Hm h')))).
      destruct (Hret (h' ++ [ECall (Call "Atom" [VStr "S"] []) (Returns atomS)])
                  (Call "Design.setContent" [D; i; atomS] [])) as [v Hv].
      rewrite (bind_call_returns _ _ E _ _ Hv). cbn [ret].
      eexists. repeat split.
    - exists []. repeat split. }
  assert (Hmark : flat_map
                    (fun key =>
                       match key with
                       | VTuple [i; c] =>
                           if flt_lt E (VFloat "0.5") (z i c)
                           then [Call "Atom" [VStr "S"] [];
                                 Call "Design.setContent" [D; i; atomS] []]
                           else []
                       | _ => []
                       end) (map (fun ic => VTuple [fst ic; snd ic]) keys)
                  = marking_calls (flt_lt E) D keys z atomS).
  { unfold marking_calls. clear. induction keys as [| [i c] keys IH]; cbn; [reflexivity |].
    rewrite IH. reflexivity. }
  rewrite Hmark in Hc. clear Hmark.
  unfold bind at 1. rewrite Hrun.
  destruct (Hret (h1 ++ t) (Call "Design.toCFG" [D; VStr "result.cfg"] [("BBox", S)]))
    as [v Hv].
  unfold call_kw. rewrite (bind_call_returns _ _ E (h1 ++ t) v Hv). cbn [ret].
  eexists. split; [reflexivity |].
  cbn [calls_of flat_map app].
  fold (calls_of (t ++ [ECall (Call "Design.toCFG" [D; VStr "result.cfg"] [("BBox", S)])
                          (Returns v)])).
  rewrite calls_of_app, Hc. reflexivity.
Qed.

Lemma X17_witness :
  exists t,
    Perovskite.cell_process VNone VNone (VObj 4) solved_model [] = (Done tt, t)
    /\ calls_of t
       = Call "MaterialDescriptor.keys" [VNone@."Zic"] []
         :: marking_calls Lab.less (VObj 4) [(VInt 0, VInt 0); (VInt 0, VInt 1)]
              (fun _ c => match c with VInt 0 => Lab.f "9.0" | _ => Lab.f "0.0" end)
              (VObj 9)
         ++ [Call "Design.toCFG" [VObj 4; VStr "result.cfg"] [("BBox", VNone)]].
Proof.
  apply (X17_marked_sites solved_model VNone VNone (VObj 4)
           [(VInt 0, VInt 0); (VInt 0, VInt 1)]
           (fun _ c => match c with VInt 0 => Lab.f "9.0" | _ => Lab.f "0.0" end)
           (VObj 9) [] eq_refl).
  - intros h. split; [reflexivity |]. split; [| reflexivity].
    intros i c. reflexivity.
  - intros h c. cbn [lib solved_model]. destruct (String.eqb _ _); eexists; reflexivity.
Defined.

